(** * Status Report Scribe: the card state machine and the submission request

    A shallow embedding of [src/types.ts], [src/App.tsx],
    [src/services/geminiService.ts] and [src/components/ReportCard.tsx].

    JavaScript strings are sequences of UTF-16 code units; they are modelled
    as lists of code units so that [String.prototype.trim] can be given its
    ECMAScript meaning.  A React render closes over its props; every handler
    below takes the props of the render that created it as an explicit
    argument, and every [await] splits a handler into the part run at the
    call and the part run when the promise settles. *)

From Stdlib Require Import ZArith NArith List Bool Lia.
From Stdlib Require Import Strings.String Strings.Ascii DecimalString DecimalNat.
From stdpp Require Import base option list gmap.

Local Open Scope list_scope.

(** ** JavaScript strings *)

Definition code_unit : Type := N.
Definition jsstring : Type := list code_unit.

(** The code units of an ASCII literal of the source. *)
Fixpoint lit (s : string) : jsstring :=
  match s with
  | EmptyString => []
  | String a s' => N_of_ascii a :: lit s'
  end.

(** Code units that cannot be written inside a literal here. *)
Definition LF : N := 10%N.
Definition DQUOTE : N := 34%N.

(** [`${n}`] for a non-negative integer [n]. *)
Definition number_toString (n : nat) : jsstring :=
  lit (NilEmpty.string_of_uint (Nat.to_uint n)).

(** The number that a string of decimal digits denotes, read digit by
    digit from the left; [None] for a string that is empty or has a code
    unit that is no digit.  It is what the numerals of the source are
    compared with. *)
Definition digit_value (c : N) : option nat :=
  if ((48 <=? c) && (c <=? 57))%N then Some (N.to_nat (c - 48)) else None.

Fixpoint decimal_value_from (acc : nat) (s : jsstring) : option nat :=
  match s with
  | [] => Some acc
  | c :: s' =>
      match digit_value c with
      | Some d => decimal_value_from (10 * acc + d) s'
      | None => None
      end
  end.

Definition decimal_value (s : jsstring) : option nat :=
  match s with
  | [] => None
  | _ :: _ => decimal_value_from 0 s
  end.

(** ECMAScript WhiteSpace and LineTerminator code points, the set that
    [trim] strips (all of them lie in the basic plane). *)
Definition isWhiteSpace (c : N) : bool :=
  ((c =? 9) || (c =? 10) || (c =? 11) || (c =? 12) || (c =? 13) || (c =? 32)
   || (c =? 160) || (c =? 5760) || ((8192 <=? c) && (c <=? 8202))
   || (c =? 8232) || (c =? 8233) || (c =? 8239) || (c =? 8287)
   || (c =? 12288) || (c =? 65279))%N.

Fixpoint trimStart (s : jsstring) : jsstring :=
  match s with
  | [] => []
  | c :: s' => if isWhiteSpace c then trimStart s' else s
  end.

Definition trimEnd (s : jsstring) : jsstring := rev (trimStart (rev s)).

Definition trim (s : jsstring) : jsstring := trimEnd (trimStart s).

(** ** [types.ts] *)

Inductive TargetLanguage : Type := en | de.

Inductive CardStatus : Type := IDLE | RECORDING | PROCESSING | COMPLETED | ERROR.

Record ContextFile : Type := mkContextFile {
  name : jsstring;
  mimeType : jsstring;
  data : jsstring (* Base64 *)
}.

(** An optional property ([error?], [contextText?], [contextFile?]) is an
    [option]: [None] stands for a property that is missing or [undefined];
    no code of the repository tells the two apart. *)
Record ReportItem : Type := mkReportItem {
  id : jsstring;
  speakerName : jsstring;
  status : CardStatus;
  text : jsstring;
  timestamp : Z;
  durationSeconds : nat;
  error : option jsstring;
  contextText : option jsstring;
  contextFile : option ContextFile
}.

Record Blob : Type := mkBlob {
  bytes : list N;
  type : jsstring
}.

(** [Partial<ReportItem>]: for each key, [None] when the object literal does
    not have the key and [Some v] when it has it with value [v] (for an
    optional property, [Some None] is the key written with [undefined]). *)
Record PartialItem : Type := mkPartial {
  u_id : option jsstring;
  u_speakerName : option jsstring;
  u_status : option CardStatus;
  u_text : option jsstring;
  u_timestamp : option Z;
  u_durationSeconds : option nat;
  u_error : option (option jsstring);
  u_contextText : option (option jsstring);
  u_contextFile : option (option ContextFile)
}.

Definition no_updates : PartialItem :=
  mkPartial None None None None None None None None None.

#[global] Instance CardStatus_eq_dec : EqDecision CardStatus.
Proof. solve_decision. Defined.
#[global] Instance TargetLanguage_eq_dec : EqDecision TargetLanguage.
Proof. solve_decision. Defined.
#[global] Instance ContextFile_eq_dec : EqDecision ContextFile.
Proof. solve_decision. Defined.
#[global] Instance ReportItem_eq_dec : EqDecision ReportItem.
Proof. solve_decision. Defined.

(** ** [App.tsx]: the collection *)

Module App.

(** [{ ...item, ...updates }] *)
Definition spread (item : ReportItem) (updates : PartialItem) : ReportItem :=
  {| id := default (id item) (u_id updates);
     speakerName := default (speakerName item) (u_speakerName updates);
     status := default (status item) (u_status updates);
     text := default (text item) (u_text updates);
     timestamp := default (timestamp item) (u_timestamp updates);
     durationSeconds := default (durationSeconds item) (u_durationSeconds updates);
     error := default (error item) (u_error updates);
     contextText := default (contextText item) (u_contextText updates);
     contextFile := default (contextFile item) (u_contextFile updates) |}.

(** The updater that [addNewCard] hands to [setItems]; [uuidv4()] and
    [Date.now()] are the values the environment returned. *)
Definition addNewCard (uuid : jsstring) (now : Z) (prev : list ReportItem)
  : list ReportItem :=
  let newItem :=
    {| id := uuid;
       speakerName := lit "Speaker " ++ number_toString (length prev + 1);
       status := IDLE;
       text := [];
       timestamp := now;
       durationSeconds := 0;
       error := None;
       contextText := None;
       contextFile := None |} in
  prev ++ [newItem].

Definition updateItem (id0 : jsstring) (updates : PartialItem)
    (prev : list ReportItem) : list ReportItem :=
  map (fun item => if bool_decide (id item = id0) then spread item updates else item)
      prev.

Definition deleteItem (id0 : jsstring) (prev : list ReportItem) : list ReportItem :=
  List.filter (fun item => negb (bool_decide (id item = id0))) prev.

(** The "Initial card" effect: it has no dependencies, so it runs once,
    after the first render, on the items of that render. *)
Definition initial_card_effect (uuid : jsstring) (now : Z)
    (items : list ReportItem) : list ReportItem :=
  if (length items =? 0)%nat then addNewCard uuid now items else items.

End App.

(** ** [services/geminiService.ts]: the submission request *)

Module geminiService.

Inductive Nullish : Type := js_null | js_undefined.

(** A value that was thrown or that a promise rejected with
    ([catch (error: any)]).  The code only ever reads its [message]
    property.  Of [null] and of [undefined] that read throws a TypeError;
    of any other value it gives the property, which is taken to be a string
    when it is there, as it is of every [Error] and [DOMException] (a
    primitive, or an event object, has none). *)
Inductive Thrown : Type :=
| thrown_nullish (v : Nullish)
| thrown_value (its_message : option jsstring).

(** The [message] that a thrown value carries, if it carries one. *)
Definition message (e : Thrown) : option jsstring :=
  match e with
  | thrown_nullish _ => None
  | thrown_value m => m
  end.

(** How an awaited promise settles, or how an expression completes. *)
Inductive Outcome (A : Type) : Type :=
| resolved (a : A)
| rejected (e : Thrown).
Arguments resolved {A} a.
Arguments rejected {A} e.

(** [new Error(msg)] *)
Definition new_Error (msg : jsstring) : Thrown := thrown_value (Some msg).

(** The TypeError of a property read on [null] or [undefined].  The
    wording of its message is the engine's; V8's is given. *)
Definition TypeError_reading_message (v : Nullish) : Thrown :=
  new_Error (lit "Cannot read properties of "
             ++ match v with js_null => lit "null" | js_undefined => lit "undefined" end
             ++ lit " (reading 'message')").

(** [error.message], as an expression that is evaluated. *)
Definition read_message (error : Thrown) : Outcome (option jsstring) :=
  match error with
  | thrown_nullish v => rejected (TypeError_reading_message v)
  | thrown_value m => resolved m
  end.

(** [a || b] on a possibly undefined string: the empty string is falsy. *)
Definition or_else (a : option jsstring) (b : jsstring) : jsstring :=
  match a with
  | Some (c :: s) => c :: s
  | Some [] | None => b
  end.

Inductive Part : Type :=
| inlineData (mime : jsstring) (payload : jsstring)
| textPart (t : jsstring).

(** The argument of [ai.models.generateContent]; [temperature: 0.2] is a
    constant of the configuration and is left out. *)
Record Request : Type := mkRequest {
  model : jsstring;
  systemInstruction : jsstring;
  parts : list Part
}.

Definition MODEL_NAME : jsstring := lit "gemini-3-flash-preview".

Definition unlines (ls : list jsstring) : jsstring :=
  concat (map (fun l => l ++ [LF]) ls).

Definition getSystemInstruction (language : TargetLanguage) : jsstring :=
  let LANG := match language with en => lit "ENGLISH" | de => lit "GERMAN" end in
  LF :: unlines
    [ lit "You are an expert technical minute-taker for status meetings. ";
      lit "Your Input: ";
      lit "1. Optional: Existing Context (Text or File) describing the current status.";
      lit "2. Audio: A person giving a status update.";
      [];
      lit "Your Task: Compare the Audio against the Existing Context.";
      lit "Your Output: Strictly clean, concise " ++ LANG
        ++ lit " bullet points for the " ++ [DQUOTE] ++ lit "Comments" ++ [DQUOTE]
        ++ lit " column.";
      [];
      lit "CRITICAL RULES:";
      lit "1. **NO DUPLICATES**: If the audio merely repeats what is in the Existing Context, IGNORE IT.";
      lit "2. **UPDATES ONLY**: Only capture NEW information, changes to the existing status, answers to questions, or specific questions asked.";
      lit "3. If the audio contradicts the context, note the change explicitly.";
      lit "4. Output format: Plain text bullet points (using " ++ [DQUOTE] ++ lit "- "
        ++ [DQUOTE] ++ lit ").";
      lit "5. Translate content to " ++ LANG ++ lit ".";
      lit "6. Keep it short and knackig (concise)." ].

(** 1. Add Context File if exists: the file, then a caption naming it. *)
Definition contextFileParts (contextFile : option ContextFile) : list Part :=
  match contextFile with
  | Some f =>
      [ inlineData (mimeType f) (data f);
        textPart (lit "[SYSTEM] Above is the attached existing context file ("
                  ++ name f ++ lit ").") ]
  | None => []
  end.

Definition contextTextPart (contextText : jsstring) : Part :=
  textPart (lit "[SYSTEM] EXISTING CONTEXT / CURRENT STATUS:" ++ [LF; DQUOTE]
            ++ contextText ++ [DQUOTE; LF; LF]
            ++ lit "(Do not repeat this information in the output unless it is being corrected/updated).").

(** [contextText && contextText.trim().length > 0] *)
Definition hasContextText (contextText : option jsstring) : bool :=
  match contextText with
  | None | Some [] => false
  | Some s => (0 <? length (trim s))%nat
  end.

(** 2. Add Context Text if exists. *)
Definition contextTextParts (contextText : option jsstring) : list Part :=
  match contextText with
  | Some s => if hasContextText contextText then [contextTextPart s] else []
  | None => []
  end.

(** 3. Add Audio. *)
Definition audioPart (mime base64Audio : jsstring) : Part :=
  inlineData mime base64Audio.

(** 4. Final Prompt. *)
Definition finalPrompt (language : TargetLanguage) : Part :=
  textPart (lit "Analyze the audio. Extract ONLY new info, changes, or Q&A relative to the context above. Output in "
            ++ match language with en => lit "English" | de => lit "German" end
            ++ lit " bullet points.").

(** The [parts] array after the four groups of [push]. *)
Definition buildParts (base64Audio mime : jsstring) (language : TargetLanguage)
    (contextText : option jsstring) (contextFile : option ContextFile) : list Part :=
  contextFileParts contextFile
  ++ contextTextParts contextText
  ++ [audioPart mime base64Audio]
  ++ [finalPrompt language].

Definition emptyFallback (language : TargetLanguage) : jsstring :=
  match language with
  | en => lit "No new updates detected."
  | de => lit "Keine neuen Updates erkannt."
  end.

Definition genericFailure : jsstring := lit "Failed to process audio.".

(** [catch (error) { throw new Error(error.message || "Failed ...") }]:
    what the block throws.  When reading [error.message] throws, the
    [new Error] is never made and the block throws the TypeError. *)
Definition rethrow (e : Thrown) : Thrown :=
  match read_message e with
  | resolved m => new_Error (or_else m genericFailure)
  | rejected type_error => type_error
  end.

Section Collaborators.
(** [blobToBase64] of [utils/audioUtils] and the remote call, whose
    resolved value is read through [response.text]. *)
Variable blobToBase64 : Blob -> Outcome jsstring.
Variable generateContent : Request -> Outcome (option jsstring).

Definition generateReportFromAudio (audioBlob : Blob) (mime : jsstring)
    (language : TargetLanguage) (contextText : option jsstring)
    (contextFile : option ContextFile) : Outcome jsstring :=
  match blobToBase64 audioBlob with
  | rejected e => rejected (rethrow e)
  | resolved base64Audio =>
      let request :=
        {| model := MODEL_NAME;
           systemInstruction := getSystemInstruction language;
           parts := buildParts base64Audio mime language contextText contextFile |} in
      match generateContent request with
      | rejected e => rejected (rethrow e)
      | resolved response_text =>
          resolved (or_else response_text (emptyFallback language))
      end
  end.

(** The request that reaches the remote collaborator, if any does. *)
Definition requestSent (audioBlob : Blob) (mime : jsstring)
    (language : TargetLanguage) (contextText : option jsstring)
    (contextFile : option ContextFile) : option Request :=
  match blobToBase64 audioBlob with
  | rejected _ => None
  | resolved base64Audio =>
      Some {| model := MODEL_NAME;
              systemInstruction := getSystemInstruction language;
              parts := buildParts base64Audio mime language contextText contextFile |}
  end.
End Collaborators.

End geminiService.


(** ** [components/ReportCard.tsx]: the card controller *)

Module ReportCard.
Import geminiService.

(** What a render of the component closes over.  [onUpdate] and [onDelete]
    are always [App.updateItem] and [App.deleteItem]. *)
Record Props : Type := mkProps {
  item : ReportItem;
  language : TargetLanguage
}.

(** [MediaRecorder.state]; the code never pauses a recorder. *)
Inductive RecordingState : Type := inactive | recording.

(** A recorder made by [startRecording].  Its [onstop] handler calls the
    [handleProcessing] of the render whose [startRecording] ran, so the
    handler is represented by the props of that render.  A recorder becomes
    inactive, and its stop event is queued, when [stop()] is called on it
    or when its stream ends by itself (the device is unplugged, the
    permission is withdrawn). *)
Record MediaRecorder : Type := mkRecorder {
  state : RecordingState;
  onstop : Props
}.

(** The hooks of one mounted component, the interval timers it created,
    its calls that are suspended at an [await] or whose event has not been
    dispatched yet, and the recorders that still record although
    [mediaRecorderRef] points to a later one: the code can stop none of
    them, their streams can still end.  Each is represented by its
    [onstop] handler. *)
Record Local : Type := mkLocal {
  timer : nat;
  showContext : bool;
  mediaRecorderRef : option MediaRecorder;
  chunksRef : list Blob;
  timerIntervalRef : option nat;
  liveIntervals : list nat;
  nextInterval : nat;
  awaitingMic : list Props;              (* startRecording at [await getUserMedia] *)
  pendingStop : list Props;              (* stop events queued for [onstop] handlers *)
  awaitingReport : list (Props * Blob);  (* handleProcessing at its [await] *)
  awaitingFile : list (Props * jsstring); (* handleFileUpload at [await fileToData] *)
  orphans : list Props                   (* recording recorders left by the ref *)
}.

Definition mountLocal : Local :=
  mkLocal 0 false None [] None [] 1 [] [] [] [] [].

Definition set_timer (v : nat) (l : Local) : Local :=
  mkLocal v (showContext l) (mediaRecorderRef l) (chunksRef l) (timerIntervalRef l)
    (liveIntervals l) (nextInterval l) (awaitingMic l) (pendingStop l)
    (awaitingReport l) (awaitingFile l) (orphans l).
Definition set_showContext (v : bool) (l : Local) : Local :=
  mkLocal (timer l) v (mediaRecorderRef l) (chunksRef l) (timerIntervalRef l)
    (liveIntervals l) (nextInterval l) (awaitingMic l) (pendingStop l)
    (awaitingReport l) (awaitingFile l) (orphans l).
Definition set_mediaRecorderRef (v : option MediaRecorder) (l : Local) : Local :=
  mkLocal (timer l) (showContext l) v (chunksRef l) (timerIntervalRef l)
    (liveIntervals l) (nextInterval l) (awaitingMic l) (pendingStop l)
    (awaitingReport l) (awaitingFile l) (orphans l).
Definition set_chunksRef (v : list Blob) (l : Local) : Local :=
  mkLocal (timer l) (showContext l) (mediaRecorderRef l) v (timerIntervalRef l)
    (liveIntervals l) (nextInterval l) (awaitingMic l) (pendingStop l)
    (awaitingReport l) (awaitingFile l) (orphans l).
Definition set_awaitingMic (v : list Props) (l : Local) : Local :=
  mkLocal (timer l) (showContext l) (mediaRecorderRef l) (chunksRef l) (timerIntervalRef l)
    (liveIntervals l) (nextInterval l) v (pendingStop l)
    (awaitingReport l) (awaitingFile l) (orphans l).
Definition set_pendingStop (v : list Props) (l : Local) : Local :=
  mkLocal (timer l) (showContext l) (mediaRecorderRef l) (chunksRef l) (timerIntervalRef l)
    (liveIntervals l) (nextInterval l) (awaitingMic l) v
    (awaitingReport l) (awaitingFile l) (orphans l).
Definition set_awaitingReport (v : list (Props * Blob)) (l : Local) : Local :=
  mkLocal (timer l) (showContext l) (mediaRecorderRef l) (chunksRef l) (timerIntervalRef l)
    (liveIntervals l) (nextInterval l) (awaitingMic l) (pendingStop l)
    v (awaitingFile l) (orphans l).
Definition set_awaitingFile (v : list (Props * jsstring)) (l : Local) : Local :=
  mkLocal (timer l) (showContext l) (mediaRecorderRef l) (chunksRef l) (timerIntervalRef l)
    (liveIntervals l) (nextInterval l) (awaitingMic l) (pendingStop l)
    (awaitingReport l) v (orphans l).
Definition set_orphans (v : list Props) (l : Local) : Local :=
  mkLocal (timer l) (showContext l) (mediaRecorderRef l) (chunksRef l) (timerIntervalRef l)
    (liveIntervals l) (nextInterval l) (awaitingMic l) (pendingStop l)
    (awaitingReport l) (awaitingFile l) v.

(** [window.setInterval(...)], stored in [timerIntervalRef.current]. *)
Definition setInterval_into_ref (l : Local) : Local :=
  mkLocal (timer l) (showContext l) (mediaRecorderRef l) (chunksRef l)
    (Some (nextInterval l)) (nextInterval l :: liveIntervals l) (S (nextInterval l))
    (awaitingMic l) (pendingStop l) (awaitingReport l) (awaitingFile l) (orphans l).

(** [if (timerIntervalRef.current) clearInterval(timerIntervalRef.current)],
    followed by [timerIntervalRef.current = null] when [and_null] is set. *)
Definition clearInterval_of_ref (and_null : bool) (l : Local) : Local :=
  match timerIntervalRef l with
  | Some h =>
      mkLocal (timer l) (showContext l) (mediaRecorderRef l) (chunksRef l)
        (if and_null then None else Some h)
        (List.filter (fun h' => negb (h' =? h)%nat) (liveIntervals l)) (nextInterval l)
        (awaitingMic l) (pendingStop l) (awaitingReport l) (awaitingFile l) (orphans l)
  | None => l
  end.

(** [mediaRecorderRef.current && mediaRecorderRef.current.state === 'recording'] *)
Definition ref_is_recording (l : Local) : bool :=
  match mediaRecorderRef l with
  | Some (mkRecorder recording _) => true
  | _ => false
  end.

(** The referenced recorder stops recording: it becomes inactive and one
    stop event is queued for its [onstop] handler.  This is what
    [mediaRecorderRef.current.stop()] does to a recording recorder, and
    what the end of its stream does. *)
Definition stop_ref (l : Local) : Local :=
  match mediaRecorderRef l with
  | Some r =>
      set_pendingStop (pendingStop l ++ [onstop r])
        (set_mediaRecorderRef (Some (mkRecorder inactive (onstop r))) l)
  | None => l
  end.

(** The stream of the referenced recorder ends by itself; nothing happens
    to a recorder that is not recording. *)
Definition stream_ended (l : Local) : option Local :=
  if ref_is_recording l then Some (stop_ref l) else None.

(** The stream of the [k]-th recorder that the ref has left ends. *)
Definition orphan_stream_ended (k : nat) (l : Local) : option Local :=
  q ← orphans l !! k;
  Some (set_pendingStop (pendingStop l ++ [q]) (set_orphans (delete k (orphans l)) l)).

(** [mediaRecorderRef.current = mediaRecorder]: the recorder that was
    referenced goes on recording if it was. *)
Definition assign_mediaRecorderRef (r : MediaRecorder) (l : Local) : Local :=
  set_mediaRecorderRef (Some r)
    match mediaRecorderRef l with
    | Some (mkRecorder recording q) => set_orphans (orphans l ++ [q]) l
    | _ => l
    end.

Definition micDenied : jsstring := lit "Mic access denied".

(** How the body of the [try] in [startRecording] goes on after
    [getUserMedia] settles: the promise rejects, or it resolves and
    [new MediaRecorder(stream)] throws, or [mediaRecorder.start()] throws,
    or the whole block runs. *)
Inductive MicOutcome : Type :=
| getUserMedia_rejected
| MediaRecorder_threw
| start_threw
| granted.

(** [startRecording], up to [await getUserMedia]. *)
Definition startRecording (p : Props) (l : Local) : Local :=
  set_awaitingMic (awaitingMic l ++ [p]) l.

(** [startRecording], from the [await] on. *)
Definition startRecording_resume (p : Props) (o : MicOutcome)
    (l : Local) (items : list ReportItem) : Local * list ReportItem :=
  let failed :=
    App.updateItem (id (item p))
      (mkPartial None None (Some ERROR) None None None (Some (Some micDenied)) None None)
      items in
  match o with
  | getUserMedia_rejected | MediaRecorder_threw => (l, failed)
  | start_threw =>
      (set_chunksRef [] (assign_mediaRecorderRef (mkRecorder inactive p) l), failed)
  | granted =>
      let l1 := set_chunksRef [] (assign_mediaRecorderRef (mkRecorder recording p) l) in
      let items1 :=
        App.updateItem (id (item p))
          (mkPartial None None (Some RECORDING) None None None None None None) items in
      (setInterval_into_ref (set_timer 0 l1), items1)
  end.

(** [mediaRecorder.ondataavailable] *)
Definition ondataavailable (e_data : Blob) (l : Local) : Local :=
  if (0 <? length (bytes e_data))%nat
  then set_chunksRef (chunksRef l ++ [e_data]) l
  else l.

(** [stopRecording]; [timer] is the state of the render that made it. *)
Definition stopRecording (p : Props) (l : Local) (items : list ReportItem)
    : Local * list ReportItem :=
  if ref_is_recording l then
    (clearInterval_of_ref true (stop_ref l),
     App.updateItem (id (item p))
       (mkPartial None None (Some PROCESSING) None None (Some (timer l)) None None None)
       items)
  else (l, items).

(** [handleProcessing], up to its [await]. *)
Definition handleProcessing (p : Props) (blob : Blob) (l : Local) : Local :=
  set_awaitingReport (awaitingReport l ++ [(p, blob)]) l.

(** [mediaRecorder.onstop] of a recorder made under props [p]. *)
Definition recorder_onstop (p : Props) (l : Local) : Local :=
  let blob := mkBlob (concat (map bytes (chunksRef l))) (lit "audio/webm") in
  handleProcessing p blob l.

(** The call that [handleProcessing] awaits. *)
Definition handleProcessing_call (p : Props) (blob : Blob)
    (blobToBase64 : Blob -> Outcome jsstring)
    (generateContent : Request -> Outcome (option jsstring)) : Outcome jsstring :=
  generateReportFromAudio blobToBase64 generateContent
    blob (type blob) (language p) (contextText (item p)) (contextFile (item p)).

(** [handleProcessing], from the [await] on. *)
Definition handleProcessing_resume (p : Props) (o : Outcome jsstring)
    (items : list ReportItem) : list ReportItem :=
  match o with
  | resolved t =>
      App.updateItem (id (item p))
        (mkPartial None None (Some COMPLETED) (Some t) None None None None None) items
  | rejected e =>
      match read_message e with
      | resolved m =>
          App.updateItem (id (item p))
            (mkPartial None None (Some ERROR) None None None (Some m) None None) items
      | rejected _ => items (* the [catch] block throws before [onUpdate] *)
      end
  end.

(** [handleFileUpload], up to [await fileToData(file)]; [files0] is the
    name of [e.target.files[0]] when there is one. *)
Definition handleFileUpload (p : Props) (files0 : option jsstring) (l : Local) : Local :=
  match files0 with
  | Some file_name => set_awaitingFile (awaitingFile l ++ [(p, file_name)]) l
  | None => l
  end.

(** [handleFileUpload], from the [await] on; [fileToData] resolves with
    [{ base64, mimeType }]. *)
Definition handleFileUpload_resume (p : Props) (file_name : jsstring)
    (o : Outcome (jsstring * jsstring)) (items : list ReportItem) : list ReportItem :=
  match o with
  | resolved (base64, mime) =>
      App.updateItem (id (item p))
        (mkPartial None None None None None None None None
           (Some (Some (mkContextFile file_name mime base64)))) items
  | rejected _ => items
  end.

Definition removeFile (p : Props) (items : list ReportItem) : list ReportItem :=
  App.updateItem (id (item p))
    (mkPartial None None None None None None None None (Some None)) items.

(** The inline handlers of the inputs and of the Reset button. *)
Definition onChange_speakerName (p : Props) (value : jsstring) :=
  App.updateItem (id (item p))
    (mkPartial None (Some value) None None None None None None None).
Definition onChange_contextText (p : Props) (value : jsstring) :=
  App.updateItem (id (item p))
    (mkPartial None None None None None None None (Some (Some value)) None).
Definition onChange_text (p : Props) (value : jsstring) :=
  App.updateItem (id (item p))
    (mkPartial None None None (Some value) None None None None None).
Definition onClick_reset (p : Props) :=
  App.updateItem (id (item p))
    (mkPartial None None (Some IDLE) None None None (Some None) None None).

(** The cleanup of the mount effect. *)
Definition unmount_cleanup (l : Local) : Local :=
  let l1 := clearInterval_of_ref false l in
  if ref_is_recording l1 then stop_ref l1 else l1.

(** The elements of the returned tree that carry a handler. *)
Inductive Control : Type :=
| SpeakerNameInput | ContextToggle | DeleteButton
| ContextClose | ContextTextarea | FileInput | RemoveFileButton
| StartButton | StopButton | ResetButton | SummaryTextarea | CopyButton.

(** [!!(item.contextText?.trim() || item.contextFile)] *)
Definition hasContext (p : Props) : bool :=
  match contextText (item p) with
  | Some s => (0 <? length (trim s))%nat
  | None => false
  end
  || match contextFile (item p) with Some _ => true | None => false end.

(** Whether the render under props [p] and state [l] offers the control.
    The context panel is in the tree when [showContext || hasContext] and
    is displayed only when [showContext]; the file input is never displayed
    and is reached through the Attach button, so it can deliver a change
    as long as it is in the tree. *)
Definition rendered (p : Props) (l : Local) (c : Control) : bool :=
  match c with
  | SpeakerNameInput | ContextToggle | DeleteButton => true
  | ContextClose | ContextTextarea => showContext l
  | FileInput => showContext l || hasContext p
  | RemoveFileButton => showContext l && bool_decide (is_Some (contextFile (item p)))
  | StartButton => bool_decide (status (item p) = IDLE)
  | StopButton => bool_decide (status (item p) = RECORDING)
  | ResetButton => bool_decide (status (item p) = ERROR)
  | SummaryTextarea | CopyButton => bool_decide (status (item p) = COMPLETED)
  end.

(** [s.padStart(targetLength, c)] for a pad string of one code unit. *)
Definition padStart (targetLength : nat) (c : N) (s : jsstring) : jsstring :=
  replicate (targetLength - length s) c ++ s.

(** [formatTime], on the non-negative integers that [timer] takes. *)
Definition formatTime (seconds : nat) : jsstring :=
  let mins := seconds / 60 in
  let secs := seconds mod 60 in
  number_toString mins ++ lit ":" ++ padStart 2 48%N (number_toString secs).

End ReportCard.

(** ** The running page: the [App] state, the mounted cards, and the events
    the browser delivers to them *)

Record World : Type := mkWorld {
  items : list ReportItem;
  language : TargetLanguage;
  cards : gmap jsstring ReportCard.Local (* component state, by React key *)
}.

(** What the browser delivers: the actions of the user on the controls that
    are on the page; the settling of the promises that the handlers await
    ([getUserMedia], the remote call with its encoding, the file read);
    and the events of a recorder and of the interval: a chunk of data, the
    stop event that follows [stop()] or the end of the stream, a tick, and
    the end of the stream of a recorder by itself (the microphone is
    unplugged, its track ends), for the recorder in [mediaRecorderRef] and
    for one that the ref has left while it was recording. *)
Inductive Event : Type :=
| NewSpeaker (uuid : jsstring) (now : Z)
| SetLanguage (lang : TargetLanguage)
| Click (cid : jsstring) (c : ReportCard.Control)
| Input (cid : jsstring) (c : ReportCard.Control) (value : jsstring)
| FileChosen (cid : jsstring) (files0 : option jsstring)
| MicSettled (cid : jsstring) (k : nat) (o : ReportCard.MicOutcome)
| DataAvailable (cid : jsstring) (chunk : Blob)
| StopDispatched (cid : jsstring)
| ReportSettled (cid : jsstring) (k : nat)
    (base64 : geminiService.Outcome jsstring)
    (response_text : geminiService.Outcome (option jsstring))
| FileSettled (cid : jsstring) (k : nat)
    (o : geminiService.Outcome (jsstring * jsstring))
| Tick (cid : jsstring) (handle : nat)
| StreamEnded (cid : jsstring)
| OrphanStreamEnded (cid : jsstring) (k : nat).

(** The item that [items.map] renders under key [cid]. *)
Definition find_item (cid : jsstring) (its : list ReportItem) : option ReportItem :=
  List.find (fun it => bool_decide (id it = cid)) its.

Definition onClick (p : ReportCard.Props) (c : ReportCard.Control)
    (l : ReportCard.Local) (its : list ReportItem)
    : ReportCard.Local * list ReportItem :=
  match c with
  | ReportCard.ContextToggle =>
      (ReportCard.set_showContext (negb (ReportCard.showContext l)) l, its)
  | ReportCard.ContextClose => (ReportCard.set_showContext false l, its)
  | ReportCard.DeleteButton =>
      (ReportCard.unmount_cleanup l, App.deleteItem (id (ReportCard.item p)) its)
  | ReportCard.RemoveFileButton => (l, ReportCard.removeFile p its)
  | ReportCard.StartButton => (ReportCard.startRecording p l, its)
  | ReportCard.StopButton => ReportCard.stopRecording p l its
  | ReportCard.ResetButton => (l, ReportCard.onClick_reset p its)
  | ReportCard.CopyButton | ReportCard.FileInput | ReportCard.SpeakerNameInput
  | ReportCard.ContextTextarea | ReportCard.SummaryTextarea => (l, its)
  end.

Definition onChange (p : ReportCard.Props) (c : ReportCard.Control)
    (value : jsstring) (its : list ReportItem) : list ReportItem :=
  match c with
  | ReportCard.SpeakerNameInput => ReportCard.onChange_speakerName p value its
  | ReportCard.ContextTextarea => ReportCard.onChange_contextText p value its
  | ReportCard.SummaryTextarea => ReportCard.onChange_text p value its
  | _ => its
  end.

(** An event on a control of card [cid] reaches the handler made by the
    latest render, and only if that render put the control on the page. *)
Definition user_event (w : World) (cid : jsstring) (c : ReportCard.Control)
    (h : ReportCard.Props -> ReportCard.Local -> list ReportItem ->
         ReportCard.Local * list ReportItem) : World :=
  match find_item cid (items w), cards w !! cid with
  | Some it, Some l =>
      let p := ReportCard.mkProps it (language w) in
      if ReportCard.rendered p l c
      then let '(l', its') := h p l (items w) in
           mkWorld its' (language w) (<[cid := l']> (cards w))
      else w
  | _, _ => w
  end.

(** A promise or a browser event that belongs to the component with key
    [cid], mounted or not. *)
Definition card_event (w : World) (cid : jsstring)
    (h : ReportCard.Local -> list ReportItem ->
         option (ReportCard.Local * list ReportItem)) : World :=
  match cards w !! cid with
  | Some l =>
      match h l (items w) with
      | Some (l', its') => mkWorld its' (language w) (<[cid := l']> (cards w))
      | None => w
      end
  | None => w
  end.

Definition step (w : World) (e : Event) : World :=
  match e with
  | NewSpeaker uuid now =>
      (* [uuidv4()] returns an identifier that was never used *)
      if bool_decide (cards w !! uuid = None)
         && bool_decide (find_item uuid (items w) = None)
      then mkWorld (App.addNewCard uuid now (items w)) (language w)
             (<[uuid := ReportCard.mountLocal]> (cards w))
      else w
  | SetLanguage lang => mkWorld (items w) lang (cards w)
  | Click cid c => user_event w cid c (fun p => onClick p c)
  | Input cid c value =>
      user_event w cid c (fun p l its => (l, onChange p c value its))
  | FileChosen cid files0 =>
      user_event w cid ReportCard.FileInput
        (fun p l its => (ReportCard.handleFileUpload p files0 l, its))
  | MicSettled cid k o =>
      card_event w cid (fun l its =>
        p ← ReportCard.awaitingMic l !! k;
        Some (ReportCard.startRecording_resume p o
                (ReportCard.set_awaitingMic (delete k (ReportCard.awaitingMic l)) l) its))
  | DataAvailable cid chunk =>
      card_event w cid (fun l its =>
        _ ← ReportCard.mediaRecorderRef l;
        Some (ReportCard.ondataavailable chunk l, its))
  | StopDispatched cid =>
      card_event w cid (fun l its =>
        match ReportCard.pendingStop l with
        | p :: rest =>
            Some (ReportCard.recorder_onstop p (ReportCard.set_pendingStop rest l), its)
        | [] => None
        end)
  | ReportSettled cid k base64 response_text =>
      card_event w cid (fun l its =>
        '(p, blob) ← ReportCard.awaitingReport l !! k;
        let o := ReportCard.handleProcessing_call p blob
                   (fun _ => base64) (fun _ => response_text) in
        Some (ReportCard.set_awaitingReport (delete k (ReportCard.awaitingReport l)) l,
              ReportCard.handleProcessing_resume p o its))
  | FileSettled cid k o =>
      card_event w cid (fun l its =>
        '(p, file_name) ← ReportCard.awaitingFile l !! k;
        Some (ReportCard.set_awaitingFile (delete k (ReportCard.awaitingFile l)) l,
              ReportCard.handleFileUpload_resume p file_name o its))
  | Tick cid handle =>
      card_event w cid (fun l its =>
        if bool_decide (handle ∈ ReportCard.liveIntervals l)
        then Some (ReportCard.set_timer (S (ReportCard.timer l)) l, its)
        else None)
  | StreamEnded cid =>
      card_event w cid (fun l its => l' ← ReportCard.stream_ended l; Some (l', its))
  | OrphanStreamEnded cid k =>
      card_event w cid (fun l its => l' ← ReportCard.orphan_stream_ended k l; Some (l', its))
  end.

Definition run (w : World) (trace : list Event) : World := fold_left step trace w.

(** The page after its first render and the "Initial card" effect. *)
Definition boot (uuid : jsstring) (now : Z) : World :=
  mkWorld (App.initial_card_effect uuid now []) en {[ uuid := ReportCard.mountLocal ]}.

(** The status of card [cid], when it is in the collection. *)
Definition status_of (w : World) (cid : jsstring) : option CardStatus :=
  status <$> find_item cid (items w).

(** The edges that §4.1 of the specification enumerates. *)
Definition enumerated_edge (s s' : CardStatus) : bool :=
  match s, s' with
  | IDLE, RECORDING | IDLE, ERROR
  | RECORDING, PROCESSING
  | PROCESSING, COMPLETED | PROCESSING, ERROR
  | ERROR, IDLE
  | COMPLETED, RECORDING => true
  | _, _ => false
  end.

(** The edges the component is built to take: the controls of lines
    228-293 are rendered by status, and a completed card has no Start. *)
Definition designed_edge (s s' : CardStatus) : bool :=
  match s, s' with
  | IDLE, RECORDING | IDLE, ERROR
  | RECORDING, PROCESSING
  | PROCESSING, COMPLETED | PROCESSING, ERROR
  | ERROR, IDLE => true
  | _, _ => false
  end.

(** The edges a card takes when the stream of its recorder has ended by
    itself: [onstop] submits the recording while the card still shows
    [RECORDING], [stopRecording] not having run. *)
Definition stream_ended_edge (s s' : CardStatus) : bool :=
  match s, s' with
  | RECORDING, COMPLETED | RECORDING, ERROR => true
  | _, _ => false
  end.

(** Start is clicked on a card whose earlier [startRecording] call is still
    waiting for [getUserMedia]. *)
Definition reentrant_start (w : World) (e : Event) : bool :=
  match e with
  | Click cid ReportCard.StartButton =>
      match cards w !! cid with
      | Some l => match ReportCard.awaitingMic l with [] => false | _ :: _ => true end
      | None => false
      end
  | _ => false
  end.

(** A trace without such a click. *)
Fixpoint sequential (w : World) (trace : list Event) : bool :=
  match trace with
  | [] => true
  | e :: trace' => negb (reentrant_start w e) && sequential (step w e) trace'
  end.

(** The stream of a referenced recorder ends by itself. *)
Definition stream_end (e : Event) : bool :=
  match e with
  | StreamEnded _ => true
  | _ => false
  end.

(** A trace on which every referenced recorder records until [stop()]. *)
Definition no_stream_ends (trace : list Event) : bool :=
  forallb (fun e => negb (stream_end e)) trace.

(** ** Invariants of the page *)

(** Every closure that a component keeps -- its suspended calls, its queued
    stop events, the [onstop] of its recorders -- was made by a render of
    the card under the same key. *)
Definition closures_ok (cid : jsstring) (l : ReportCard.Local) : Prop :=
  Forall (fun p => id (ReportCard.item p) = cid) (ReportCard.awaitingMic l)
  /\ Forall (fun p => id (ReportCard.item p) = cid) (ReportCard.pendingStop l)
  /\ Forall (fun pb => id (ReportCard.item (fst pb)) = cid) (ReportCard.awaitingReport l)
  /\ Forall (fun pf => id (ReportCard.item (fst pf)) = cid) (ReportCard.awaitingFile l)
  /\ (forall r, ReportCard.mediaRecorderRef l = Some r ->
        id (ReportCard.item (ReportCard.onstop r)) = cid)
  /\ Forall (fun p => id (ReportCard.item p) = cid) (ReportCard.orphans l).

(** [Inv phase]: closures belong to their card, and every rendered card has
    a component whose state is in the [phase] of the status of the card. *)
Definition Inv (phase : CardStatus -> ReportCard.Local -> Prop) (w : World) : Prop :=
  map_Forall closures_ok (cards w)
  /\ (forall cid it, find_item cid (items w) = Some it ->
        exists l, cards w !! cid = Some l /\ phase (status it) l).

(** A card that shows [RECORDING] has a recorder that records. *)
Definition recorder_runs (s : CardStatus) (l : ReportCard.Local) : Prop :=
  s = RECORDING -> ReportCard.ref_is_recording l = true.

(** One submission is on its way: a stop event is queued, or
    [handleProcessing] is at its [await]. *)
Definition one_submission (l : ReportCard.Local) : Prop :=
  length (ReportCard.pendingStop l) + length (ReportCard.awaitingReport l) = 1.

Definition no_submission (l : ReportCard.Local) : Prop :=
  ReportCard.pendingStop l = [] /\ ReportCard.awaitingReport l = [].

(** What is in flight in each status, when Start is never re-entered.  A
    card that shows [RECORDING] has a recorder that records and no
    submission, or, once the stream of its recorder has ended by itself, a
    recorder that is inactive and one submission. *)
Definition phase_ok (s : CardStatus) (l : ReportCard.Local) : Prop :=
  ReportCard.orphans l = []
  /\ match s with
     | IDLE =>
         length (ReportCard.awaitingMic l) <= 1
         /\ ReportCard.ref_is_recording l = false /\ no_submission l
     | RECORDING =>
         ReportCard.awaitingMic l = []
         /\ if ReportCard.ref_is_recording l then no_submission l else one_submission l
     | PROCESSING =>
         ReportCard.awaitingMic l = []
         /\ ReportCard.ref_is_recording l = false /\ one_submission l
     | COMPLETED | ERROR =>
         ReportCard.awaitingMic l = []
         /\ ReportCard.ref_is_recording l = false /\ no_submission l
     end.

(** Two component states that differ in nothing a status depends on. *)
Definition same_flight (l l' : ReportCard.Local) : Prop :=
  ReportCard.awaitingMic l' = ReportCard.awaitingMic l
  /\ ReportCard.pendingStop l' = ReportCard.pendingStop l
  /\ ReportCard.awaitingReport l' = ReportCard.awaitingReport l
  /\ ReportCard.ref_is_recording l' = ReportCard.ref_is_recording l
  /\ ReportCard.orphans l' = ReportCard.orphans l.

(** ** What the events of a card may touch *)

(** The card an event belongs to: the key of the component that handles
    it, or the id that [addNewCard] gives the new item. *)
Definition target (e : Event) : option jsstring :=
  match e with
  | NewSpeaker uuid _ => Some uuid
  | SetLanguage _ => None
  | Click cid _ | Input cid _ _ | FileChosen cid _ | MicSettled cid _ _
  | DataAvailable cid _ | StopDispatched cid | ReportSettled cid _ _ _
  | FileSettled cid _ _ | Tick cid _ | StreamEnded cid | OrphanStreamEnded cid _ => Some cid
  end.

(** The object literals that the component hands to [onUpdate], with what
    [generateReportFromAudio] guarantees of the text and of the message;
    [no_updates] stands for a handler that makes no call. *)
Inductive handler_write : PartialItem -> Prop :=
| write_nothing : handler_write no_updates
| write_recording :
    handler_write (mkPartial None None (Some RECORDING) None None None None None None)
| write_mic_denied :
    handler_write (mkPartial None None (Some ERROR) None None None
                     (Some (Some (lit "Mic access denied"))) None None)
| write_processing (t : nat) :
    handler_write (mkPartial None None (Some PROCESSING) None None (Some t) None None None)
| write_completed (t : jsstring) :
    t <> [] ->
    handler_write (mkPartial None None (Some COMPLETED) (Some t) None None None None None)
| write_failed (m : jsstring) :
    m <> [] ->
    handler_write (mkPartial None None (Some ERROR) None None None (Some (Some m)) None None)
| write_contextFile (f : option ContextFile) :
    handler_write (mkPartial None None None None None None None None (Some f))
| write_speakerName (v : jsstring) :
    handler_write (mkPartial None (Some v) None None None None None None None)
| write_contextText (v : jsstring) :
    handler_write (mkPartial None None None None None None None (Some (Some v)) None)
| write_text (v : jsstring) :
    handler_write (mkPartial None None None (Some v) None None None None None)
| write_reset :
    handler_write (mkPartial None None (Some IDLE) None None None (Some None) None None).

(** [{ ...u1, ...u2 }] on two partial items: a key of [u2] wins. *)
Definition assign (u1 u2 : PartialItem) : PartialItem :=
  {| u_id := match u_id u2 with Some v => Some v | None => u_id u1 end;
     u_speakerName :=
       match u_speakerName u2 with Some v => Some v | None => u_speakerName u1 end;
     u_status := match u_status u2 with Some v => Some v | None => u_status u1 end;
     u_text := match u_text u2 with Some v => Some v | None => u_text u1 end;
     u_timestamp := match u_timestamp u2 with Some v => Some v | None => u_timestamp u1 end;
     u_durationSeconds :=
       match u_durationSeconds u2 with Some v => Some v | None => u_durationSeconds u1 end;
     u_error := match u_error u2 with Some v => Some v | None => u_error u1 end;
     u_contextText :=
       match u_contextText u2 with Some v => Some v | None => u_contextText u1 end;
     u_contextFile :=
       match u_contextFile u2 with Some v => Some v | None => u_contextFile u1 end |}.

(** [error] is a non-empty message on a card in [ERROR] and is absent on
    any other card. *)
Definition error_ok (it : ReportItem) : Prop :=
  (status it = ERROR -> exists m, error it = Some m /\ m <> [])
  /\ (status it <> ERROR -> error it = None).

(** The interval of the elapsed-time counter runs on a recording card, and
    on no other. *)
Definition intervals_ok (s : CardStatus) (l : ReportCard.Local) : Prop :=
  match s with
  | RECORDING =>
      exists h, ReportCard.timerIntervalRef l = Some h
                /\ ReportCard.liveIntervals l = [h]
  | _ => ReportCard.liveIntervals l = []
  end.

(** ** What the selected language can reach *)

Definition start_click (e : Event) : bool :=
  match e with
  | Click _ ReportCard.StartButton => true
  | _ => false
  end.

(** A trace on which no recording is started. *)
Definition no_start (trace : list Event) : bool :=
  forallb (fun e => negb (start_click e)) trace.

(** The page without the selected language and without the language that
    the file reads under way closed over, which [handleFileUpload] never
    reads. *)
Definition forget_language_of (pf : ReportCard.Props * jsstring)
    : ReportCard.Props * jsstring :=
  (ReportCard.mkProps (ReportCard.item (fst pf)) en, snd pf).

Definition forget_local (l : ReportCard.Local) : ReportCard.Local :=
  ReportCard.set_awaitingFile (map forget_language_of (ReportCard.awaitingFile l)) l.

Definition forget_language (w : World) : World :=
  mkWorld (items w) en (forget_local <$> cards w).

(** A handler of a control that does the same with and without the language. *)
Definition blind (h : ReportCard.Props -> ReportCard.Local -> list ReportItem ->
                      ReportCard.Local * list ReportItem) : Prop :=
  forall it lang l its,
    forget_local (fst (h (ReportCard.mkProps it en) (forget_local l) its))
    = forget_local (fst (h (ReportCard.mkProps it lang) l its))
    /\ snd (h (ReportCard.mkProps it en) (forget_local l) its)
       = snd (h (ReportCard.mkProps it lang) l its).

(** A handler of an event of the browser that does the same with and without
    the language. *)
Definition blind_event (h : ReportCard.Local -> list ReportItem ->
                            option (ReportCard.Local * list ReportItem)) : Prop :=
  forall l its,
    (fun x => (forget_local (fst x), snd x)) <$> h (forget_local l) its
    = (fun x => (forget_local (fst x), snd x)) <$> h l its.

(** * Properties *)

(** ** Strings *)

(** [`${n}`] is the decimal numeral of [n]: its digits denote [n], and it
    has no leading zero unless [n] is zero. *)
Lemma decimal_value_from_of_uint (u : Decimal.uint) (acc : nat) :
  decimal_value_from acc (lit (NilEmpty.string_of_uint u)) = Some (Nat.of_uint_acc u acc).
Proof.
  revert acc.
  induction u as [|u IH|u IH|u IH|u IH|u IH|u IH|u IH|u IH|u IH|u IH]; intros acc;
    cbn [NilEmpty.string_of_uint lit decimal_value_from Nat.of_uint_acc];
    [reflexivity | ..];
    match goal with
    | |- context [digit_value ?c] =>
        let v := eval vm_compute in (digit_value c) in change (digit_value c) with v
    end;
    cbv iota beta; rewrite IH, Nat.tail_mul_spec; do 2 f_equal; lia.
Qed.

Lemma to_uint_canonical (n : nat) : Decimal.unorm (Nat.to_uint n) = Nat.to_uint n.
Proof. rewrite <- Unsigned.to_of, Unsigned.of_to. reflexivity. Qed.

Lemma to_uint_no_leading_zero (n : nat) (u : Decimal.uint) :
  Nat.to_uint n = Decimal.D0 u -> n = 0.
Proof.
  intros H. pose proof (to_uint_canonical n) as Hc. rewrite H, DecimalFacts.unorm_D0 in Hc.
  assert (Hd : u = Decimal.Nil \/ u <> Decimal.Nil)
    by (destruct u; [left; reflexivity | right; discriminate ..]).
  destruct Hd as [->|Hne].
  - rewrite <- (Unsigned.of_to n), H. reflexivity.
  - pose proof (DecimalFacts.nb_digits_unorm u Hne) as Hle. rewrite Hc in Hle. simpl in Hle. lia.
Qed.

Lemma number_toString_decimal (n : nat) :
  decimal_value (number_toString n) = Some n
  /\ (n <> 0 -> head (number_toString n) <> Some 48%N).
Proof.
  unfold number_toString. split.
  - pose proof (decimal_value_from_of_uint (Nat.to_uint n) 0) as H.
    change (Nat.of_uint_acc (Nat.to_uint n) 0) with (Nat.of_uint (Nat.to_uint n)) in H.
    rewrite Unsigned.of_to in H.
    destruct (Nat.to_uint n) as [|u|u|u|u|u|u|u|u|u|u] eqn:Hu;
      [ exfalso; apply (DecimalFacts.unorm_nonnil (Nat.to_uint n)); rewrite to_uint_canonical; exact Hu
      | exact H .. ].
  - intros Hn. destruct (Nat.to_uint n) as [|u|u|u|u|u|u|u|u|u|u] eqn:Hu;
      cbn [NilEmpty.string_of_uint lit head]; try discriminate.
    exfalso. exact (Hn (to_uint_no_leading_zero n u Hu)).
Qed.

Lemma trimStart_nil (s : jsstring) :
  trimStart s = [] <-> Forall (fun c => isWhiteSpace c = true) s.
Proof.
  induction s as [|c s IH]; simpl.
  - split; [constructor | reflexivity].
  - destruct (isWhiteSpace c) eqn:Hc.
    + rewrite IH. split.
      * intros H. constructor; assumption.
      * intros H. inversion H; assumption.
    + split; [discriminate |].
      intros H. inversion H as [|? ? Hc' _]. congruence.
Qed.

Lemma trimStart_blank_suffix (s : jsstring) :
  Forall (fun c => isWhiteSpace c = true) (trimStart s) ->
  Forall (fun c => isWhiteSpace c = true) s.
Proof.
  induction s as [|c s IH]; simpl; [constructor |].
  destruct (isWhiteSpace c) eqn:Hc.
  - intros H. constructor; auto.
  - intros H. inversion H; congruence.
Qed.

Lemma trimStart_keeps_blank (s : jsstring) :
  Forall (fun c => isWhiteSpace c = true) s ->
  Forall (fun c => isWhiteSpace c = true) (trimStart s).
Proof. intros H. apply trimStart_nil in H. rewrite H. constructor. Qed.

Lemma trim_nil (s : jsstring) :
  trim s = [] <-> Forall (fun c => isWhiteSpace c = true) s.
Proof.
  unfold trim, trimEnd. split.
  - intros H.
    assert (Hr : trimStart (rev (trimStart s)) = []).
    { apply (f_equal (@rev N)) in H. rewrite rev_involutive in H. exact H. }
    apply trimStart_nil in Hr. apply trimStart_blank_suffix.
    apply Forall_rev in Hr. rewrite rev_involutive in Hr. exact Hr.
  - intros H. apply trimStart_nil in H. rewrite H. reflexivity.
Qed.

(** [contextText && contextText.trim().length > 0] holds exactly of a
    string that has a code unit outside the white space set. *)
Lemma hasContextText_spec (ct : option jsstring) :
  geminiService.hasContextText ct = true
  <-> exists s, ct = Some s /\ exists c, c ∈ s /\ isWhiteSpace c = false.
Proof.
  assert (Hlen : forall s : jsstring,
             (0 <? length (trim s))%nat = true
             <-> exists c, c ∈ s /\ isWhiteSpace c = false).
  { intros s. rewrite Nat.ltb_lt. split.
    - intros Hpos.
      destruct (decide (Forall (fun c => isWhiteSpace c = true) s)) as [Hall|Hnot].
      + apply trim_nil in Hall. rewrite Hall in Hpos. simpl in Hpos. lia.
      + apply not_Forall_Exists in Hnot; [|intros c; apply _].
        apply Exists_exists in Hnot as (c & Hin & Hc).
        exists c. split; [exact Hin | apply not_true_is_false; exact Hc].
    - intros (c & Hin & Hc).
      destruct (trim s) as [|c' t] eqn:Ht; [|simpl; lia].
      apply trim_nil in Ht. rewrite Forall_forall in Ht.
      specialize (Ht c Hin). congruence. }
  destruct ct as [[|c s]|]; simpl.
  - split; [discriminate |]. intros (s & Hs & c & Hin & _).
    injection Hs as <-. inversion Hin.
  - rewrite (Hlen (c :: s)). split.
    + intros H. exists (c :: s). split; [reflexivity | exact H].
    + intros (s' & Hs & H). injection Hs as <-. exact H.
  - split; [discriminate |]. intros (s & Hs & _). discriminate.
Qed.

(** ** The request *)

Lemma contextTextPart_not_caption (s : jsstring) (f : ContextFile) :
  geminiService.contextTextPart s
  <> geminiService.textPart
       (lit "[SYSTEM] Above is the attached existing context file (" ++ name f ++ lit ").").
Proof. unfold geminiService.contextTextPart. simpl. intros H. discriminate H. Qed.

Lemma contextTextPart_not_final (s : jsstring) (lang : TargetLanguage) :
  geminiService.contextTextPart s <> geminiService.finalPrompt lang.
Proof.
  unfold geminiService.contextTextPart, geminiService.finalPrompt. simpl.
  intros H. discriminate H.
Qed.

Lemma contextTextParts_spec (ct : option jsstring) :
  geminiService.contextTextParts ct
  = match ct with
    | Some s => if geminiService.hasContextText ct
                then [geminiService.contextTextPart s] else []
    | None => []
    end.
Proof. reflexivity. Qed.

(** [generateReportFromAudio] puts the context-text part into the request
    exactly when its [contextText] argument is given and has a code unit
    that is not white space; the part quotes the argument as it is, not
    trimmed; an argument of white space only gives the same parts as no
    argument. *)
Theorem context_text_part_iff_nonblank
    (base64Audio mime : jsstring) (lang : TargetLanguage)
    (ct : option jsstring) (cf : option ContextFile) :
  let ps := geminiService.buildParts base64Audio mime lang ct cf in
  let quoting (s : jsstring) :=
    geminiService.textPart
      (lit "[SYSTEM] EXISTING CONTEXT / CURRENT STATUS:" ++ [10; 34]%N ++ s
       ++ [34; 10; 10]%N
       ++ lit "(Do not repeat this information in the output unless it is being corrected/updated).") in
  ((exists s, quoting s ∈ ps)
   <-> (exists s, ct = Some s /\ exists c, c ∈ s /\ isWhiteSpace c = false))
  /\ (forall s, ct = Some s -> geminiService.hasContextText ct = true -> quoting s ∈ ps)
  /\ ((forall s, ct = Some s -> Forall (fun c => isWhiteSpace c = true) s) ->
        ps = geminiService.buildParts base64Audio mime lang None cf)
  /\ (forall (blobToBase64 : Blob -> geminiService.Outcome jsstring) blob req,
        geminiService.requestSent blobToBase64 blob mime lang ct cf = Some req ->
        exists b64, blobToBase64 blob = geminiService.resolved b64
                    /\ geminiService.parts req
                       = geminiService.buildParts b64 mime lang ct cf).
Proof.
  intros ps quoting.
  assert (Hq : quoting = geminiService.contextTextPart) by reflexivity.
  clearbody quoting. subst quoting ps.
  unfold geminiService.buildParts. repeat split.
  - intros (s & Hin). rewrite <- hasContextText_spec.
    rewrite !elem_of_app in Hin. destruct Hin as [Hin|[Hin|[Hin|Hin]]].
    + destruct cf as [f|]; simpl in Hin; [|inversion Hin].
      apply elem_of_cons in Hin as [Hin|Hin]; [discriminate Hin |].
      apply list_elem_of_singleton in Hin.
      exfalso. exact (contextTextPart_not_caption s f Hin).
    + rewrite contextTextParts_spec in Hin.
      destruct ct as [s'|]; [|inversion Hin].
      destruct (geminiService.hasContextText (Some s')); [reflexivity | inversion Hin].
    + apply list_elem_of_singleton in Hin. discriminate Hin.
    + apply list_elem_of_singleton in Hin.
      exfalso. exact (contextTextPart_not_final s lang Hin).
  - intros H. pose proof H as (s & -> & _). apply hasContextText_spec in H.
    exists s. rewrite !elem_of_app. right. left.
    rewrite contextTextParts_spec, H. apply list_elem_of_singleton. reflexivity.
  - intros s -> H. rewrite !elem_of_app. right. left.
    rewrite contextTextParts_spec, H. apply list_elem_of_singleton. reflexivity.
  - intros Hblank. f_equal. f_equal. rewrite contextTextParts_spec.
    destruct ct as [s|]; [|reflexivity].
    destruct (geminiService.hasContextText (Some s)) eqn:Hh; [|reflexivity].
    apply hasContextText_spec in Hh as (s' & Hs & c & Hin & Hc).
    injection Hs as <-. specialize (Hblank s eq_refl).
    rewrite Forall_forall in Hblank. specialize (Hblank c Hin). congruence.
  - intros blobToBase64 blob req. unfold geminiService.requestSent.
    destruct (blobToBase64 blob) as [b64|e]; [|discriminate].
    intros [= <-]. exists b64. split; reflexivity.
Qed.

(** When the payload encodes, [generateReportFromAudio] makes the remote
    call once, with a request whose parts are, in this order: the context
    file when one is given (its inline data comes first, followed by the
    caption that names it), then the quoted context text when it is not
    blank, then the encoded audio, next to last, and last the closing
    instruction, which names the target language. *)
Theorem request_parts_in_order
    (blobToBase64 : Blob -> geminiService.Outcome jsstring)
    (generateContent : geminiService.Request -> geminiService.Outcome (option jsstring))
    (audioBlob : Blob) (mime : jsstring) (lang : TargetLanguage)
    (ct : option jsstring) (cf : option ContextFile) (base64Audio : jsstring) :
  blobToBase64 audioBlob = geminiService.resolved base64Audio ->
  let quoting (s : jsstring) :=
    geminiService.textPart
      (lit "[SYSTEM] EXISTING CONTEXT / CURRENT STATUS:" ++ [10; 34]%N ++ s
       ++ [34; 10; 10]%N
       ++ lit "(Do not repeat this information in the output unless it is being corrected/updated).") in
  let closing :=
    geminiService.textPart
      (lit "Analyze the audio. Extract ONLY new info, changes, or Q&A relative to the context above. Output in "
       ++ match lang with en => lit "English" | de => lit "German" end
       ++ lit " bullet points.") in
  let nonblank (s : jsstring) := exists c, c ∈ s /\ isWhiteSpace c = false in
  exists req,
    geminiService.requestSent blobToBase64 audioBlob mime lang ct cf = Some req
    /\ geminiService.generateReportFromAudio blobToBase64 generateContent
         audioBlob mime lang ct cf
       = match generateContent req with
         | geminiService.rejected e => geminiService.rejected (geminiService.rethrow e)
         | geminiService.resolved t =>
             geminiService.resolved
               (geminiService.or_else t (geminiService.emptyFallback lang))
         end
    /\ (exists file_group text_group,
          geminiService.parts req
          = file_group ++ text_group
            ++ [geminiService.inlineData mime base64Audio; closing]
          /\ file_group
             = match cf with
               | Some f =>
                   [ geminiService.inlineData (mimeType f) (data f);
                     geminiService.textPart
                       (lit "[SYSTEM] Above is the attached existing context file ("
                        ++ name f ++ lit ").") ]
               | None => []
               end
          /\ (forall s, ct = Some s -> nonblank s -> text_group = [quoting s])
          /\ ((forall s, ct = Some s -> ~ nonblank s) -> text_group = []))
    /\ (forall f, cf = Some f ->
          head (geminiService.parts req)
          = Some (geminiService.inlineData (mimeType f) (data f)))
    /\ (forall s, ct = Some s -> nonblank s ->
          geminiService.parts req !! (match cf with Some _ => 2 | None => 0 end)%nat
          = Some (quoting s))
    /\ geminiService.parts req !! (length (geminiService.parts req) - 2)%nat
       = Some (geminiService.inlineData mime base64Audio)
    /\ last (geminiService.parts req) = Some closing.
Proof.
  intros Hb quoting closing nonblank.
  assert (Hq : quoting = geminiService.contextTextPart) by reflexivity.
  assert (Hc : closing = geminiService.finalPrompt lang) by reflexivity.
  clearbody quoting closing. subst quoting closing.
  assert (Hnb : forall s, nonblank s <-> geminiService.hasContextText (Some s) = true).
  { intros s. rewrite hasContextText_spec. split.
    - intros H. exists s. split; [reflexivity | exact H].
    - intros (s' & [= <-] & H). exact H. }
  unfold geminiService.requestSent, geminiService.generateReportFromAudio.
  rewrite Hb. eexists. split; [reflexivity |]. split; [reflexivity |].
  cbn [geminiService.parts]. unfold geminiService.buildParts.
  rewrite contextTextParts_spec. unfold geminiService.contextFileParts.
  split; [|split; [|split; [|split]]].
  - eexists _, _. split; [reflexivity |]. split; [reflexivity |]. split.
    + intros s -> Hs. apply Hnb in Hs. rewrite Hs. reflexivity.
    + intros Hblank. destruct ct as [s|]; [|reflexivity].
      destruct (geminiService.hasContextText (Some s)) eqn:Hh; [|reflexivity].
      exfalso. apply (Hblank s eq_refl). apply Hnb. exact Hh.
  - intros f ->. reflexivity.
  - intros s -> Hs. apply Hnb in Hs. rewrite Hs. destruct cf; reflexivity.
  - destruct cf, ct as [s|]; try destruct (geminiService.hasContextText (Some s));
      reflexivity.
  - rewrite !app_assoc. apply last_snoc.
Qed.

Lemma request_parts_in_order_witness :
  exists req,
    geminiService.requestSent (fun _ => geminiService.resolved (lit "QUJD"))
      (mkBlob [65; 66; 67]%N (lit "audio/webm")) (lit "audio/webm") de
      (Some (lit "Already deployed v1"))
      (Some (mkContextFile (lit "plan.pdf") (lit "application/pdf") (lit "JVBERi0="))) = Some req
    /\ length (geminiService.parts req) = 5%nat.
Proof.
  destruct (request_parts_in_order
              (fun _ => geminiService.resolved (lit "QUJD"))
              (fun _ => geminiService.resolved None)
              (mkBlob [65; 66; 67]%N (lit "audio/webm")) (lit "audio/webm") de
              (Some (lit "Already deployed v1"))
              (Some (mkContextFile (lit "plan.pdf") (lit "application/pdf") (lit "JVBERi0=")))
              (lit "QUJD") eq_refl) as (req & Hsent & _ & (fg & tg & Hparts & Hfg & Htg & _) & _).
  exists req. split; [exact Hsent |]. rewrite Hparts, Hfg, (Htg _ eq_refl).
  - reflexivity.
  - exists 65%N. split; [|reflexivity]. simpl. left.
Defined.

(** ** The collection *)

Lemma updateItem_length (id0 : jsstring) (u : PartialItem) (its : list ReportItem) :
  length (App.updateItem id0 u its) = length its.
Proof. unfold App.updateItem. apply length_map. Qed.

Lemma updateItem_lookup (id0 : jsstring) (u : PartialItem) (its : list ReportItem) (i : nat) :
  App.updateItem id0 u its !! i
  = (fun it => if bool_decide (id it = id0) then App.spread it u else it) <$> its !! i.
Proof. unfold App.updateItem. apply list_lookup_fmap. Qed.

Lemma updateItem_absent (id0 : jsstring) (u : PartialItem) (its : list ReportItem) :
  (forall it, it ∈ its -> id it <> id0) -> App.updateItem id0 u its = its.
Proof.
  intros Habs. unfold App.updateItem.
  induction its as [|it its IH]; simpl; [reflexivity |].
  rewrite bool_decide_eq_false_2 by (apply Habs; left).
  f_equal. apply IH. intros it' Hin. apply Habs. right. exact Hin.
Qed.

Lemma spread_id (it : ReportItem) (u : PartialItem) :
  u_id u = None -> id (App.spread it u) = id it.
Proof. intros H. unfold App.spread. simpl. rewrite H. reflexivity. Qed.

Lemma spread_no_updates (it : ReportItem) : App.spread it no_updates = it.
Proof. destruct it; reflexivity. Qed.

Lemma updateItem_no_updates (id0 : jsstring) (its : list ReportItem) :
  App.updateItem id0 no_updates its = its.
Proof.
  unfold App.updateItem. induction its as [|it its IH]; simpl; [reflexivity |].
  rewrite spread_no_updates, IH. destruct (bool_decide _); reflexivity.
Qed.

(** Two updates of the same card, the first of which keeps the id. *)
Lemma updateItem_twice (id0 : jsstring) (u1 u2 u : PartialItem) (its : list ReportItem) :
  u_id u1 = None ->
  (forall it, App.spread (App.spread it u1) u2 = App.spread it u) ->
  App.updateItem id0 u2 (App.updateItem id0 u1 its) = App.updateItem id0 u its.
Proof.
  intros Hid Hsp. unfold App.updateItem. rewrite map_map. apply map_ext.
  intros it. destruct (bool_decide (id it = id0)) eqn:Hb.
  - rewrite spread_id by exact Hid. rewrite Hb. apply Hsp.
  - rewrite Hb. reflexivity.
Qed.

Lemma find_item_Some (cid : jsstring) (its : list ReportItem) (it : ReportItem) :
  find_item cid its = Some it -> it ∈ its /\ id it = cid.
Proof.
  unfold find_item. intros H. apply find_some in H as [Hin Hb].
  split; [apply list_elem_of_In; exact Hin | exact (bool_decide_eq_true_1 _ Hb)].
Qed.

Lemma find_item_None (cid : jsstring) (its : list ReportItem) :
  find_item cid its = None <-> forall it, it ∈ its -> id it <> cid.
Proof.
  unfold find_item. split.
  - intros H it Hin Heq. apply list_elem_of_In in Hin.
    pose proof (find_none _ _ H it Hin) as Hb. simpl in Hb.
    rewrite bool_decide_eq_true_2 in Hb by exact Heq. discriminate.
  - intros H. induction its as [|it its IH]; simpl; [reflexivity |].
    rewrite bool_decide_eq_false_2 by (apply H; left).
    apply IH. intros it' Hin. apply H. right. exact Hin.
Qed.

(** The card rendered under a key after an update that keeps ids. *)
Lemma find_item_updateItem (cid id0 : jsstring) (u : PartialItem) (its : list ReportItem) :
  u_id u = None ->
  find_item cid (App.updateItem id0 u its)
  = (fun it => if bool_decide (cid = id0) then App.spread it u else it)
      <$> find_item cid its.
Proof.
  intros Hid. unfold find_item, App.updateItem.
  induction its as [|it its IH]; simpl; [reflexivity |].
  destruct (bool_decide (id it = id0)) eqn:Hb.
  - rewrite spread_id by exact Hid.
    destruct (bool_decide (id it = cid)) eqn:Hc; [|exact IH].
    apply bool_decide_eq_true_1 in Hb, Hc. simpl.
    rewrite bool_decide_eq_true_2 by congruence. reflexivity.
  - destruct (bool_decide (id it = cid)) eqn:Hc; [|exact IH].
    apply bool_decide_eq_false_1 in Hb. apply bool_decide_eq_true_1 in Hc. simpl.
    rewrite bool_decide_eq_false_2 by congruence. reflexivity.
Qed.

Lemma find_item_deleteItem (cid id0 : jsstring) (its : list ReportItem) :
  find_item cid (App.deleteItem id0 its)
  = if bool_decide (cid = id0) then None else find_item cid its.
Proof.
  unfold find_item, App.deleteItem.
  induction its as [|it its IH]; simpl; [destruct (bool_decide _); reflexivity |].
  destruct (bool_decide (id it = id0)) eqn:Hb; simpl.
  - rewrite IH. destruct (bool_decide (cid = id0)) eqn:Hc; [reflexivity |].
    apply bool_decide_eq_true_1 in Hb. apply bool_decide_eq_false_1 in Hc.
    rewrite bool_decide_eq_false_2 by congruence. reflexivity.
  - destruct (bool_decide (id it = cid)) eqn:Hc.
    + apply bool_decide_eq_false_1 in Hb. apply bool_decide_eq_true_1 in Hc.
      rewrite bool_decide_eq_false_2 by congruence. reflexivity.
    + exact IH.
Qed.

Lemma find_item_snoc (cid : jsstring) (its : list ReportItem) (x : ReportItem) :
  find_item cid (its ++ [x])
  = match find_item cid its with
    | Some it => Some it
    | None => if bool_decide (id x = cid) then Some x else None
    end.
Proof.
  unfold find_item. induction its as [|it its IH]; simpl; [reflexivity |].
  destruct (bool_decide (id it = cid)); [reflexivity | exact IH].
Qed.

Lemma find_item_addNewCard (cid uuid : jsstring) (now : Z) (its : list ReportItem) :
  find_item uuid its = None ->
  find_item cid (App.addNewCard uuid now its)
  = if bool_decide (cid = uuid)
    then last (App.addNewCard uuid now its)
    else find_item cid its.
Proof.
  intros Hfresh. unfold App.addNewCard. cbv zeta.
  rewrite last_snoc, find_item_snoc. simpl.
  destruct (bool_decide (cid = uuid)) eqn:Hc.
  - apply bool_decide_eq_true_1 in Hc. subst cid. rewrite Hfresh.
    rewrite bool_decide_eq_true_2 by reflexivity. reflexivity.
  - apply bool_decide_eq_false_1 in Hc.
    rewrite bool_decide_eq_false_2 by congruence.
    destruct (find_item cid its); reflexivity.
Qed.

(** What one event can do to the collection: nothing, one [onUpdate] that
    keeps ids, one [onDelete], or the append of [addNewCard]. *)
Lemma step_items_cases (w : World) (e : Event) :
  items (step w e) = items w
  \/ (exists id0 u, u_id u = None /\ items (step w e) = App.updateItem id0 u (items w))
  \/ (exists id0, items (step w e) = App.deleteItem id0 (items w))
  \/ (exists uuid now, e = NewSpeaker uuid now
        /\ items (step w e) = App.addNewCard uuid now (items w)).
Proof.
  destruct e as [uuid now|lang|cid c|cid c v|cid f|cid k o|cid ch|cid|cid k b r|cid k o|cid h|cid|cid k];
    simpl; unfold user_event, card_event.
  - destruct (_ && _); simpl; [right; right; right; eauto | left; reflexivity].
  - left; reflexivity.
  - destruct (find_item cid (items w)) as [it|]; [|left; reflexivity].
    destruct (cards w !! cid) as [l|]; [|left; reflexivity].
    destruct (ReportCard.rendered _ l c); [|left; reflexivity].
    destruct c; simpl; try (left; reflexivity);
      try (right; left; eexists _, _; split; [|reflexivity]; reflexivity).
    + right; right; left. eexists. reflexivity.
    + unfold ReportCard.stopRecording. destruct (ReportCard.ref_is_recording l); simpl;
        [right; left; eexists _, _; split; [|reflexivity]; reflexivity | left; reflexivity].
  - destruct (find_item cid (items w)) as [it|]; [|left; reflexivity].
    destruct (cards w !! cid) as [l|]; [|left; reflexivity].
    destruct (ReportCard.rendered _ l c); [|left; reflexivity].
    destruct c; simpl; try (left; reflexivity);
      right; left; eexists _, _; (split; [|reflexivity]); reflexivity.
  - destruct (find_item cid (items w)) as [it|]; [|left; reflexivity].
    destruct (cards w !! cid) as [l|]; [|left; reflexivity].
    destruct (ReportCard.rendered _ l _); left; reflexivity.
  - destruct (cards w !! cid) as [l|]; [|left; reflexivity].
    destruct (ReportCard.awaitingMic l !! k) as [p|]; simpl; [|left; reflexivity].
    destruct o; simpl; right; left; eexists _, _; (split; [|reflexivity]); reflexivity.
  - destruct (cards w !! cid) as [l|]; [|left; reflexivity].
    destruct (ReportCard.mediaRecorderRef l); simpl; left; reflexivity.
  - destruct (cards w !! cid) as [l|]; [|left; reflexivity].
    destruct (ReportCard.pendingStop l); simpl; left; reflexivity.
  - destruct (cards w !! cid) as [l|]; [|left; reflexivity].
    destruct (ReportCard.awaitingReport l !! k) as [[p blob]|]; simpl; [|left; reflexivity].
    destruct (ReportCard.handleProcessing_call _ _ _ _) as [t|[v|m]]; simpl;
      [ | left; reflexivity | ];
      right; left; eexists _, _; (split; [|reflexivity]); reflexivity.
  - destruct (cards w !! cid) as [l|]; [|left; reflexivity].
    destruct (ReportCard.awaitingFile l !! k) as [[p fname]|]; simpl; [|left; reflexivity].
    destruct o as [[b m]|e]; simpl;
      [right; left; eexists _, _; (split; [|reflexivity]); reflexivity | left; reflexivity].
  - destruct (cards w !! cid) as [l|]; [|left; reflexivity].
    destruct (bool_decide _); simpl; left; reflexivity.
  - destruct (cards w !! cid) as [l|]; [|left; reflexivity].
    destruct (ReportCard.stream_ended l); simpl; left; reflexivity.
  - destruct (cards w !! cid) as [l|]; [|left; reflexivity].
    destruct (ReportCard.orphan_stream_ended k l); simpl; left; reflexivity.
Qed.

Lemma deleteItem_length (id0 : jsstring) (its : list ReportItem) :
  length (App.deleteItem id0 its) <= length its.
Proof. unfold App.deleteItem. apply filter_length_le. Qed.

(** C7: [addNewCard] appends one [IDLE] item named "Speaker N", N being the
    decimal numeral of its 1-based position (the digits denote the
    position and do not start with a zero); the initial effect calls it on
    the empty collection of the first render, and does nothing on any other
    collection, so the page boots with exactly "Speaker 1"; and no event
    other than the explicit "New Speaker" action ever adds an item. *)
Theorem C7_addNewCard_appends_idle_speaker_n
    (uuid : jsstring) (now : Z) (prev : list ReportItem) :
  (exists newItem numeral,
      App.addNewCard uuid now prev = prev ++ [newItem]
      /\ App.addNewCard uuid now prev !! length prev = Some newItem
      /\ length (App.addNewCard uuid now prev) = S (length prev)
      /\ id newItem = uuid
      /\ status newItem = IDLE
      /\ speakerName newItem = lit "Speaker " ++ numeral
      /\ decimal_value numeral = Some (S (length prev))
      /\ head numeral <> Some 48%N
      /\ text newItem = [] /\ timestamp newItem = now /\ durationSeconds newItem = 0
      /\ error newItem = None /\ contextText newItem = None
      /\ contextFile newItem = None)
  /\ (forall x : ReportItem,
        speakerName <$> last (App.addNewCard uuid now [x]) = Some (lit "Speaker 2")
        /\ speakerName <$> last (App.addNewCard uuid now (replicate 9 x))
           = Some (lit "Speaker 10")
        /\ speakerName <$> last (App.addNewCard uuid now (replicate 11 x))
           = Some (lit "Speaker 12"))
  /\ App.initial_card_effect uuid now [] = App.addNewCard uuid now []
  /\ (forall x its, App.initial_card_effect uuid now (x :: its) = x :: its)
  /\ (exists first,
        items (boot uuid now) = [first]
        /\ status first = IDLE /\ speakerName first = lit "Speaker 1")
  /\ (forall w e, (forall u n, e <> NewSpeaker u n) ->
        length (items (step w e)) <= length (items w)).
Proof.
  split; [|split; [|split; [|split; [|split]]]].
  - destruct (number_toString_decimal (S (length prev))) as [Hval Hhead].
    eexists _, (number_toString (S (length prev))). split; [reflexivity |]. split.
    + unfold App.addNewCard. cbv zeta. rewrite lookup_app_r by lia.
      rewrite Nat.sub_diag. reflexivity.
    + split; [unfold App.addNewCard; rewrite length_app; simpl; lia |].
      cbn [id status speakerName text timestamp durationSeconds error contextText
             contextFile].
      rewrite Nat.add_1_r.
      repeat split; first [reflexivity | exact Hval | apply Hhead; discriminate].
  - intros x. repeat split; reflexivity.
  - reflexivity.
  - reflexivity.
  - eexists. split; [reflexivity |]. split; reflexivity.
  - intros w e Hne.
    destruct (step_items_cases w e) as [H|[(id0 & u & _ & H)|[(id0 & H)|(u & n & He & _)]]].
    + rewrite H. lia.
    + rewrite H, updateItem_length. lia.
    + rewrite H. apply deleteItem_length.
    + exfalso. exact (Hne u n He).
Qed.

(** C8: [updateItem] keeps the length and the positions of the collection;
    an item whose id differs is returned as it is; an item with the id is
    merged field by field, a field that is not given keeping its value, so
    an update without a [status] key (the edits of [speakerName],
    [contextText] and [text]) keeps every status; and when no item has the
    id the collection is returned unchanged. *)
Theorem C8_updateItem_frame
    (id0 : jsstring) (updates : PartialItem) (prev : list ReportItem) :
  let next := App.updateItem id0 updates prev in
  length next = length prev
  /\ (forall i item, prev !! i = Some item -> id item <> id0 -> next !! i = Some item)
  /\ (forall i item, prev !! i = Some item -> id item = id0 ->
        exists merged,
          next !! i = Some merged
          /\ id merged = default (id item) (u_id updates)
          /\ speakerName merged = default (speakerName item) (u_speakerName updates)
          /\ status merged = default (status item) (u_status updates)
          /\ text merged = default (text item) (u_text updates)
          /\ timestamp merged = default (timestamp item) (u_timestamp updates)
          /\ durationSeconds merged
             = default (durationSeconds item) (u_durationSeconds updates)
          /\ error merged = default (error item) (u_error updates)
          /\ contextText merged = default (contextText item) (u_contextText updates)
          /\ contextFile merged = default (contextFile item) (u_contextFile updates))
  /\ (u_id updates = None -> map id next = map id prev)
  /\ (u_status updates = None -> map status next = map status prev)
  /\ (forall (p : ReportCard.Props) (v : jsstring) (its : list ReportItem),
        map status (ReportCard.onChange_speakerName p v its) = map status its
        /\ map status (ReportCard.onChange_contextText p v its) = map status its
        /\ map status (ReportCard.onChange_text p v its) = map status its)
  /\ ((forall item, item ∈ prev -> id item <> id0) -> next = prev).
Proof.
  cbv zeta.
  assert (Hstatus : forall id1 u its,
             u_status u = None ->
             map status (App.updateItem id1 u its) = map status its).
  { intros id1 u its Hu. unfold App.updateItem. rewrite map_map. apply map_ext.
    intros it. destruct (bool_decide _); [|reflexivity].
    unfold App.spread. simpl. rewrite Hu. reflexivity. }
  split; [apply updateItem_length |].
  split.
  { intros i item Hi Hne. rewrite updateItem_lookup, Hi. simpl.
    rewrite bool_decide_eq_false_2 by exact Hne. reflexivity. }
  split.
  { intros i item Hi Heq. rewrite updateItem_lookup, Hi. simpl.
    rewrite bool_decide_eq_true_2 by exact Heq.
    eexists. split; [reflexivity |]. repeat split; reflexivity. }
  split.
  { intros Hu. unfold App.updateItem. rewrite map_map. apply map_ext.
    intros it. destruct (bool_decide _); [|reflexivity]. apply spread_id, Hu. }
  split; [apply Hstatus |].
  split.
  { intros p v its. repeat split; apply Hstatus; reflexivity. }
  apply updateItem_absent.
Qed.


(** ** The card controller, one event at a time *)

(** C2: when the acquisition of a [startRecording] call fails -- the
    [getUserMedia] promise rejects, or the recorder cannot be made or
    started -- the only write of the call is [status: ERROR] with the
    message "Mic access denied", on the card of the props it closed over:
    that card is in [ERROR] afterwards, and no card that was not
    [RECORDING] becomes [RECORDING].  The click that began the call wrote
    nothing. *)
Theorem C2_failed_acquisition_gives_error
    (w : World) (cid : jsstring) (k : nat) (l : ReportCard.Local)
    (p : ReportCard.Props) (o : ReportCard.MicOutcome) :
  cards w !! cid = Some l ->
  ReportCard.awaitingMic l !! k = Some p ->
  o <> ReportCard.granted ->
  let w' := step w (MicSettled cid k o) in
  items w'
  = App.updateItem (id (ReportCard.item p))
      (mkPartial None None (Some ERROR) None None None
         (Some (Some (lit "Mic access denied"))) None None)
      (items w)
  /\ (forall i it, items w !! i = Some it -> id it = id (ReportCard.item p) ->
        exists it', items w' !! i = Some it'
                    /\ status it' = ERROR
                    /\ error it' = Some (lit "Mic access denied"))
  /\ (forall i it', items w' !! i = Some it' -> status it' = RECORDING ->
        exists it, items w !! i = Some it /\ status it = RECORDING
                   /\ id it <> id (ReportCard.item p))
  /\ (forall w0, items (step w0 (Click cid ReportCard.StartButton)) = items w0).
Proof.
  intros Hl Hp Ho. cbv zeta.
  assert (Hitems : items (step w (MicSettled cid k o))
                   = App.updateItem (id (ReportCard.item p))
                       (mkPartial None None (Some ERROR) None None None
                          (Some (Some (lit "Mic access denied"))) None None)
                       (items w)).
  { simpl. unfold card_event. rewrite Hl. simpl. rewrite Hp. simpl.
    destruct o; try reflexivity. congruence. }
  split; [exact Hitems |]. rewrite Hitems. split; [|split].
  - intros i it Hi Hid. rewrite updateItem_lookup, Hi. simpl.
    rewrite bool_decide_eq_true_2 by exact Hid.
    eexists. split; [reflexivity |]. split; reflexivity.
  - intros i it'. rewrite updateItem_lookup.
    destruct (items w !! i) as [it|]; simpl; [|discriminate].
    destruct (bool_decide (id it = id (ReportCard.item p))) eqn:Hb.
    + intros [= <-]. simpl. discriminate.
    + intros [= <-] Hs. apply bool_decide_eq_false_1 in Hb. eauto.
  - intros w0. simpl. unfold user_event.
    destruct (find_item cid (items w0)); [|reflexivity].
    destruct (cards w0 !! cid); [|reflexivity].
    destruct (ReportCard.rendered _ _ _); reflexivity.
Qed.

Lemma C2_failed_acquisition_gives_error_witness :
  status_of
    (step (step (boot (lit "c1") 0) (Click (lit "c1") ReportCard.StartButton))
          (MicSettled (lit "c1") 0 ReportCard.getUserMedia_rejected))
    (lit "c1") = Some ERROR.
Proof.
  pose proof (C2_failed_acquisition_gives_error
                (step (boot (lit "c1") 0) (Click (lit "c1") ReportCard.StartButton))
                (lit "c1") 0
                (ReportCard.startRecording
                   (ReportCard.mkProps
                      (mkReportItem (lit "c1") (lit "Speaker 1") IDLE [] 0 0 None None None) en)
                   ReportCard.mountLocal)
                (ReportCard.mkProps
                   (mkReportItem (lit "c1") (lit "Speaker 1") IDLE [] 0 0 None None None) en)
                ReportCard.getUserMedia_rejected
                ltac:(vm_compute; reflexivity) ltac:(reflexivity) ltac:(discriminate))
    as (Hitems & _).
  unfold status_of. rewrite Hitems. reflexivity.
Defined.

(** When the encoding or the remote call of a submission fails, the card
    of the submission is set to [ERROR] and keeps its other fields.  Its
    error is the message of the failure when the failure has a non-empty
    one, and "Failed to process audio." when the failure is a value with no
    message or an empty one; when the failure is [null] or [undefined] it
    is the message of the TypeError that reading [error.message] throws
    inside the [catch] block of [generateReportFromAudio]. *)
Lemma failed_submission_gives_error
    (w : World) (cid : jsstring) (k : nat) (l : ReportCard.Local)
    (p : ReportCard.Props) (blob : Blob)
    (base64 : geminiService.Outcome jsstring)
    (response_text : geminiService.Outcome (option jsstring))
    (e : geminiService.Thrown) :
  cards w !! cid = Some l ->
  ReportCard.awaitingReport l !! k = Some (p, blob) ->
  base64 = geminiService.rejected e
  \/ (exists b64, base64 = geminiService.resolved b64
                  /\ response_text = geminiService.rejected e) ->
  let w' := step w (ReportSettled cid k base64 response_text) in
  let stored :=
    match e with
    | geminiService.thrown_value (Some (c :: m)) => c :: m
    | geminiService.thrown_value (Some []) | geminiService.thrown_value None =>
        lit "Failed to process audio."
    | geminiService.thrown_nullish geminiService.js_null =>
        lit "Cannot read properties of null (reading 'message')"
    | geminiService.thrown_nullish geminiService.js_undefined =>
        lit "Cannot read properties of undefined (reading 'message')"
    end in
  forall i it, items w !! i = Some it -> id it = id (ReportCard.item p) ->
    exists it', items w' !! i = Some it'
                /\ status it' = ERROR
                /\ error it' = Some stored
                /\ text it' = text it /\ durationSeconds it' = durationSeconds it
                /\ contextText it' = contextText it /\ contextFile it' = contextFile it.
Proof.
  intros Hl Hp Hfail. cbv zeta. intros i it Hi Hid.
  assert (Hstep :
            items (step w (ReportSettled cid k base64 response_text))
            = ReportCard.handleProcessing_resume p
                (geminiService.rejected (geminiService.rethrow e)) (items w)).
  { cbn [step]. unfold card_event. rewrite Hl. cbn [mbind option_bind].
    rewrite Hp. cbn [mbind option_bind snd].
    unfold ReportCard.handleProcessing_call, geminiService.generateReportFromAudio.
    destruct Hfail as [-> | (b64 & -> & ->)]; reflexivity. }
  rewrite Hstep.
  destruct e as [[]|[[|c m]|]];
    cbn [ReportCard.handleProcessing_resume geminiService.rethrow
           geminiService.read_message geminiService.TypeError_reading_message
           geminiService.new_Error geminiService.or_else];
    rewrite updateItem_lookup, Hi; cbn [fmap option_fmap option_map];
    rewrite bool_decide_eq_true_2 by exact Hid;
    (eexists; split; [reflexivity |]; repeat split; reflexivity).
Qed.

Lemma failed_submission_gives_error_witness :
  exists it',
    items (step
             (run (boot (lit "c1") 0)
                [ Click (lit "c1") ReportCard.StartButton;
                  MicSettled (lit "c1") 0 ReportCard.granted;
                  Click (lit "c1") ReportCard.StopButton;
                  StopDispatched (lit "c1") ])
             (ReportSettled (lit "c1") 0
                (geminiService.resolved (lit "QUJD"))
                (geminiService.rejected (geminiService.thrown_value None)))) !! 0%nat
    = Some it'
    /\ status it' = ERROR
    /\ error it' = Some (lit "Failed to process audio.").
Proof.
  edestruct (failed_submission_gives_error
               (run (boot (lit "c1") 0)
                  [ Click (lit "c1") ReportCard.StartButton;
                    MicSettled (lit "c1") 0 ReportCard.granted;
                    Click (lit "c1") ReportCard.StopButton;
                    StopDispatched (lit "c1") ])
               (lit "c1") 0)
    with (base64 := geminiService.resolved (lit "QUJD"))
         (response_text := @geminiService.rejected (option jsstring)
                             (geminiService.thrown_value None))
         (e := geminiService.thrown_value None) (i := 0%nat)
    as (it' & Hit' & Hs & He & _).
  - vm_compute. reflexivity.
  - vm_compute. reflexivity.
  - right. eexists. split; reflexivity.
  - vm_compute. reflexivity.
  - reflexivity.
  - exists it'. split; [exact Hit' |]. split; [exact Hs | exact He].
Defined.

(** C5, on the run where it fails: the recording is stopped, the card is
    in [PROCESSING], and the remote call (or the encoding) rejects with
    [undefined] or [null], a failure that carries no message.  The card
    goes to [ERROR], and its error is neither a description that the
    failure has nor "Failed to process audio.": it is the message of the
    TypeError that [error.message] throws inside the [catch] block of
    [generateReportFromAudio].  A failure that is a value without message
    gets the generic message. *)
Theorem C5_failure_without_message_stores_type_error :
  let c1 := lit "c1" in
  let submitted :=
    run (boot c1 0) [ Click c1 ReportCard.StartButton;
                      MicSettled c1 0 ReportCard.granted;
                      Click c1 ReportCard.StopButton;
                      StopDispatched c1 ] in
  let remote_fails e :=
    step submitted
      (ReportSettled c1 0 (geminiService.resolved (lit "QUJD")) (geminiService.rejected e)) in
  let encoding_fails e :=
    step submitted
      (ReportSettled c1 0 (geminiService.rejected e) (geminiService.resolved None)) in
  let error_of w := error <$> find_item c1 (items w) in
  status_of submitted c1 = Some PROCESSING
  /\ status_of (remote_fails (geminiService.thrown_nullish geminiService.js_undefined)) c1
     = Some ERROR
  /\ error_of (remote_fails (geminiService.thrown_nullish geminiService.js_undefined))
     = Some (Some (lit "Cannot read properties of undefined (reading 'message')"))
  /\ error_of (remote_fails (geminiService.thrown_nullish geminiService.js_null))
     = Some (Some (lit "Cannot read properties of null (reading 'message')"))
  /\ error_of (encoding_fails (geminiService.thrown_nullish geminiService.js_undefined))
     = Some (Some (lit "Cannot read properties of undefined (reading 'message')"))
  /\ error_of (remote_fails (geminiService.thrown_nullish geminiService.js_undefined))
     <> Some (Some (lit "Failed to process audio."))
  /\ error_of (remote_fails (geminiService.thrown_value None))
     = Some (Some (lit "Failed to process audio."))
  /\ error_of (remote_fails (geminiService.thrown_value (Some (lit "quota exceeded"))))
     = Some (Some (lit "quota exceeded")).
Proof.
  cbv zeta. repeat split; try (vm_compute; reflexivity). vm_compute. discriminate.
Qed.

(** C4, on the run where it fails: the card is started while English is
    selected, German is selected during the recording, and the recording is
    stopped; German is the selected language from before the stop until
    after the remote call resolves, with an empty text, and the card is
    completed with the English placeholder.  The [onstop] handler of the
    recorder calls the [handleProcessing] of the render in which Start was
    clicked, whose [language] is the one of that render. *)
Theorem C4_fallback_follows_language_at_start :
  let c1 := lit "c1" in
  let recording_in_english :=
    run (boot c1 0) [ Click c1 ReportCard.StartButton;
                      MicSettled c1 0 ReportCard.granted ] in
  let german_selected := step recording_in_english (SetLanguage de) in
  let submitted :=
    run german_selected [ Click c1 ReportCard.StopButton; StopDispatched c1 ] in
  let settled :=
    step submitted
      (ReportSettled c1 0 (geminiService.resolved (lit "QUJD"))
         (geminiService.resolved (Some []))) in
  language german_selected = de
  /\ status_of german_selected c1 = Some RECORDING
  /\ language submitted = de
  /\ status_of submitted c1 = Some PROCESSING
  /\ language settled = de
  /\ status_of settled c1 = Some COMPLETED
  /\ text <$> find_item c1 (items settled) = Some (lit "No new updates detected.")
  /\ text <$> find_item c1 (items settled) <> Some (lit "Keine neuen Updates erkannt.").
Proof. cbv zeta. repeat split. vm_compute. discriminate. Qed.

(** C6, on the run where it fails: the file is attached and the context
    is typed while the card is recording.  When the recording is stopped
    the card holds both, and the request of the submission has neither:
    its first part is the audio.  [handleProcessing] reads
    [item.contextFile] and [item.contextText] from the props of the render
    in which Start was clicked, as it does [language].  When both are on
    the card before Start, the request has them, in the order of the
    claim. *)
Theorem C6_context_attached_while_recording_is_not_sent :
  let c1 := lit "c1" in
  let plan := mkContextFile (lit "plan.pdf") (lit "application/pdf") (lit "JVBERi0=") in
  let attach :=
    [ Click c1 ReportCard.ContextToggle;
      FileChosen c1 (Some (lit "plan.pdf"));
      FileSettled c1 0 (geminiService.resolved (lit "JVBERi0=", lit "application/pdf"));
      Input c1 ReportCard.ContextTextarea (lit "Already deployed v1") ] in
  let record := [ Click c1 ReportCard.StartButton; MicSettled c1 0 ReportCard.granted ] in
  let stop := [ Click c1 ReportCard.StopButton; StopDispatched c1 ] in
  let while_recording := run (boot c1 0) (record ++ attach ++ stop) in
  let before_start := run (boot c1 0) (attach ++ record ++ stop) in
  let submission w := ReportCard.awaitingReport <$> cards w !! c1 in
  let sends p blob ps :=
    forall b64 generateContent,
      ReportCard.handleProcessing_call p blob
        (fun _ => geminiService.resolved b64) generateContent
      = match generateContent
                {| geminiService.model := lit "gemini-3-flash-preview";
                   geminiService.systemInstruction := geminiService.getSystemInstruction en;
                   geminiService.parts := ps b64 |} with
        | geminiService.resolved t =>
            geminiService.resolved (geminiService.or_else t (lit "No new updates detected."))
        | geminiService.rejected e => geminiService.rejected (geminiService.rethrow e)
        end in
  let audio b64 := geminiService.inlineData (lit "audio/webm") b64 in
  let closing :=
    geminiService.textPart
      (lit "Analyze the audio. Extract ONLY new info, changes, or Q&A relative to the context above. Output in English bullet points.") in
  (contextFile <$> find_item c1 (items while_recording) = Some (Some plan)
   /\ contextText <$> find_item c1 (items while_recording)
      = Some (Some (lit "Already deployed v1"))
   /\ status_of while_recording c1 = Some PROCESSING
   /\ exists p blob,
        submission while_recording = Some [(p, blob)]
        /\ sends p blob (fun b64 => [audio b64; closing]))
  /\ (contextFile <$> find_item c1 (items before_start) = Some (Some plan)
      /\ contextText <$> find_item c1 (items before_start)
         = Some (Some (lit "Already deployed v1"))
      /\ exists p blob,
           submission before_start = Some [(p, blob)]
           /\ sends p blob
                (fun b64 =>
                   [ geminiService.inlineData (lit "application/pdf") (lit "JVBERi0=");
                     geminiService.textPart
                       (lit "[SYSTEM] Above is the attached existing context file (plan.pdf).");
                     geminiService.textPart
                       (lit "[SYSTEM] EXISTING CONTEXT / CURRENT STATUS:" ++ [10; 34]%N
                        ++ lit "Already deployed v1" ++ [34; 10; 10]%N
                        ++ lit "(Do not repeat this information in the output unless it is being corrected/updated).");
                     audio b64; closing ])).
Proof.
  cbv zeta. split.
  - split; [vm_compute; reflexivity |]. split; [vm_compute; reflexivity |].
    split; [vm_compute; reflexivity |].
    eexists _, _. split; [vm_compute; reflexivity |].
    intros b64 generateContent. vm_compute. reflexivity.
  - split; [vm_compute; reflexivity |]. split; [vm_compute; reflexivity |].
    eexists _, _. split; [vm_compute; reflexivity |].
    intros b64 generateContent. vm_compute. reflexivity.
Qed.

(** C10, on the runs where it fails.  The context text is typed while the
    card is recording: when the recording is stopped the card holds a
    context text that is not blank, and the request of the submission has
    no context-text part.  And the context text is cleared while the card
    is recording: the card holds the empty text, and the request quotes the
    text that was there when Start was clicked.  [handleProcessing] reads
    [item.contextText] from the props of the render in which Start was
    clicked. *)
Theorem C10_context_typed_while_recording_is_not_sent :
  let c1 := lit "c1" in
  let type_it :=
    [ Click c1 ReportCard.ContextToggle;
      Input c1 ReportCard.ContextTextarea (lit "Already deployed v1") ] in
  let record := [ Click c1 ReportCard.StartButton; MicSettled c1 0 ReportCard.granted ] in
  let stop := [ Click c1 ReportCard.StopButton; StopDispatched c1 ] in
  let typed_while_recording := run (boot c1 0) (record ++ type_it ++ stop) in
  let cleared_while_recording :=
    run (boot c1 0)
      (type_it ++ record ++ [Input c1 ReportCard.ContextTextarea []] ++ stop) in
  let submission w := ReportCard.awaitingReport <$> cards w !! c1 in
  let sends p blob ps :=
    forall b64 generateContent,
      ReportCard.handleProcessing_call p blob
        (fun _ => geminiService.resolved b64) generateContent
      = match generateContent
                {| geminiService.model := lit "gemini-3-flash-preview";
                   geminiService.systemInstruction := geminiService.getSystemInstruction en;
                   geminiService.parts := ps b64 |} with
        | geminiService.resolved t =>
            geminiService.resolved (geminiService.or_else t (lit "No new updates detected."))
        | geminiService.rejected e => geminiService.rejected (geminiService.rethrow e)
        end in
  let audio b64 := geminiService.inlineData (lit "audio/webm") b64 in
  let closing :=
    geminiService.textPart
      (lit "Analyze the audio. Extract ONLY new info, changes, or Q&A relative to the context above. Output in English bullet points.") in
  (contextText <$> find_item c1 (items typed_while_recording)
   = Some (Some (lit "Already deployed v1"))
   /\ status_of typed_while_recording c1 = Some PROCESSING
   /\ exists p blob,
        submission typed_while_recording = Some [(p, blob)]
        /\ sends p blob (fun b64 => [audio b64; closing]))
  /\ (contextText <$> find_item c1 (items cleared_while_recording) = Some (Some [])
      /\ status_of cleared_while_recording c1 = Some PROCESSING
      /\ exists p blob,
           submission cleared_while_recording = Some [(p, blob)]
           /\ sends p blob
                (fun b64 =>
                   [ geminiService.textPart
                       (lit "[SYSTEM] EXISTING CONTEXT / CURRENT STATUS:" ++ [10; 34]%N
                        ++ lit "Already deployed v1" ++ [34; 10; 10]%N
                        ++ lit "(Do not repeat this information in the output unless it is being corrected/updated).");
                     audio b64; closing ])).
Proof.
  cbv zeta. split.
  - split; [vm_compute; reflexivity |]. split; [vm_compute; reflexivity |].
    eexists _, _. split; [vm_compute; reflexivity |].
    intros b64 generateContent. vm_compute. reflexivity.
  - split; [vm_compute; reflexivity |]. split; [vm_compute; reflexivity |].
    eexists _, _. split; [vm_compute; reflexivity |].
    intros b64 generateContent. vm_compute. reflexivity.
Qed.

(** ** What a submission settles with *)

Lemma or_else_nonempty (a : option jsstring) (b : jsstring) :
  b <> [] -> geminiService.or_else a b <> [].
Proof. intros Hb. destruct a as [[|c s]|]; simpl; [exact Hb | discriminate | exact Hb]. Qed.

Lemma emptyFallback_nonempty (lang : TargetLanguage) :
  geminiService.emptyFallback lang <> [].
Proof. destruct lang; discriminate. Qed.

(** What the [catch] block of [generateReportFromAudio] throws is an
    [Error] with a message. *)
Lemma rethrow_has_message (e : geminiService.Thrown) :
  exists m, geminiService.rethrow e = geminiService.thrown_value (Some m) /\ m <> [].
Proof.
  destruct e as [[]|m]; simpl; eexists; (split; [reflexivity |]);
    first [discriminate | apply or_else_nonempty; discriminate].
Qed.

Lemma report_outcome_cases (p : ReportCard.Props) (blob : Blob)
    (b : geminiService.Outcome jsstring) (r : geminiService.Outcome (option jsstring)) :
  match ReportCard.handleProcessing_call p blob (fun _ => b) (fun _ => r) with
  | geminiService.resolved t => t <> []
  | geminiService.rejected e =>
      exists m, e = geminiService.thrown_value (Some m) /\ m <> []
  end.
Proof.
  unfold ReportCard.handleProcessing_call, geminiService.generateReportFromAudio.
  destruct b as [b64|e]; [|apply rethrow_has_message].
  cbv zeta. destruct r as [t|e]; [|apply rethrow_has_message].
  apply or_else_nonempty, emptyFallback_nonempty.
Qed.

(** ** Invariants along every trace *)

Lemma closures_ok_mount (cid : jsstring) : closures_ok cid ReportCard.mountLocal.
Proof. repeat split; try constructor. intros r Hr. discriminate Hr. Qed.

(** A component state whose closures all come from [l] or are the props
    [p] of card [cid]. *)
Lemma closures_ok_from (cid : jsstring) (l l' : ReportCard.Local) :
  closures_ok cid l ->
  (forall P : ReportCard.Props -> Prop,
      Forall P (ReportCard.awaitingMic l) ->
      Forall P (ReportCard.pendingStop l) ->
      Forall (fun pb => P (fst pb)) (ReportCard.awaitingReport l) ->
      Forall (fun pf => P (fst pf)) (ReportCard.awaitingFile l) ->
      (forall r, ReportCard.mediaRecorderRef l = Some r -> P (ReportCard.onstop r)) ->
      Forall P (ReportCard.orphans l) ->
      (forall p, id (ReportCard.item p) = cid -> P p) ->
      Forall P (ReportCard.awaitingMic l')
      /\ Forall P (ReportCard.pendingStop l')
      /\ Forall (fun pb => P (fst pb)) (ReportCard.awaitingReport l')
      /\ Forall (fun pf => P (fst pf)) (ReportCard.awaitingFile l')
      /\ (forall r, ReportCard.mediaRecorderRef l' = Some r -> P (ReportCard.onstop r))
      /\ Forall P (ReportCard.orphans l')) ->
  closures_ok cid l'.
Proof.
  intros (H1 & H2 & H3 & H4 & H5 & H6) Hsub.
  apply (Hsub (fun p => id (ReportCard.item p) = cid)); auto.
Qed.

Ltac closures_from l :=
  apply (closures_ok_from _ l); [assumption |];
  let P := fresh "P" in
  let H1 := fresh "Hmic" in let H2 := fresh "Hstop" in let H3 := fresh "Hrep" in
  let H4 := fresh "Hfile" in let H5 := fresh "Hrec" in let H6 := fresh "Horph" in
  let H7 := fresh "Hnew" in
  intros P H1 H2 H3 H4 H5 H6 H7.

(** Two component states with the same closures. *)
Lemma closures_ok_same (cid : jsstring) (l l' : ReportCard.Local) :
  closures_ok cid l ->
  ReportCard.awaitingMic l' = ReportCard.awaitingMic l ->
  ReportCard.pendingStop l' = ReportCard.pendingStop l ->
  ReportCard.awaitingReport l' = ReportCard.awaitingReport l ->
  ReportCard.awaitingFile l' = ReportCard.awaitingFile l ->
  ReportCard.mediaRecorderRef l' = ReportCard.mediaRecorderRef l ->
  ReportCard.orphans l' = ReportCard.orphans l ->
  closures_ok cid l'.
Proof.
  intros Hok E1 E2 E3 E4 E5 E6. closures_from l.
  rewrite E1, E2, E3, E4, E5, E6. repeat split; assumption.
Qed.

Lemma clearInterval_of_ref_fields (b : bool) (l : ReportCard.Local) :
  let l' := ReportCard.clearInterval_of_ref b l in
  ReportCard.awaitingMic l' = ReportCard.awaitingMic l
  /\ ReportCard.pendingStop l' = ReportCard.pendingStop l
  /\ ReportCard.awaitingReport l' = ReportCard.awaitingReport l
  /\ ReportCard.awaitingFile l' = ReportCard.awaitingFile l
  /\ ReportCard.mediaRecorderRef l' = ReportCard.mediaRecorderRef l
  /\ ReportCard.orphans l' = ReportCard.orphans l
  /\ ReportCard.timer l' = ReportCard.timer l.
Proof.
  unfold ReportCard.clearInterval_of_ref.
  destruct (ReportCard.timerIntervalRef l); repeat split; reflexivity.
Qed.

Lemma stop_ref_fields (l : ReportCard.Local) (r : ReportCard.MediaRecorder) :
  ReportCard.mediaRecorderRef l = Some r ->
  let l' := ReportCard.stop_ref l in
  ReportCard.awaitingMic l' = ReportCard.awaitingMic l
  /\ ReportCard.pendingStop l' = ReportCard.pendingStop l ++ [ReportCard.onstop r]
  /\ ReportCard.awaitingReport l' = ReportCard.awaitingReport l
  /\ ReportCard.awaitingFile l' = ReportCard.awaitingFile l
  /\ ReportCard.mediaRecorderRef l'
     = Some (ReportCard.mkRecorder ReportCard.inactive (ReportCard.onstop r))
  /\ ReportCard.orphans l' = ReportCard.orphans l
  /\ ReportCard.timer l' = ReportCard.timer l
  /\ ReportCard.timerIntervalRef l' = ReportCard.timerIntervalRef l
  /\ ReportCard.liveIntervals l' = ReportCard.liveIntervals l.
Proof.
  intros Hr. unfold ReportCard.stop_ref. rewrite Hr. repeat split; reflexivity.
Qed.

Lemma ref_is_recording_Some (l : ReportCard.Local) :
  ReportCard.ref_is_recording l = true ->
  exists q, ReportCard.mediaRecorderRef l
            = Some (ReportCard.mkRecorder ReportCard.recording q).
Proof.
  unfold ReportCard.ref_is_recording.
  destruct (ReportCard.mediaRecorderRef l) as [[[] q]|]; try discriminate. eauto.
Qed.

Lemma closures_ok_clear (cid : jsstring) (b : bool) (l : ReportCard.Local) :
  closures_ok cid l -> closures_ok cid (ReportCard.clearInterval_of_ref b l).
Proof.
  intros Hok.
  destruct (clearInterval_of_ref_fields b l) as (E1 & E2 & E3 & E4 & E5 & E6 & _).
  apply (closures_ok_same cid l); assumption.
Qed.

Lemma closures_ok_stop_ref (cid : jsstring) (l : ReportCard.Local) :
  closures_ok cid l ->
  ReportCard.ref_is_recording l = true ->
  closures_ok cid (ReportCard.stop_ref l).
Proof.
  intros Hok Hrec. apply ref_is_recording_Some in Hrec as (q & Hq).
  destruct (stop_ref_fields l _ Hq) as (F1 & F2 & F3 & F4 & F5 & F6 & _).
  closures_from l. rewrite F1, F2, F3, F4, F5, F6. simpl.
  repeat split; try assumption.
  - apply Forall_app. split; [assumption |]. constructor; [|constructor].
    apply (Hrec _ Hq).
  - intros r [= <-]. apply (Hrec _ Hq).
Qed.

Lemma closures_ok_stopped (cid : jsstring) (b : bool) (l : ReportCard.Local) :
  closures_ok cid l ->
  ReportCard.ref_is_recording l = true ->
  closures_ok cid (ReportCard.clearInterval_of_ref b (ReportCard.stop_ref l)).
Proof. intros Hok Hrec. apply closures_ok_clear, closures_ok_stop_ref; assumption. Qed.

Lemma closures_ok_unmount (cid : jsstring) (l : ReportCard.Local) :
  closures_ok cid l -> closures_ok cid (ReportCard.unmount_cleanup l).
Proof.
  intros Hok. unfold ReportCard.unmount_cleanup. cbv zeta.
  pose proof (closures_ok_clear cid false l Hok) as Hok1.
  destruct (ReportCard.ref_is_recording _) eqn:Hrec; [|exact Hok1].
  apply closures_ok_stop_ref; assumption.
Qed.

Lemma recorder_onstop_fields (p : ReportCard.Props) (l : ReportCard.Local) :
  let l' := ReportCard.recorder_onstop p l in
  ReportCard.awaitingMic l' = ReportCard.awaitingMic l
  /\ ReportCard.pendingStop l' = ReportCard.pendingStop l
  /\ ReportCard.ref_is_recording l' = ReportCard.ref_is_recording l
  /\ ReportCard.orphans l' = ReportCard.orphans l
  /\ length (ReportCard.awaitingReport l') = S (length (ReportCard.awaitingReport l)).
Proof.
  cbv zeta. repeat split; try reflexivity.
  unfold ReportCard.recorder_onstop, ReportCard.handleProcessing.
  cbn [ReportCard.awaitingReport ReportCard.set_awaitingReport].
  rewrite length_app. cbn [length]. lia.
Qed.

Lemma closures_ok_orphan_ended (cid : jsstring) (k : nat) (l l' : ReportCard.Local) :
  closures_ok cid l ->
  ReportCard.orphan_stream_ended k l = Some l' ->
  closures_ok cid l'.
Proof.
  intros Hok Ho. unfold ReportCard.orphan_stream_ended in Ho.
  destruct (ReportCard.orphans l !! k) as [q|] eqn:Hq; simpl in Ho; [|discriminate Ho].
  injection Ho as <-. closures_from l. simpl. repeat split; try assumption.
  - apply Forall_app. split; [assumption |]. constructor; [|constructor].
    exact (Forall_lookup_1 _ _ _ _ Horph Hq).
  - apply Forall_delete. assumption.
Qed.

(** The recorder that the ref pointed to is kept when it still records. *)
Lemma assign_mediaRecorderRef_fields (r : ReportCard.MediaRecorder) (l : ReportCard.Local) :
  let l' := ReportCard.assign_mediaRecorderRef r l in
  ReportCard.awaitingMic l' = ReportCard.awaitingMic l
  /\ ReportCard.pendingStop l' = ReportCard.pendingStop l
  /\ ReportCard.awaitingReport l' = ReportCard.awaitingReport l
  /\ ReportCard.awaitingFile l' = ReportCard.awaitingFile l
  /\ ReportCard.mediaRecorderRef l' = Some r
  /\ ReportCard.orphans l'
     = ReportCard.orphans l
       ++ match ReportCard.mediaRecorderRef l with
          | Some (ReportCard.mkRecorder ReportCard.recording q) => [q]
          | _ => []
          end
  /\ ReportCard.timerIntervalRef l' = ReportCard.timerIntervalRef l
  /\ ReportCard.liveIntervals l' = ReportCard.liveIntervals l
  /\ ReportCard.nextInterval l' = ReportCard.nextInterval l.
Proof.
  unfold ReportCard.assign_mediaRecorderRef.
  destruct (ReportCard.mediaRecorderRef l) as [[[] q]|]; simpl; rewrite ?app_nil_r;
    repeat split; reflexivity.
Qed.

Lemma assign_mediaRecorderRef_idle (r : ReportCard.MediaRecorder) (l : ReportCard.Local) :
  ReportCard.ref_is_recording l = false ->
  ReportCard.assign_mediaRecorderRef r l = ReportCard.set_mediaRecorderRef (Some r) l.
Proof.
  unfold ReportCard.assign_mediaRecorderRef, ReportCard.ref_is_recording.
  destruct (ReportCard.mediaRecorderRef l) as [[[] q]|]; first [discriminate | reflexivity].
Qed.

Lemma closures_ok_assign (cid : jsstring) (r : ReportCard.MediaRecorder)
    (l : ReportCard.Local) :
  closures_ok cid l ->
  id (ReportCard.item (ReportCard.onstop r)) = cid ->
  closures_ok cid (ReportCard.assign_mediaRecorderRef r l).
Proof.
  intros Hok Hr.
  destruct (assign_mediaRecorderRef_fields r l) as (E1 & E2 & E3 & E4 & E5 & E6 & _).
  closures_from l. rewrite E1, E2, E3, E4, E5, E6. repeat split; try assumption.
  - intros r' [= <-]. apply Hnew. exact Hr.
  - apply Forall_app. split; [assumption |].
    destruct (ReportCard.mediaRecorderRef l) as [[[] q]|] eqn:Href; try constructor.
    + exact (Hrec _ eq_refl).
    + constructor.
Qed.

Section Preservation.

Variable phase : CardStatus -> ReportCard.Local -> Prop.
Variable permitted : World -> Event -> Prop.

Hypothesis phase_mount : phase IDLE ReportCard.mountLocal.
Hypothesis phase_frame :
  forall s l l', same_flight l l' -> phase s l -> phase s l'.
Hypothesis phase_start :
  forall w cid l p,
    permitted w (Click cid ReportCard.StartButton) ->
    cards w !! cid = Some l ->
    phase IDLE l -> phase IDLE (ReportCard.startRecording p l).
Hypothesis phase_stop :
  forall l,
    ReportCard.ref_is_recording l = true ->
    phase RECORDING l ->
    phase PROCESSING (ReportCard.clearInterval_of_ref true (ReportCard.stop_ref l)).
Hypothesis phase_reset : forall l, phase ERROR l -> phase IDLE l.
Hypothesis phase_mic :
  forall s l k p o its,
    ReportCard.awaitingMic l !! k = Some p ->
    phase s l ->
    phase (match o with ReportCard.granted => RECORDING | _ => ERROR end)
      (fst (ReportCard.startRecording_resume p o
              (ReportCard.set_awaitingMic (delete k (ReportCard.awaitingMic l)) l) its)).
Hypothesis phase_dispatch :
  forall s l p rest,
    ReportCard.pendingStop l = p :: rest ->
    phase s l ->
    phase s (ReportCard.recorder_onstop p (ReportCard.set_pendingStop rest l)).
Hypothesis phase_report :
  forall s s' l k pb,
    ReportCard.awaitingReport l !! k = Some pb ->
    phase s l ->
    s' = COMPLETED \/ s' = ERROR ->
    phase s' (ReportCard.set_awaitingReport (delete k (ReportCard.awaitingReport l)) l).
Hypothesis phase_ended :
  forall w cid s l,
    permitted w (StreamEnded cid) ->
    cards w !! cid = Some l ->
    ReportCard.ref_is_recording l = true ->
    phase s l -> phase s (ReportCard.stop_ref l).
Hypothesis phase_orphan_ended :
  forall s l k l',
    ReportCard.orphan_stream_ended k l = Some l' -> phase s l -> phase s l'.

Lemma Inv_update (w : World) (cid : jsstring) (l l' : ReportCard.Local)
    (u : PartialItem) (lang : TargetLanguage) :
  Inv phase w ->
  cards w !! cid = Some l ->
  u_id u = None ->
  closures_ok cid l' ->
  (forall it, find_item cid (items w) = Some it ->
     phase (status it) l -> phase (default (status it) (u_status u)) l') ->
  Inv phase (mkWorld (App.updateItem cid u (items w)) lang (<[cid := l']> (cards w))).
Proof.
  intros [Hcl Hit] Hl Hu Hok Hph. split; simpl.
  - apply map_Forall_insert_2; assumption.
  - intros cid' it'. rewrite find_item_updateItem by exact Hu.
    destruct (find_item cid' (items w)) as [it|] eqn:Hf; simpl; [|discriminate].
    destruct (Hit cid' it Hf) as (l0 & Hl0 & Hp0).
    destruct (bool_decide (cid' = cid)) eqn:Hb; intros [= <-].
    + apply bool_decide_eq_true_1 in Hb. subst cid'.
      exists l'. rewrite lookup_insert_eq. split; [reflexivity |].
      assert (l0 = l) by congruence. subst l0. apply (Hph it Hf Hp0).
    + apply bool_decide_eq_false_1 in Hb.
      exists l0. rewrite lookup_insert_ne by congruence. split; assumption.
Qed.

(** The same for a handler that calls no [onUpdate]. *)
Lemma Inv_local (w : World) (cid : jsstring) (l l' : ReportCard.Local)
    (lang : TargetLanguage) :
  Inv phase w ->
  cards w !! cid = Some l ->
  closures_ok cid l' ->
  (forall it, find_item cid (items w) = Some it -> phase (status it) l ->
     phase (status it) l') ->
  Inv phase (mkWorld (items w) lang (<[cid := l']> (cards w))).
Proof.
  intros HI Hl Hok Hph.
  rewrite <- (updateItem_no_updates cid (items w)) at 1.
  apply (Inv_update w cid l l' no_updates lang HI Hl eq_refl Hok). exact Hph.
Qed.

Lemma Inv_same_cards (w : World) (lang : TargetLanguage) :
  Inv phase w -> Inv phase (mkWorld (items w) lang (cards w)).
Proof. intros [Hcl Hit]. split; assumption. Qed.

Lemma Inv_delete (w : World) (cid : jsstring) (l l' : ReportCard.Local) :
  Inv phase w ->
  cards w !! cid = Some l ->
  closures_ok cid l' ->
  Inv phase (mkWorld (App.deleteItem cid (items w)) (language w)
               (<[cid := l']> (cards w))).
Proof.
  intros [Hcl Hit] Hl Hok. split; simpl.
  - apply map_Forall_insert_2; assumption.
  - intros cid' it'. rewrite find_item_deleteItem.
    destruct (bool_decide (cid' = cid)) eqn:Hb; [discriminate |].
    apply bool_decide_eq_false_1 in Hb. intros Hf.
    destruct (Hit cid' it' Hf) as (l0 & Hl0 & Hp0).
    exists l0. rewrite lookup_insert_ne by congruence. split; assumption.
Qed.

Lemma Inv_new (w : World) (uuid : jsstring) (now : Z) :
  Inv phase w ->
  cards w !! uuid = None ->
  find_item uuid (items w) = None ->
  Inv phase (mkWorld (App.addNewCard uuid now (items w)) (language w)
               (<[uuid := ReportCard.mountLocal]> (cards w))).
Proof.
  intros [Hcl Hit] Hnone Hfresh. split; simpl.
  - apply map_Forall_insert_2; [apply closures_ok_mount | assumption].
  - intros cid' it'. rewrite find_item_addNewCard by exact Hfresh.
    destruct (bool_decide (cid' = uuid)) eqn:Hb.
    + apply bool_decide_eq_true_1 in Hb. subst cid'.
      unfold App.addNewCard. cbv zeta. rewrite last_snoc. intros [= <-].
      exists ReportCard.mountLocal. rewrite lookup_insert_eq. split; [reflexivity |].
      exact phase_mount.
    + apply bool_decide_eq_false_1 in Hb. intros Hf.
      destruct (Hit cid' it' Hf) as (l0 & Hl0 & Hp0).
      exists l0. rewrite lookup_insert_ne by congruence. split; assumption.
Qed.

Lemma Inv_update_frame (w : World) (cid : jsstring) (l l' : ReportCard.Local)
    (u : PartialItem) (lang : TargetLanguage) :
  Inv phase w ->
  cards w !! cid = Some l ->
  u_id u = None -> u_status u = None ->
  closures_ok cid l' -> same_flight l l' ->
  Inv phase (mkWorld (App.updateItem cid u (items w)) lang (<[cid := l']> (cards w))).
Proof.
  intros HI Hl Hu Hs Hok Hsame. apply (Inv_update w cid l l' u lang); try assumption.
  intros it _ Hp. rewrite Hs. simpl. exact (phase_frame _ _ _ Hsame Hp).
Qed.

Lemma Inv_local_frame (w : World) (cid : jsstring) (l l' : ReportCard.Local)
    (lang : TargetLanguage) :
  Inv phase w ->
  cards w !! cid = Some l ->
  closures_ok cid l' -> same_flight l l' ->
  Inv phase (mkWorld (items w) lang (<[cid := l']> (cards w))).
Proof.
  intros HI Hl Hok Hsame. apply (Inv_local w cid l l' lang); try assumption.
  intros it _ Hp. exact (phase_frame _ _ _ Hsame Hp).
Qed.

Lemma same_flight_refl (l : ReportCard.Local) : same_flight l l.
Proof. repeat split; reflexivity. Qed.

Ltac flight_frame l :=
  first
    [ apply (Inv_local_frame _ _ l)
    | apply (Inv_update_frame _ _ l); [ | | reflexivity | reflexivity | | ] ];
  [ assumption | assumption
  | first [ assumption
          | closures_from l; simpl; repeat split; assumption ]
  | first [ apply same_flight_refl | repeat split; reflexivity ] ].

(** Every event keeps the invariant. *)
Theorem step_Inv (w : World) (e : Event) :
  Inv phase w -> permitted w e -> Inv phase (step w e).
Proof.
  intros HI Hper. pose proof HI as [Hcl Hit].
  destruct e as [uuid now|lang|cid c|cid c v|cid f|cid k o|cid ch|cid|cid k b r|cid k o|cid h|cid|cid k];
    simpl; unfold user_event, card_event.
  - (* NewSpeaker *)
    destruct (bool_decide (cards w !! uuid = None)) eqn:H1; simpl; [|destruct w; exact HI].
    destruct (bool_decide (find_item uuid (items w) = None)) eqn:H2; [|destruct w; exact HI].
    apply bool_decide_eq_true_1 in H1, H2. apply Inv_new; assumption.
  - (* SetLanguage *)
    apply Inv_same_cards. exact HI.
  - (* Click *)
    destruct (find_item cid (items w)) as [it|] eqn:Hf; [|exact HI].
    destruct (cards w !! cid) as [l|] eqn:Hl; [|exact HI].
    destruct (ReportCard.rendered _ l c) eqn:Hr; [|exact HI].
    pose proof (map_Forall_lookup_1 _ _ _ _ Hcl Hl) as Hokl.
    destruct (find_item_Some _ _ _ Hf) as [_ Hid].
    destruct c; simpl in *;
      unfold ReportCard.removeFile, ReportCard.onClick_reset; simpl;
      rewrite ?Hid; try (flight_frame l).
    + (* Delete *)
      apply (Inv_delete w cid l); try assumption. apply closures_ok_unmount, Hokl.
    + (* Start *)
      apply bool_decide_eq_true_1 in Hr.
      apply (Inv_local w cid l); try assumption.
      * closures_from l. simpl. repeat split; try assumption.
        apply Forall_app. split; [assumption |]. constructor; [|constructor].
        apply Hnew. exact Hid.
      * intros it' Hf' Hp. assert (it' = it) by congruence. subst it'.
        rewrite Hr in *. apply (phase_start w cid l); assumption.
    + (* Stop *)
      apply bool_decide_eq_true_1 in Hr. unfold ReportCard.stopRecording.
      destruct (ReportCard.ref_is_recording l) eqn:Hrec; simpl; rewrite ?Hid.
      * apply (Inv_update w cid l); try assumption; try reflexivity.
        -- apply closures_ok_stopped; assumption.
        -- intros it' Hf' Hp. assert (it' = it) by congruence. subst it'.
           rewrite Hr in Hp. simpl. apply phase_stop; assumption.
      * flight_frame l.
    + (* Reset *)
      apply bool_decide_eq_true_1 in Hr.
      apply (Inv_update w cid l); try assumption; try reflexivity.
      intros it' Hf' Hp. assert (it' = it) by congruence. subst it'.
      rewrite Hr in Hp. simpl. apply phase_reset; assumption.
  - (* Input *)
    destruct (find_item cid (items w)) as [it|] eqn:Hf; [|exact HI].
    destruct (cards w !! cid) as [l|] eqn:Hl; [|exact HI].
    destruct (ReportCard.rendered _ l c) eqn:Hr; [|exact HI].
    pose proof (map_Forall_lookup_1 _ _ _ _ Hcl Hl) as Hokl.
    destruct (find_item_Some _ _ _ Hf) as [_ Hid].
    destruct c; simpl in *;
      unfold ReportCard.onChange_speakerName, ReportCard.onChange_contextText,
        ReportCard.onChange_text; simpl;
      rewrite ?Hid; flight_frame l.
  - (* FileChosen *)
    destruct (find_item cid (items w)) as [it|] eqn:Hf; [|exact HI].
    destruct (cards w !! cid) as [l|] eqn:Hl; [|exact HI].
    destruct (ReportCard.rendered _ l _) eqn:Hr; [|exact HI].
    pose proof (map_Forall_lookup_1 _ _ _ _ Hcl Hl) as Hokl.
    destruct (find_item_Some _ _ _ Hf) as [_ Hid].
    destruct f as [fname|]; simpl; [|flight_frame l].
    apply (Inv_local_frame w cid l); try assumption; [|repeat split; reflexivity].
    closures_from l. simpl. repeat split; try assumption.
    apply Forall_app. split; [assumption |]. constructor; [|constructor].
    simpl. apply Hnew. exact Hid.
  - (* MicSettled *)
    destruct (cards w !! cid) as [l|] eqn:Hl; [|exact HI].
    pose proof (map_Forall_lookup_1 _ _ _ _ Hcl Hl) as Hokl.
    destruct (ReportCard.awaitingMic l !! k) as [p|] eqn:Hp; simpl; [|exact HI].
    assert (Hid : id (ReportCard.item p) = cid).
    { destruct Hokl as (Hm & _). exact (Forall_lookup_1 _ _ _ _ Hm Hp). }
    assert (Hok0 : closures_ok cid
                     (ReportCard.set_awaitingMic (delete k (ReportCard.awaitingMic l)) l)).
    { closures_from l. simpl. repeat split; try assumption.
      apply Forall_delete. assumption. }
    pose proof (fun s Hs => phase_mic s l k p o (items w) Hp Hs) as Hph.
    destruct o; cbn [ReportCard.startRecording_resume fst snd] in *; rewrite Hid;
      (apply (Inv_update w cid l); try assumption; try reflexivity;
       try (intros it _ Hs; exact (Hph _ Hs))).
    + apply (closures_ok_same cid
               (ReportCard.assign_mediaRecorderRef
                  (ReportCard.mkRecorder ReportCard.inactive p)
                  (ReportCard.set_awaitingMic (delete k (ReportCard.awaitingMic l)) l)));
        try reflexivity.
      apply closures_ok_assign; assumption.
    + apply (closures_ok_same cid
               (ReportCard.assign_mediaRecorderRef
                  (ReportCard.mkRecorder ReportCard.recording p)
                  (ReportCard.set_awaitingMic (delete k (ReportCard.awaitingMic l)) l)));
        try reflexivity.
      apply closures_ok_assign; assumption.
  - (* DataAvailable *)
    destruct (cards w !! cid) as [l|] eqn:Hl; [|exact HI].
    pose proof (map_Forall_lookup_1 _ _ _ _ Hcl Hl) as Hokl.
    destruct (ReportCard.mediaRecorderRef l) eqn:Href; simpl; [|exact HI].
    unfold ReportCard.ondataavailable. destruct (0 <? _)%nat; flight_frame l.
  - (* StopDispatched *)
    destruct (cards w !! cid) as [l|] eqn:Hl; [|exact HI].
    pose proof (map_Forall_lookup_1 _ _ _ _ Hcl Hl) as Hokl.
    destruct (ReportCard.pendingStop l) as [|p rest] eqn:Hps; [exact HI |].
    apply (Inv_local w cid l); try assumption.
    + closures_from l. rewrite Hps in Hstop. inversion Hstop; subst. simpl.
      repeat split; try assumption.
      apply Forall_app. split; [assumption |]. constructor; [assumption | constructor].
    + intros it _ Hs. apply phase_dispatch; assumption.
  - (* ReportSettled *)
    destruct (cards w !! cid) as [l|] eqn:Hl; [|exact HI].
    pose proof (map_Forall_lookup_1 _ _ _ _ Hcl Hl) as Hokl.
    destruct (ReportCard.awaitingReport l !! k) as [[p blob]|] eqn:Hp; simpl; [|exact HI].
    assert (Hid : id (ReportCard.item p) = cid).
    { destruct Hokl as (_ & _ & Hm & _). exact (Forall_lookup_1 _ _ _ _ Hm Hp). }
    assert (Hok0 : closures_ok cid
                     (ReportCard.set_awaitingReport
                        (delete k (ReportCard.awaitingReport l)) l)).
    { closures_from l. simpl. repeat split; try assumption.
      apply Forall_delete. assumption. }
    pose proof (report_outcome_cases p blob b r) as Hout.
    destruct (ReportCard.handleProcessing_call _ _ _ _) as [t|err];
      [|destruct Hout as (m & -> & _)];
      simpl; rewrite Hid;
      (apply (Inv_update w cid l); try assumption; try reflexivity;
       intros it _ Hs; simpl; apply (phase_report (status it) _ l k (p, blob)); auto).
  - (* FileSettled *)
    destruct (cards w !! cid) as [l|] eqn:Hl; [|exact HI].
    pose proof (map_Forall_lookup_1 _ _ _ _ Hcl Hl) as Hokl.
    destruct (ReportCard.awaitingFile l !! k) as [[p fname]|] eqn:Hp; simpl; [|exact HI].
    assert (Hid : id (ReportCard.item p) = cid).
    { destruct Hokl as (_ & _ & _ & Hm & _). exact (Forall_lookup_1 _ _ _ _ Hm Hp). }
    assert (Hok0 : closures_ok cid
                     (ReportCard.set_awaitingFile (delete k (ReportCard.awaitingFile l)) l)).
    { closures_from l. simpl. repeat split; try assumption.
      apply Forall_delete. assumption. }
    destruct o as [[b64 m]|err]; simpl; rewrite ?Hid; flight_frame l.
  - (* Tick *)
    destruct (cards w !! cid) as [l|] eqn:Hl; [|exact HI].
    pose proof (map_Forall_lookup_1 _ _ _ _ Hcl Hl) as Hokl.
    destruct (bool_decide _); [|exact HI]. flight_frame l.
  - (* StreamEnded *)
    destruct (cards w !! cid) as [l|] eqn:Hl; [|exact HI].
    pose proof (map_Forall_lookup_1 _ _ _ _ Hcl Hl) as Hokl.
    unfold ReportCard.stream_ended.
    destruct (ReportCard.ref_is_recording l) eqn:Hrec; simpl; [|exact HI].
    apply (Inv_local w cid l); try assumption.
    + apply closures_ok_stop_ref; assumption.
    + intros it _ Hs. apply (phase_ended w cid); assumption.
  - (* OrphanStreamEnded *)
    destruct (cards w !! cid) as [l|] eqn:Hl; [|exact HI].
    pose proof (map_Forall_lookup_1 _ _ _ _ Hcl Hl) as Hokl.
    destruct (ReportCard.orphan_stream_ended k l) as [l'|] eqn:Ho; simpl; [|exact HI].
    apply (Inv_local w cid l); try assumption.
    + apply (closures_ok_orphan_ended cid k l); assumption.
    + intros it _ Hs. apply (phase_orphan_ended _ l k); assumption.
Qed.

End Preservation.

Lemma Inv_boot (phase : CardStatus -> ReportCard.Local -> Prop)
    (uuid : jsstring) (now : Z) :
  phase IDLE ReportCard.mountLocal -> Inv phase (boot uuid now).
Proof.
  intros Hm. split; simpl.
  - apply map_Forall_singleton. apply closures_ok_mount.
  - intros cid it. unfold find_item. simpl.
    destruct (bool_decide (uuid = cid)) eqn:Hb; [|discriminate].
    apply bool_decide_eq_true_1 in Hb. subst cid. intros [= <-].
    exists ReportCard.mountLocal. rewrite lookup_singleton_eq. split; [reflexivity | exact Hm].
Qed.

Lemma run_snoc (w : World) (trace : list Event) (e : Event) :
  run w (trace ++ [e]) = step (run w trace) e.
Proof. unfold run. rewrite fold_left_app. reflexivity. Qed.

(** *** Closures belong to their card, on every trace *)

Lemma closures_step (w : World) (e : Event) :
  Inv (fun _ _ => True) w -> Inv (fun _ _ => True) (step w e).
Proof.
  intros HI. apply (step_Inv (fun _ _ => True) (fun _ _ => True)); auto.
Qed.

Lemma closures_reachable (uuid : jsstring) (now : Z) (trace : list Event) :
  map_Forall closures_ok (cards (run (boot uuid now) trace)).
Proof.
  assert (HI : Inv (fun _ _ => True) (run (boot uuid now) trace)).
  { induction trace as [|e trace IH] using rev_ind.
    - apply Inv_boot. exact I.
    - rewrite run_snoc. apply closures_step. exact IH. }
  exact (proj1 HI).
Qed.

(** *** A card that shows [RECORDING] has a running recorder, as long as no
    stream ends by itself *)

Lemma recorder_runs_step (w : World) (e : Event) :
  Inv recorder_runs w -> stream_end e = false -> Inv recorder_runs (step w e).
Proof.
  intros HI He.
  apply (step_Inv recorder_runs (fun _ e => stream_end e = false));
    try exact HI; try exact He; unfold recorder_runs.
  - discriminate.
  - intros s l l' (_ & _ & _ & Hr & _) H Hs. rewrite Hr. auto.
  - discriminate.
  - discriminate.
  - discriminate.
  - intros s l k p o its _ _. destruct o; try discriminate. reflexivity.
  - intros s l p rest _ H Hs. specialize (H Hs). exact H.
  - intros s s' l k pb _ _ [-> | ->]; discriminate.
  - intros w0 cid s l Hper. discriminate Hper.
  - intros s l k l' Ho H Hs. specialize (H Hs).
    unfold ReportCard.orphan_stream_ended in Ho.
    destruct (ReportCard.orphans l !! k); simpl in Ho; [|discriminate Ho].
    injection Ho as <-. exact H.
Qed.

Lemma no_stream_ends_snoc (trace : list Event) (e : Event) :
  no_stream_ends (trace ++ [e]) = true ->
  no_stream_ends trace = true /\ stream_end e = false.
Proof.
  unfold no_stream_ends. rewrite forallb_app. simpl. rewrite andb_true_r.
  intros H. apply andb_prop in H as [Ht He]. split; [exact Ht |].
  destruct (stream_end e); [discriminate He | reflexivity].
Qed.

Lemma recorder_runs_reachable (uuid : jsstring) (now : Z) (trace : list Event) :
  no_stream_ends trace = true ->
  Inv recorder_runs (run (boot uuid now) trace).
Proof.
  induction trace as [|e trace IH] using rev_ind; intros Hno.
  - apply Inv_boot. unfold recorder_runs. discriminate.
  - apply no_stream_ends_snoc in Hno as [Ht He].
    rewrite run_snoc. apply recorder_runs_step; auto.
Qed.

(** *** What is in flight, on the traces that never re-enter Start *)

Lemma one_submission_cases (l : ReportCard.Local) :
  one_submission l ->
  (exists p, ReportCard.pendingStop l = [p] /\ ReportCard.awaitingReport l = [])
  \/ (exists pb, ReportCard.pendingStop l = [] /\ ReportCard.awaitingReport l = [pb]).
Proof.
  unfold one_submission.
  destruct (ReportCard.pendingStop l) as [|p [|p' ps]],
           (ReportCard.awaitingReport l) as [|pb [|pb' ar]]; simpl; intros H;
    try lia; eauto.
Qed.

(** In which statuses something is in flight. *)
Lemma phase_ok_awaitingMic (s : CardStatus) (l : ReportCard.Local) (k : nat)
    (p : ReportCard.Props) :
  phase_ok s l -> ReportCard.awaitingMic l !! k = Some p ->
  s = IDLE /\ ReportCard.awaitingMic l = [p] /\ k = 0%nat
  /\ ReportCard.ref_is_recording l = false /\ no_submission l
  /\ ReportCard.orphans l = [].
Proof.
  intros [Ho H] Hp.
  destruct s; simpl in H; destruct H as (Hm & H);
    try (rewrite Hm in Hp; discriminate Hp).
  destruct H as (Hr & Hs).
  destruct (ReportCard.awaitingMic l) as [|p0 [|p1 rest]]; simpl in *;
    [discriminate | | lia].
  destruct k; simpl in Hp; [|discriminate]. injection Hp as ->. auto 10.
Qed.

Lemma phase_ok_submission (s : CardStatus) (l : ReportCard.Local) :
  phase_ok s l ->
  ReportCard.pendingStop l <> [] \/ ReportCard.awaitingReport l <> [] ->
  (s = PROCESSING \/ s = RECORDING)
  /\ ReportCard.awaitingMic l = [] /\ ReportCard.ref_is_recording l = false
  /\ one_submission l /\ ReportCard.orphans l = [].
Proof.
  intros [Ho H] Hne.
  assert (Hno : ~ no_submission l).
  { intros [H1 H2]. destruct Hne; congruence. }
  destruct s; simpl in H; destruct H as (Hm & H);
    try (destruct H as (_ & H); contradiction).
  - destruct (ReportCard.ref_is_recording l); [contradiction | auto 10].
  - destruct H as (Hr & Hone). auto 10.
Qed.

Lemma phase_ok_step (w : World) (e : Event) :
  Inv phase_ok w -> reentrant_start w e = false -> Inv phase_ok (step w e).
Proof.
  intros HI Hseq.
  apply (step_Inv phase_ok (fun w e => reentrant_start w e = false));
    try exact HI; try exact Hseq.
  - (* mount *)
    split; [reflexivity |]. simpl. unfold no_submission. auto.
  - (* frame *)
    intros s l l' (E1 & E2 & E3 & E4 & E5) [Ho H]. split; [congruence |].
    unfold no_submission, one_submission in *.
    destruct s; simpl in *; rewrite E1, E2, E3, E4; exact H.
  - (* Start *)
    intros w0 cid l p Hper Hl [Ho (Hm & Hr & Hs)]. simpl in Hper. rewrite Hl in Hper.
    destruct (ReportCard.awaitingMic l) eqn:Hmic; [|discriminate].
    split; [exact Ho |]. simpl. rewrite Hmic. auto.
  - (* Stop *)
    intros l Hrec [Ho (Hm & H)]. rewrite Hrec in H. destruct H as [Hs Ha].
    apply ref_is_recording_Some in Hrec as (q & Hq).
    destruct (clearInterval_of_ref_fields true (ReportCard.stop_ref l))
      as (E1 & E2 & E3 & _ & E5 & E6 & _).
    destruct (stop_ref_fields l _ Hq) as (F1 & F2 & F3 & _ & F5 & F6 & _).
    split; [congruence |]. simpl. unfold one_submission, ReportCard.ref_is_recording.
    rewrite E1, E2, E3, E5, F1, F2, F3, F5, Hm, Hs, Ha. auto.
  - (* Reset *)
    intros l [Ho (Hm & Hr & Hs)]. split; [exact Ho |]. simpl. rewrite Hm. auto.
  - (* MicSettled *)
    intros s l k p o its Hp H.
    destruct (phase_ok_awaitingMic s l k p H Hp) as (-> & Hmic & -> & Hr & Hs & Ho).
    destruct Hs as [Hs Ha]. unfold phase_ok, no_submission.
    destruct o; cbn [ReportCard.startRecording_resume fst];
      rewrite ?assign_mediaRecorderRef_idle by exact Hr;
      simpl; rewrite Hmic; auto.
  - (* StopDispatched *)
    intros s l p rest Hps H.
    destruct (phase_ok_submission s l H) as (Hs & Hm & Hr & Hone & Ho).
    { left. rewrite Hps. discriminate. }
    destruct (one_submission_cases l Hone) as [(p0 & E1 & E2) | (pb & E1 & _)];
      [|rewrite E1 in Hps; discriminate Hps].
    assert (rest = []) by congruence. subst rest.
    destruct (recorder_onstop_fields p (ReportCard.set_pendingStop [] l))
      as (G1 & G2 & G3 & G4 & G5).
    unfold phase_ok, one_submission. rewrite G4. split; [exact Ho |].
    destruct Hs as [-> | ->]; rewrite G1, ?G3, G2, G5;
      change (ReportCard.ref_is_recording (ReportCard.set_pendingStop [] l))
        with (ReportCard.ref_is_recording l);
      simpl; rewrite ?Hr, E2; auto.
  - (* ReportSettled *)
    intros s s' l k pb Hp H Hs'.
    destruct (phase_ok_submission s l H) as (Hs & Hm & Hr & Hone & Ho).
    { right. intros E. rewrite E in Hp. discriminate Hp. }
    destruct (one_submission_cases l Hone) as [(p0 & _ & E2) | (pb0 & E1 & E2)];
      [rewrite E2 in Hp; discriminate Hp |].
    rewrite E2 in Hp. destruct k; simpl in Hp; [|discriminate Hp].
    split; [exact Ho |]. unfold no_submission.
    destruct Hs' as [-> | ->]; simpl; rewrite E2; auto.
  - (* StreamEnded *)
    intros w0 cid s l _ _ Hrec [Ho H].
    assert (Hs : s = RECORDING /\ ReportCard.awaitingMic l = [] /\ no_submission l).
    { destruct s; simpl in H; destruct H as (Hm & H);
        try (destruct H as (Hr & _); congruence).
      rewrite Hrec in H. auto. }
    destruct Hs as (-> & Hm & Hs & Ha).
    apply ref_is_recording_Some in Hrec as (q & Hq).
    destruct (stop_ref_fields l _ Hq) as (F1 & F2 & F3 & _ & F5 & F6 & _).
    split; [congruence |]. simpl. unfold one_submission, ReportCard.ref_is_recording.
    rewrite F1, F2, F3, F5, Hm, Hs, Ha. auto.
  - (* OrphanStreamEnded *)
    intros s l k l' Hoe [Ho _]. unfold ReportCard.orphan_stream_ended in Hoe.
    rewrite Ho in Hoe. discriminate Hoe.
Qed.

Lemma sequential_snoc (w : World) (trace : list Event) (e : Event) :
  sequential w (trace ++ [e]) = true ->
  sequential w trace = true /\ reentrant_start (run w trace) e = false.
Proof.
  revert w. induction trace as [|e0 trace IH]; intros w; simpl.
  - rewrite andb_true_r. intros H. split; [reflexivity |].
    destruct (reentrant_start w e); [discriminate | reflexivity].
  - intros H. apply andb_prop in H as [H0 Ht]. rewrite H0. simpl.
    apply (IH (step w e0)). exact Ht.
Qed.

Lemma phase_ok_reachable (uuid : jsstring) (now : Z) (trace : list Event) :
  sequential (boot uuid now) trace = true ->
  Inv phase_ok (run (boot uuid now) trace).
Proof.
  induction trace as [|e trace IH] using rev_ind; intros Hseq.
  - apply Inv_boot. split; [reflexivity |]. simpl. unfold no_submission. auto.
  - apply sequential_snoc in Hseq as [Ht He].
    rewrite run_snoc. apply phase_ok_step; auto.
Qed.

(** ** Status transitions *)

Lemma status_of_update (cid cid' : jsstring) (u : PartialItem)
    (its : list ReportItem) (lang : TargetLanguage)
    (cs : gmap jsstring ReportCard.Local) :
  u_id u = None ->
  status_of (mkWorld (App.updateItem cid u its) lang cs) cid'
  = (fun s => if bool_decide (cid' = cid) then default s (u_status u) else s)
      <$> status_of (mkWorld its lang cs) cid'.
Proof.
  intros Hu. unfold status_of. simpl. rewrite find_item_updateItem by exact Hu.
  destruct (find_item cid' its) as [it|]; simpl; [|reflexivity].
  destruct (bool_decide (cid' = cid)); reflexivity.
Qed.

Lemma status_of_same_items (w : World) (lang : TargetLanguage)
    (cs : gmap jsstring ReportCard.Local) (cid' : jsstring) :
  status_of (mkWorld (items w) lang cs) cid' = status_of w cid'.
Proof. reflexivity. Qed.

Ltac same_status :=
  match goal with
  | H : status_of ?w ?c = Some ?s, H' : status_of _ ?c = Some ?s' |- _ =>
      left;
      first [ rewrite status_of_same_items in H'
            | rewrite status_of_update in H' by reflexivity;
              rewrite status_of_same_items, H in H'; simpl in H';
              destruct (bool_decide _) in H' ];
      congruence
  end.

(** One event of a trace that never re-enters Start moves the status of a
    card along a designed edge, or, when the stream of its recorder has
    ended by itself, from [RECORDING] to [COMPLETED] or [ERROR]; or it
    leaves the status as it is. *)
Lemma step_sequential_edge (w : World) (e : Event) (cid' : jsstring) (s s' : CardStatus) :
  Inv phase_ok w ->
  reentrant_start w e = false ->
  status_of w cid' = Some s ->
  status_of (step w e) cid' = Some s' ->
  s = s' \/ designed_edge s s' = true
  \/ (stream_ended_edge s s' = true
      /\ exists l, cards w !! cid' = Some l /\ ReportCard.ref_is_recording l = false).
Proof.
  intros [Hcl Hit] Hseq Hs Hs'.
  assert (Hphase : forall l, cards w !! cid' = Some l -> phase_ok s l).
  { intros l Hl. unfold status_of in Hs.
    destruct (find_item cid' (items w)) as [it|] eqn:Hf; [|discriminate].
    injection Hs as <-. destruct (Hit cid' it Hf) as (l0 & Hl0 & Hp). congruence. }
  destruct e as [uuid now|lang|cid c|cid c v|cid f|cid k o|cid ch|cid|cid k b r|cid k o|cid h|cid|cid k];
    simpl in Hs'; unfold user_event, card_event in Hs'.
  - (* NewSpeaker *)
    destruct (bool_decide (cards w !! uuid = None)) eqn:H1; simpl in Hs'; [|left; congruence].
    destruct (bool_decide (find_item uuid (items w) = None)) eqn:H2; [|left; congruence].
    apply bool_decide_eq_true_1 in H2.
    unfold status_of in *. simpl in Hs'. rewrite find_item_addNewCard in Hs' by exact H2.
    destruct (bool_decide (cid' = uuid)) eqn:Hb; [|left; congruence].
    apply bool_decide_eq_true_1 in Hb. subst cid'. rewrite H2 in Hs. discriminate.
  - left. unfold status_of in *. simpl in Hs'. congruence.
  - (* Click *)
    destruct (find_item cid (items w)) as [it|] eqn:Hf; [|left; congruence].
    destruct (cards w !! cid) as [l|] eqn:Hl; [|left; congruence].
    destruct (ReportCard.rendered _ l c) eqn:Hr; [|left; congruence].
    destruct (find_item_Some _ _ _ Hf) as [_ Hid].
    destruct c; simpl in *;
      unfold ReportCard.removeFile, ReportCard.onClick_reset in Hs'; simpl in Hs';
      rewrite ?Hid in Hs'; try same_status.
    + (* Delete *)
      unfold status_of in *. simpl in Hs'. rewrite find_item_deleteItem in Hs'.
      destruct (bool_decide (cid' = cid)); [discriminate | left; congruence].
    + (* Stop *)
      apply bool_decide_eq_true_1 in Hr. unfold ReportCard.stopRecording in Hs'.
      destruct (ReportCard.ref_is_recording l); simpl in Hs'; rewrite ?Hid in Hs';
        [|same_status].
      rewrite status_of_update in Hs' by reflexivity.
      rewrite status_of_same_items, Hs in Hs'. simpl in Hs'.
      destruct (bool_decide (cid' = cid)) eqn:Hb; [|left; congruence].
      apply bool_decide_eq_true_1 in Hb. subst cid'.
      unfold status_of in Hs. rewrite Hf in Hs. simpl in Hs.
      right; left. injection Hs' as <-. injection Hs as <-. rewrite Hr. reflexivity.
    + (* Reset *)
      apply bool_decide_eq_true_1 in Hr.
      rewrite status_of_update in Hs' by reflexivity.
      rewrite status_of_same_items, Hs in Hs'. simpl in Hs'.
      destruct (bool_decide (cid' = cid)) eqn:Hb; [|left; congruence].
      apply bool_decide_eq_true_1 in Hb. subst cid'.
      unfold status_of in Hs. rewrite Hf in Hs. simpl in Hs.
      right; left. injection Hs' as <-. injection Hs as <-. rewrite Hr. reflexivity.
  - (* Input *)
    destruct (find_item cid (items w)) as [it|] eqn:Hf; [|left; congruence].
    destruct (cards w !! cid) as [l|] eqn:Hl; [|left; congruence].
    destruct (ReportCard.rendered _ l c) eqn:Hr; [|left; congruence].
    destruct c; simpl in *;
      unfold ReportCard.onChange_speakerName, ReportCard.onChange_contextText,
        ReportCard.onChange_text in Hs'; simpl in Hs'; same_status.
  - (* FileChosen *)
    destruct (find_item cid (items w)) as [it|] eqn:Hf; [|left; congruence].
    destruct (cards w !! cid) as [l|] eqn:Hl; [|left; congruence].
    destruct (ReportCard.rendered _ l _) eqn:Hr; [|left; congruence].
    same_status.
  - (* MicSettled *)
    destruct (cards w !! cid) as [l|] eqn:Hl; [|left; congruence].
    destruct (ReportCard.awaitingMic l !! k) as [p|] eqn:Hp; simpl in Hs'; [|left; congruence].
    assert (Hid : id (ReportCard.item p) = cid).
    { destruct (map_Forall_lookup_1 _ _ _ _ Hcl Hl) as (Hm & _).
      exact (Forall_lookup_1 _ _ _ _ Hm Hp). }
    assert (Hidle : cid' = cid -> s = IDLE).
    { intros ->. exact (proj1 (phase_ok_awaitingMic s l k p (Hphase l Hl) Hp)). }
    destruct o; cbn [ReportCard.startRecording_resume snd] in Hs'; rewrite Hid in Hs';
      rewrite status_of_update in Hs' by reflexivity;
      rewrite status_of_same_items, Hs in Hs'; simpl in Hs';
      (destruct (bool_decide (cid' = cid)) eqn:Hb; [|left; congruence]);
      apply bool_decide_eq_true_1 in Hb; rewrite (Hidle Hb);
      right; left; injection Hs' as <-; reflexivity.
  - (* DataAvailable *)
    destruct (cards w !! cid) as [l|] eqn:Hl; [|left; congruence].
    destruct (ReportCard.mediaRecorderRef l); simpl in Hs'; [|left; congruence].
    same_status.
  - (* StopDispatched *)
    destruct (cards w !! cid) as [l|] eqn:Hl; [|left; congruence].
    destruct (ReportCard.pendingStop l); [left; congruence |]. same_status.
  - (* ReportSettled *)
    destruct (cards w !! cid) as [l|] eqn:Hl; [|left; congruence].
    destruct (ReportCard.awaitingReport l !! k) as [[p blob]|] eqn:Hp; simpl in Hs';
      [|left; congruence].
    assert (Hid : id (ReportCard.item p) = cid).
    { destruct (map_Forall_lookup_1 _ _ _ _ Hcl Hl) as (_ & _ & Hm & _).
      exact (Forall_lookup_1 _ _ _ _ Hm Hp). }
    assert (Hproc : cid' = cid ->
                    (s = PROCESSING \/ s = RECORDING)
                    /\ ReportCard.ref_is_recording l = false).
    { intros ->.
      destruct (phase_ok_submission s l (Hphase l Hl)) as (H1 & _ & H2 & _); [|auto].
      right. intros E. rewrite E in Hp. discriminate Hp. }
    pose proof (report_outcome_cases p blob b r) as Hout.
    destruct (ReportCard.handleProcessing_call _ _ _ _) as [t|err];
      [|destruct Hout as (m & -> & _)];
      simpl in Hs'; rewrite Hid in Hs';
      rewrite status_of_update in Hs' by reflexivity;
      rewrite status_of_same_items, Hs in Hs'; simpl in Hs';
      (destruct (bool_decide (cid' = cid)) eqn:Hb; [|left; congruence]);
      apply bool_decide_eq_true_1 in Hb; destruct (Hproc Hb) as [[-> | ->] Hrf];
      injection Hs' as <-; right;
      first [ left; reflexivity
            | right; split; [reflexivity |]; exists l; subst cid'; auto ].
  - (* FileSettled *)
    destruct (cards w !! cid) as [l|] eqn:Hl; [|left; congruence].
    destruct (ReportCard.awaitingFile l !! k) as [[p fname]|]; simpl in Hs';
      [|left; congruence].
    destruct o as [[b64 m]|err]; simpl in Hs'; same_status.
  - (* Tick *)
    destruct (cards w !! cid) as [l|] eqn:Hl; [|left; congruence].
    destruct (bool_decide _) in Hs'; [|left; congruence]. same_status.
  - (* StreamEnded *)
    destruct (cards w !! cid) as [l|] eqn:Hl; [|left; congruence].
    destruct (ReportCard.stream_ended l); simpl in Hs'; [|left; congruence]. same_status.
  - (* OrphanStreamEnded *)
    destruct (cards w !! cid) as [l|] eqn:Hl; [|left; congruence].
    destruct (ReportCard.orphan_stream_ended k l); simpl in Hs'; [|left; congruence].
    same_status.
Qed.

(** The same when, besides, no stream has ended by itself: designed edges
    only. *)
Lemma step_designed_edge (w : World) (e : Event) (cid' : jsstring) (s s' : CardStatus) :
  Inv phase_ok w ->
  Inv recorder_runs w ->
  reentrant_start w e = false ->
  status_of w cid' = Some s ->
  status_of (step w e) cid' = Some s' ->
  s = s' \/ designed_edge s s' = true.
Proof.
  intros HI [_ Hrun] Hseq Hs Hs'.
  destruct (step_sequential_edge w e cid' s s' HI Hseq Hs Hs')
    as [H | [H | (Hedge & l & Hl & Hrf)]]; auto.
  exfalso. unfold status_of in Hs.
  destruct (find_item cid' (items w)) as [it|] eqn:Hf; [|discriminate Hs].
  injection Hs as <-. destruct (Hrun cid' it Hf) as (l0 & Hl0 & Hrec).
  assert (l0 = l) by congruence. subst l0.
  destruct (status it); try discriminate Hedge.
  rewrite (Hrec eq_refl) in Hrf. discriminate Hrf.
Qed.

(** On a run in which Start is never clicked while an earlier acquisition
    of the same card is pending, an event changes the status of a card only
    along [IDLE -> RECORDING], [IDLE -> ERROR], [RECORDING -> PROCESSING],
    [PROCESSING -> COMPLETED], [PROCESSING -> ERROR] and [ERROR -> IDLE],
    or, after the stream of the recorder has ended by itself, from
    [RECORDING] straight to [COMPLETED] or [ERROR]; when no stream has
    ended, only along the first six, which the specification enumerates;
    and a completed card, which has no Start control, stays completed. *)
Theorem status_changes_on_sequential_runs
    (uuid : jsstring) (now : Z) (trace : list Event) (e : Event)
    (cid : jsstring) (s s' : CardStatus) :
  sequential (boot uuid now) (trace ++ [e]) = true ->
  status_of (run (boot uuid now) trace) cid = Some s ->
  status_of (step (run (boot uuid now) trace) e) cid = Some s' ->
  (s = s' \/ designed_edge s s' = true \/ stream_ended_edge s s' = true)
  /\ (no_stream_ends trace = true -> s = s' \/ designed_edge s s' = true)
  /\ (designed_edge s s' = true -> enumerated_edge s s' = true)
  /\ (s = COMPLETED -> s' = COMPLETED).
Proof.
  intros Hseq Hs Hs'.
  apply sequential_snoc in Hseq as [Ht He].
  pose proof (phase_ok_reachable uuid now trace Ht) as HI.
  pose proof (step_sequential_edge _ _ _ _ _ HI He Hs Hs') as Hedge.
  split; [|split; [|split]].
  - destruct Hedge as [H | [H | (H & _)]]; auto.
  - intros Hno.
    exact (step_designed_edge _ _ _ _ _ HI (recorder_runs_reachable uuid now trace Hno)
             He Hs Hs').
  - destruct s, s'; simpl; intros H; first [reflexivity | discriminate H].
  - intros ->. destruct Hedge as [<- | [H | (H & _)]]; [reflexivity | discriminate H ..].
Qed.

Lemma status_changes_on_sequential_runs_witness :
  IDLE = RECORDING \/ designed_edge IDLE RECORDING = true
  \/ stream_ended_edge IDLE RECORDING = true.
Proof.
  exact (proj1 (status_changes_on_sequential_runs
                  (lit "c1") 0 [Click (lit "c1") ReportCard.StartButton]
                  (MicSettled (lit "c1") 0 ReportCard.granted) (lit "c1")
                  IDLE RECORDING eq_refl eq_refl eq_refl)).
Defined.

(** On a completed card the Start control is not rendered. *)
Lemma completed_card_has_no_start_at (w : World) (cid : jsstring) :
  status_of w cid = Some COMPLETED ->
  step w (Click cid ReportCard.StartButton) = w.
Proof.
  unfold status_of. simpl. unfold user_event.
  destruct (find_item cid (items w)) as [it|]; [|reflexivity].
  simpl. intros [= Hs]. destruct (cards w !! cid); [|reflexivity].
  simpl. rewrite Hs. reflexivity.
Qed.

(** C1, on the runs where it fails.  Start stays on the page while
    [getUserMedia] is pending, and [startRecording] does not look at what
    an earlier call of it is doing: Start is clicked twice, the first
    acquisition rejects, the second resolves, and the card goes from
    [ERROR] to [RECORDING].  And the status [PROCESSING] is written by
    [stopRecording] only: when the stream of the recorder ends by itself,
    [onstop] submits the recording all the same, and the card goes from
    [RECORDING] to [COMPLETED], or to [ERROR].  Neither is an enumerated
    edge. *)
Theorem C1_status_leaves_enumerated_edges :
  let c1 := lit "c1" in
  let denied :=
    run (boot c1 0) [ Click c1 ReportCard.StartButton;
                      Click c1 ReportCard.StartButton;
                      MicSettled c1 0 ReportCard.getUserMedia_rejected ] in
  let ended :=
    run (boot c1 0) [ Click c1 ReportCard.StartButton;
                      MicSettled c1 0 ReportCard.granted;
                      StreamEnded c1;
                      StopDispatched c1 ] in
  let answer t :=
    ReportSettled c1 0 (geminiService.resolved (lit "QUJD")) t in
  (status_of denied c1 = Some ERROR
   /\ status_of (step denied (MicSettled c1 0 ReportCard.granted)) c1 = Some RECORDING
   /\ enumerated_edge ERROR RECORDING = false)
  /\ (status_of ended c1 = Some RECORDING
      /\ status_of (step ended (answer (geminiService.resolved (Some (lit "- Task A done")))))
           c1 = Some COMPLETED
      /\ status_of
           (step ended
              (answer (geminiService.rejected
                         (geminiService.thrown_value (Some (lit "quota exceeded"))))))
           c1 = Some ERROR
      /\ enumerated_edge RECORDING COMPLETED = false
      /\ enumerated_edge RECORDING ERROR = false).
Proof. cbv zeta. repeat split; vm_compute; reflexivity. Qed.

(** A completed card offers the summary and Copy, besides the controls
    that every card has: Start, Stop and Reset reach no handler, and no
    click or input on the card changes its status. *)
Lemma completed_card_is_final (w : World) (cid : jsstring) (c : ReportCard.Control)
    (v : jsstring) :
  status_of w cid = Some COMPLETED ->
  step w (Click cid ReportCard.StartButton) = w
  /\ step w (Click cid ReportCard.StopButton) = w
  /\ step w (Click cid ReportCard.ResetButton) = w
  /\ (status_of (step w (Click cid c)) cid = Some COMPLETED
      \/ status_of (step w (Click cid c)) cid = None)
  /\ status_of (step w (Input cid c v)) cid = Some COMPLETED.
Proof.
  intros Hs. pose proof Hs as Hs0. unfold status_of in Hs.
  destruct (find_item cid (items w)) as [it|] eqn:Hf; [|discriminate].
  injection Hs as Hs. destruct (find_item_Some _ _ _ Hf) as [_ Hid].
  assert (Hgate : forall c0,
             c0 = ReportCard.StartButton \/ c0 = ReportCard.StopButton
             \/ c0 = ReportCard.ResetButton ->
             step w (Click cid c0) = w).
  { intros c0 Hc0. simpl. unfold user_event. rewrite Hf.
    destruct (cards w !! cid); [|reflexivity].
    destruct Hc0 as [-> | [-> | ->]]; simpl; rewrite Hs; reflexivity. }
  split; [apply Hgate; auto |]. split; [apply Hgate; auto |].
  split; [apply Hgate; auto |]. split.
  - simpl. unfold user_event. rewrite Hf.
    destruct (cards w !! cid) as [l|]; [|left; exact Hs0].
    destruct (ReportCard.rendered _ l c) eqn:Hr; [|left; exact Hs0].
    destruct c; simpl in *; rewrite ?Hs in Hr; try discriminate Hr;
      unfold ReportCard.removeFile; simpl; rewrite ?Hid;
      try (left; exact Hs0);
      try (left; rewrite status_of_update by reflexivity;
           rewrite status_of_same_items, Hs0; simpl;
           rewrite bool_decide_eq_true_2 by reflexivity; reflexivity).
    right. unfold status_of. simpl. rewrite find_item_deleteItem.
    rewrite bool_decide_eq_true_2 by reflexivity. reflexivity.
  - simpl. unfold user_event. rewrite Hf.
    destruct (cards w !! cid) as [l|]; [|exact Hs0].
    destruct (ReportCard.rendered _ l c) eqn:Hr; [|exact Hs0].
    destruct c; simpl in *;
      unfold ReportCard.onChange_speakerName, ReportCard.onChange_contextText,
        ReportCard.onChange_text; simpl; rewrite ?Hid;
      try exact Hs0;
      rewrite status_of_update by reflexivity;
      rewrite status_of_same_items, Hs0; simpl;
      rewrite bool_decide_eq_true_2 by reflexivity; reflexivity.
Qed.

(** The page as the record of its three states. *)
Lemma world_eta (w : World) : w = mkWorld (items w) (language w) (cards w).
Proof. destruct w; reflexivity. Qed.

(** Stop on a card that shows [RECORDING] and whose recorder records. *)
Lemma stop_click_on_running_recorder
    (w : World) (cid : jsstring) (it : ReportItem) (l : ReportCard.Local) :
  find_item cid (items w) = Some it ->
  cards w !! cid = Some l ->
  status it = RECORDING ->
  ReportCard.ref_is_recording l = true ->
  step w (Click cid ReportCard.StopButton)
  = mkWorld
      (App.updateItem cid
         (mkPartial None None (Some PROCESSING) None None
            (Some (ReportCard.timer l)) None None None) (items w))
      (language w)
      (<[cid := ReportCard.clearInterval_of_ref true (ReportCard.stop_ref l)]> (cards w)).
Proof.
  intros Hf Hl Hs Hrun. destruct (find_item_Some _ _ _ Hf) as [_ Hid].
  simpl. unfold user_event. rewrite Hf, Hl. simpl. rewrite Hs. simpl.
  unfold ReportCard.stopRecording. rewrite Hrun. simpl. rewrite Hid. reflexivity.
Qed.

(** Stop where the control is not on the page, or where the recorder of
    the card is not recording. *)
Lemma stop_click_without_running_recorder (w : World) (cid : jsstring) :
  status_of w cid <> Some RECORDING
  \/ (exists l, cards w !! cid = Some l /\ ReportCard.ref_is_recording l = false) ->
  step w (Click cid ReportCard.StopButton) = w.
Proof.
  intros H. simpl. unfold user_event, status_of in *.
  destruct (find_item cid (items w)) as [it|]; [|reflexivity].
  destruct (cards w !! cid) as [l|] eqn:Hl; [|reflexivity].
  simpl. destruct (bool_decide (status it = RECORDING)) eqn:Hb; [|reflexivity].
  apply bool_decide_eq_true_1 in Hb.
  destruct H as [H | (l0 & Hl0 & Hrf)]; [exfalso; apply H; simpl; congruence |].
  injection Hl0 as <-. unfold ReportCard.stopRecording. rewrite Hrf.
  rewrite insert_id by exact Hl. symmetry. apply world_eta.
Qed.

(** [stopRecording] is guarded by the state of the recorder, not by the
    status of the card.  As long as no stream has ended by itself, a card that shows [RECORDING] has a recorder that
    records, and clicking Stop on it stops the recorder, sets the card to
    [PROCESSING] with [durationSeconds] the value of the timer, clears the
    interval, and queues exactly one stop event; the dispatch of a stop
    event makes exactly one [handleProcessing] call, with the blob of type
    audio/webm.  In any page, the same holds of a recording card whose
    recorder records, and a click on Stop changes nothing when the card is
    in another status, Stop not being on the page, or when its recorder is
    not recording. *)
Theorem stop_click_on_recording_card
    (uuid : jsstring) (now : Z) (trace : list Event) (cid : jsstring) :
  no_stream_ends trace = true ->
  let w := run (boot uuid now) trace in
  let w' := step w (Click cid ReportCard.StopButton) in
  (status_of w cid = Some RECORDING ->
     exists l l' q,
       cards w !! cid = Some l /\ cards w' !! cid = Some l'
       /\ ReportCard.mediaRecorderRef l
          = Some (ReportCard.mkRecorder ReportCard.recording q)
       /\ items w'
          = App.updateItem cid
              (mkPartial None None (Some PROCESSING) None None
                 (Some (ReportCard.timer l)) None None None) (items w)
       /\ status_of w' cid = Some PROCESSING
       /\ durationSeconds <$> find_item cid (items w') = Some (ReportCard.timer l)
       /\ ReportCard.pendingStop l' = ReportCard.pendingStop l ++ [q]
       /\ ReportCard.awaitingReport l' = ReportCard.awaitingReport l
       /\ ReportCard.ref_is_recording l' = false
       /\ ReportCard.timerIntervalRef l' = None)
  /\ (status_of w cid <> Some RECORDING -> w' = w)
  /\ (forall w0 it l,
        find_item cid (items w0) = Some it -> cards w0 !! cid = Some l ->
        status it = RECORDING -> ReportCard.ref_is_recording l = true ->
        let w0' := step w0 (Click cid ReportCard.StopButton) in
        status_of w0' cid = Some PROCESSING
        /\ durationSeconds <$> find_item cid (items w0') = Some (ReportCard.timer l)
        /\ exists l' q,
             cards w0' !! cid = Some l'
             /\ ReportCard.pendingStop l' = ReportCard.pendingStop l ++ [q]
             /\ ReportCard.awaitingReport l' = ReportCard.awaitingReport l
             /\ ReportCard.ref_is_recording l' = false)
  /\ (forall w0 l,
        cards w0 !! cid = Some l -> ReportCard.ref_is_recording l = false ->
        step w0 (Click cid ReportCard.StopButton) = w0)
  /\ (forall p l its,
        ReportCard.ref_is_recording l = false ->
        ReportCard.stopRecording p l its = (l, its))
  /\ (forall w0 l p rest,
        cards w0 !! cid = Some l -> ReportCard.pendingStop l = p :: rest ->
        exists l'' blob,
          cards (step w0 (StopDispatched cid)) !! cid = Some l''
          /\ ReportCard.pendingStop l'' = rest
          /\ ReportCard.awaitingReport l'' = ReportCard.awaitingReport l ++ [(p, blob)]
          /\ type blob = lit "audio/webm"
          /\ items (step w0 (StopDispatched cid)) = items w0).
Proof.
  intros Hno. cbv zeta.
  assert (Hstop : forall w0 it l,
             find_item cid (items w0) = Some it -> cards w0 !! cid = Some l ->
             status it = RECORDING -> ReportCard.ref_is_recording l = true ->
             exists q,
               ReportCard.mediaRecorderRef l
               = Some (ReportCard.mkRecorder ReportCard.recording q)
               /\ items (step w0 (Click cid ReportCard.StopButton))
                  = App.updateItem cid
                      (mkPartial None None (Some PROCESSING) None None
                         (Some (ReportCard.timer l)) None None None) (items w0)
               /\ status_of (step w0 (Click cid ReportCard.StopButton)) cid
                  = Some PROCESSING
               /\ durationSeconds <$> find_item cid (items (step w0 (Click cid ReportCard.StopButton)))
                  = Some (ReportCard.timer l)
               /\ exists l',
                    cards (step w0 (Click cid ReportCard.StopButton)) !! cid = Some l'
                    /\ ReportCard.pendingStop l' = ReportCard.pendingStop l ++ [q]
                    /\ ReportCard.awaitingReport l' = ReportCard.awaitingReport l
                    /\ ReportCard.ref_is_recording l' = false
                    /\ ReportCard.timerIntervalRef l' = None).
  { intros w0 it l Hf Hl Hs Hrun.
    rewrite (stop_click_on_running_recorder w0 cid it l Hf Hl Hs Hrun).
    destruct (ref_is_recording_Some l Hrun) as (q & Hq).
    destruct (clearInterval_of_ref_fields true (ReportCard.stop_ref l))
      as (E1 & E2 & E3 & _ & E5 & _).
    destruct (stop_ref_fields l _ Hq) as (F1 & F2 & F3 & _ & F5 & _).
    exists q. split; [exact Hq |]. split; [reflexivity |]. split.
    { rewrite status_of_update by reflexivity. unfold status_of. simpl. rewrite Hf. simpl.
      rewrite bool_decide_eq_true_2 by reflexivity. reflexivity. }
    split.
    { simpl. rewrite find_item_updateItem by reflexivity. rewrite Hf. simpl.
      rewrite bool_decide_eq_true_2 by reflexivity. reflexivity. }
    exists (ReportCard.clearInterval_of_ref true (ReportCard.stop_ref l)).
    split; [apply lookup_insert_eq |].
    split; [rewrite E2, F2; reflexivity |].
    split; [rewrite E3, F3; reflexivity |].
    split.
    { unfold ReportCard.ref_is_recording. rewrite E5, F5. reflexivity. }
    unfold ReportCard.clearInterval_of_ref.
    destruct (ReportCard.timerIntervalRef (ReportCard.stop_ref l)) eqn:Ht;
      [reflexivity | exact Ht]. }
  split; [|split; [|split; [|split; [|split]]]].
  - intros Hs.
    destruct (recorder_runs_reachable uuid now trace Hno) as [_ Hit].
    unfold status_of in Hs.
    destruct (find_item cid (items (run (boot uuid now) trace))) as [it|] eqn:Hf;
      [|discriminate].
    injection Hs as Hs. destruct (Hit cid it Hf) as (l & Hl & Hrun).
    specialize (Hrun Hs).
    destruct (Hstop _ it l Hf Hl Hs Hrun)
      as (q & Hq & Hitems & Hst & Hdur & l' & Hl' & H1 & H2 & H3 & H4).
    exists l, l', q. auto 12.
  - intros Hs. apply stop_click_without_running_recorder. left. exact Hs.
  - intros w0 it l Hf Hl Hs Hrun. cbv zeta.
    destruct (Hstop _ it l Hf Hl Hs Hrun)
      as (q & Hq & Hitems & Hst & Hdur & l' & Hl' & H1 & H2 & H3 & H4).
    split; [exact Hst |]. split; [exact Hdur |]. exists l', q. auto.
  - intros w0 l Hl Hrf. apply stop_click_without_running_recorder. right. eauto.
  - intros p l its Hrec. unfold ReportCard.stopRecording. rewrite Hrec. reflexivity.
  - intros w0 l p rest Hl Hps. simpl. unfold card_event. rewrite Hl, Hps. simpl.
    eexists _, _. split; [apply lookup_insert_eq |]. simpl.
    split; [reflexivity |]. split; [reflexivity |]. split; reflexivity.
Qed.

Lemma stop_click_on_recording_card_witness :
  let w := run (boot (lit "c1") 0)
             [ Click (lit "c1") ReportCard.StartButton;
               MicSettled (lit "c1") 0 ReportCard.granted;
               Tick (lit "c1") 1; Tick (lit "c1") 1 ] in
  status_of w (lit "c1") = Some RECORDING
  /\ status_of (step w (Click (lit "c1") ReportCard.StopButton)) (lit "c1")
     = Some PROCESSING
  /\ durationSeconds
       <$> find_item (lit "c1") (items (step w (Click (lit "c1") ReportCard.StopButton)))
     = Some 2%nat.
Proof.
  cbv zeta. split; [reflexivity |].
  destruct (proj1 (stop_click_on_recording_card (lit "c1") 0
                     [ Click (lit "c1") ReportCard.StartButton;
                       MicSettled (lit "c1") 0 ReportCard.granted;
                       Tick (lit "c1") 1; Tick (lit "c1") 1 ]
                     (lit "c1") eq_refl) eq_refl)
    as (l & l' & q & Hl & _ & _ & _ & Hst & Hdur & _).
  split; [exact Hst |]. rewrite Hdur.
  vm_compute in Hl. injection Hl as <-. reflexivity.
Defined.

(** C3, on the run where it fails: the stream of the recorder has ended by
    itself (the microphone was unplugged) two seconds into the recording.
    Nothing in the component handles that: the card still shows
    [RECORDING] and Stop, and the guard of [stopRecording], which looks at
    the recorder, makes the click on Stop do nothing: the card does not go
    to [PROCESSING] and [durationSeconds] stays 0. *)
Theorem C3_stop_after_stream_ended_does_nothing :
  let w := run (boot (lit "c1") 0)
             [ Click (lit "c1") ReportCard.StartButton;
               MicSettled (lit "c1") 0 ReportCard.granted;
               Tick (lit "c1") 1; Tick (lit "c1") 1;
               StreamEnded (lit "c1") ] in
  status_of w (lit "c1") = Some RECORDING
  /\ step w (Click (lit "c1") ReportCard.StopButton) = w
  /\ status_of (step w (Click (lit "c1") ReportCard.StopButton)) (lit "c1")
     <> Some PROCESSING
  /\ durationSeconds
       <$> find_item (lit "c1") (items (step w (Click (lit "c1") ReportCard.StopButton)))
     = Some 0%nat.
Proof.
  cbv zeta.
  assert (Hsame :
            step (run (boot (lit "c1") 0)
                    [ Click (lit "c1") ReportCard.StartButton;
                      MicSettled (lit "c1") 0 ReportCard.granted;
                      Tick (lit "c1") 1; Tick (lit "c1") 1;
                      StreamEnded (lit "c1") ])
              (Click (lit "c1") ReportCard.StopButton)
            = run (boot (lit "c1") 0)
                [ Click (lit "c1") ReportCard.StartButton;
                  MicSettled (lit "c1") 0 ReportCard.granted;
                  Tick (lit "c1") 1; Tick (lit "c1") 1;
                  StreamEnded (lit "c1") ]).
  { apply stop_click_without_running_recorder. right.
    eexists. split; [vm_compute; reflexivity | reflexivity]. }
  split; [reflexivity |]. split; [exact Hsame |]. rewrite Hsame.
  split; [vm_compute; discriminate | reflexivity].
Qed.

(** ** What a submission completes with *)

(** When the remote call of a submission resolves, the card is completed
    with the returned text, or, when the text is missing or empty, with the
    placeholder of the language in the props that [handleProcessing] closed
    over. *)
Lemma resolved_submission_completes
    (w : World) (cid : jsstring) (k : nat) (l : ReportCard.Local)
    (p : ReportCard.Props) (blob : Blob) (b64 : jsstring) (t : option jsstring) :
  cards w !! cid = Some l ->
  ReportCard.awaitingReport l !! k = Some (p, blob) ->
  forall i it, items w !! i = Some it -> id it = id (ReportCard.item p) ->
    exists it',
      items (step w (ReportSettled cid k (geminiService.resolved b64)
                       (geminiService.resolved t))) !! i = Some it'
      /\ status it' = COMPLETED
      /\ text it' = match t with
                    | Some (c :: m) => c :: m
                    | Some [] | None =>
                        match ReportCard.language p with
                        | en => lit "No new updates detected."
                        | de => lit "Keine neuen Updates erkannt."
                        end
                    end
      /\ durationSeconds it' = durationSeconds it
      /\ contextText it' = contextText it /\ contextFile it' = contextFile it.
Proof.
  intros Hl Hp i it Hi Hid.
  assert (Hstep :
            items (step w (ReportSettled cid k (geminiService.resolved b64)
                             (geminiService.resolved t)))
            = ReportCard.handleProcessing_resume p
                (geminiService.resolved
                   (geminiService.or_else t
                      (geminiService.emptyFallback (ReportCard.language p))))
                (items w)).
  { cbn [step]. unfold card_event. rewrite Hl. cbn [mbind option_bind].
    rewrite Hp. reflexivity. }
  rewrite Hstep. cbn [ReportCard.handleProcessing_resume].
  rewrite updateItem_lookup, Hi. cbn [fmap option_fmap option_map].
  rewrite bool_decide_eq_true_2 by exact Hid.
  eexists. split; [reflexivity |]. split; [reflexivity |]. split.
  - cbn [text App.spread u_text default].
    destruct t as [[|c m]|]; destruct (ReportCard.language p); reflexivity.
  - repeat split; reflexivity.
Qed.

Lemma resolved_submission_completes_witness :
  exists it',
    items (step
             (run (boot (lit "c1") 0)
                [ Click (lit "c1") ReportCard.StartButton;
                  MicSettled (lit "c1") 0 ReportCard.granted;
                  Tick (lit "c1") 1; Tick (lit "c1") 1; Tick (lit "c1") 1;
                  Tick (lit "c1") 1; Tick (lit "c1") 1;
                  Click (lit "c1") ReportCard.StopButton;
                  StopDispatched (lit "c1") ])
             (ReportSettled (lit "c1") 0 (geminiService.resolved (lit "QUJD"))
                (geminiService.resolved (Some (lit "- Task A done"))))) !! 0%nat
    = Some it'
    /\ status it' = COMPLETED /\ text it' = lit "- Task A done"
    /\ durationSeconds it' = 5%nat.
Proof.
  edestruct (resolved_submission_completes
               (run (boot (lit "c1") 0)
                  [ Click (lit "c1") ReportCard.StartButton;
                    MicSettled (lit "c1") 0 ReportCard.granted;
                    Tick (lit "c1") 1; Tick (lit "c1") 1; Tick (lit "c1") 1;
                    Tick (lit "c1") 1; Tick (lit "c1") 1;
                    Click (lit "c1") ReportCard.StopButton;
                    StopDispatched (lit "c1") ])
               (lit "c1") 0)
    with (b64 := lit "QUJD") (t := Some (lit "- Task A done")) (i := 0%nat)
    as (it' & Hit' & Hs & Ht & Hd & _).
  - vm_compute. reflexivity.
  - vm_compute. reflexivity.
  - vm_compute. reflexivity.
  - reflexivity.
  - exists it'. split; [exact Hit' |]. split; [exact Hs |]. split; [exact Ht | exact Hd].
Defined.

Lemma completed_card_is_final_witness :
  let completed :=
    run (boot (lit "c1") 0)
      [ Click (lit "c1") ReportCard.StartButton;
        MicSettled (lit "c1") 0 ReportCard.granted;
        Click (lit "c1") ReportCard.StopButton;
        StopDispatched (lit "c1");
        ReportSettled (lit "c1") 0 (geminiService.resolved (lit "QUJD"))
          (geminiService.resolved (Some (lit "- Task A done"))) ] in
  status_of completed (lit "c1") = Some COMPLETED
  /\ step completed (Click (lit "c1") ReportCard.StartButton) = completed.
Proof.
  cbv zeta. split; [reflexivity |].
  exact (proj1 (completed_card_is_final
                  (run (boot (lit "c1") 0)
                     [ Click (lit "c1") ReportCard.StartButton;
                       MicSettled (lit "c1") 0 ReportCard.granted;
                       Click (lit "c1") ReportCard.StopButton;
                       StopDispatched (lit "c1");
                       ReportSettled (lit "c1") 0 (geminiService.resolved (lit "QUJD"))
                         (geminiService.resolved (Some (lit "- Task A done"))) ])
                  (lit "c1") ReportCard.StartButton [] eq_refl)).
Defined.

(** Other edges that a re-entered Start opens: the second acquisition
    resolves after the first recording was stopped, or after it was
    completed, and the card is set back to [RECORDING]; in the second run
    the completed text is still on the card. *)
Example reentrant_start_other_edges :
  let c1 := lit "c1" in
  let stopped :=
    run (boot c1 0) [ Click c1 ReportCard.StartButton; Click c1 ReportCard.StartButton;
                      MicSettled c1 0 ReportCard.granted;
                      Click c1 ReportCard.StopButton ] in
  let completed :=
    run stopped [ StopDispatched c1;
                  ReportSettled c1 0 (geminiService.resolved (lit "QUJD"))
                    (geminiService.resolved (Some (lit "- Task A done"))) ] in
  sequential (boot c1 0)
    [ Click c1 ReportCard.StartButton; Click c1 ReportCard.StartButton ] = false
  /\ status_of stopped c1 = Some PROCESSING
  /\ status_of (step stopped (MicSettled c1 0 ReportCard.granted)) c1 = Some RECORDING
  /\ status_of completed c1 = Some COMPLETED
  /\ status_of (step completed (MicSettled c1 0 ReportCard.granted)) c1 = Some RECORDING
  /\ text <$> find_item c1 (items (step completed (MicSettled c1 0 ReportCard.granted)))
     = Some (lit "- Task A done").
Proof. cbv zeta. repeat split; vm_compute; reflexivity. Qed.

(** * Further properties of the code *)

(** ** [deleteItem] and how the collection operations compose *)

Lemma deleteItem_elem_of (id0 : jsstring) (prev : list ReportItem) (it : ReportItem) :
  it ∈ App.deleteItem id0 prev <-> it ∈ prev /\ id it <> id0.
Proof.
  unfold App.deleteItem. rewrite !list_elem_of_In, filter_In.
  split; intros [Hin Hb]; (split; [exact Hin |]).
  - intros Heq. rewrite bool_decide_eq_true_2 in Hb by exact Heq. discriminate Hb.
  - rewrite bool_decide_eq_false_2 by exact Hb. reflexivity.
Qed.

Lemma deleteItem_sublist (id0 : jsstring) (prev : list ReportItem) :
  sublist (App.deleteItem id0 prev) prev.
Proof.
  unfold App.deleteItem. induction prev as [|it prev IH]; simpl; [constructor |].
  destruct (negb _); [apply sublist_skip | apply sublist_cons]; exact IH.
Qed.

Lemma deleteItem_absent (id0 : jsstring) (prev : list ReportItem) :
  (forall it, it ∈ prev -> id it <> id0) -> App.deleteItem id0 prev = prev.
Proof.
  intros Habs. unfold App.deleteItem.
  induction prev as [|it prev IH]; simpl; [reflexivity |].
  rewrite bool_decide_eq_false_2 by (apply Habs; left). simpl.
  f_equal. apply IH. intros it' Hin. apply Habs. right. exact Hin.
Qed.

(** [deleteItem] keeps exactly the items with another id, in their order;
    the card is gone from the collection, every other card is found as
    before; deleting again, or deleting an id that no item has, returns the
    same collection. *)
Theorem deleteItem_removes_the_card (id0 : jsstring) (prev : list ReportItem) :
  (forall it, it ∈ App.deleteItem id0 prev <-> it ∈ prev /\ id it <> id0)
  /\ sublist (App.deleteItem id0 prev) prev
  /\ find_item id0 (App.deleteItem id0 prev) = None
  /\ (forall cid, cid <> id0 ->
        find_item cid (App.deleteItem id0 prev) = find_item cid prev)
  /\ App.deleteItem id0 (App.deleteItem id0 prev) = App.deleteItem id0 prev
  /\ ((forall it, it ∈ prev -> id it <> id0) -> App.deleteItem id0 prev = prev)
  /\ length (App.deleteItem id0 prev) <= length prev.
Proof.
  split; [apply deleteItem_elem_of |].
  split; [apply deleteItem_sublist |].
  split; [rewrite find_item_deleteItem, bool_decide_eq_true_2 by reflexivity; reflexivity |].
  split.
  { intros cid Hne. rewrite find_item_deleteItem.
    rewrite bool_decide_eq_false_2 by exact Hne. reflexivity. }
  split.
  { apply deleteItem_absent. intros it Hin. apply deleteItem_elem_of in Hin. tauto. }
  split; [apply deleteItem_absent | apply deleteItem_length].
Qed.

Lemma spread_assign (it : ReportItem) (u1 u2 : PartialItem) :
  App.spread (App.spread it u1) u2 = App.spread it (assign u1 u2).
Proof.
  destruct u1 as [a1 b1 c1 d1 e1 f1 g1 h1 i1], u2 as [a2 b2 c2 d2 e2 f2 g2 h2 i2].
  unfold App.spread, assign. simpl.
  destruct a2, b2, c2, d2, e2, f2, g2, h2, i2; reflexivity.
Qed.

(** Creating a card under a fresh id and deleting it gives the collection
    back; deletions commute; an update of a deleted card, such as the late
    answer of a submission, changes nothing.  For an update that has no
    [id] key, as all the updates of the components are: the update and the
    deletion of another card commute, and the update followed by the
    deletion of its card is the deletion alone.  Both need that the update
    has no [id] key: an update that renames its card takes it out of the
    reach of the deletion. *)
Theorem deleteItem_composes
    (id1 id2 : jsstring) (now : Z) (u : PartialItem) (prev : list ReportItem) :
  (find_item id1 prev = None ->
     App.deleteItem id1 (App.addNewCard id1 now prev) = prev)
  /\ App.deleteItem id1 (App.deleteItem id2 prev)
     = App.deleteItem id2 (App.deleteItem id1 prev)
  /\ (u_id u = None -> id1 <> id2 ->
        App.deleteItem id1 (App.updateItem id2 u prev)
        = App.updateItem id2 u (App.deleteItem id1 prev))
  /\ App.updateItem id1 u (App.deleteItem id1 prev) = App.deleteItem id1 prev
  /\ (u_id u = None ->
        App.deleteItem id1 (App.updateItem id1 u prev) = App.deleteItem id1 prev)
  /\ (let a := lit "a" in
      let b := lit "b" in
      let renaming := mkPartial (Some b) None None None None None None None None in
      let one := App.addNewCard a 0 [] in
      App.deleteItem a one = []
      /\ id <$> App.deleteItem a (App.updateItem a renaming one) = [b]
      /\ id <$> App.deleteItem b (App.updateItem a renaming one) = []
      /\ id <$> App.updateItem a renaming (App.deleteItem b one) = [b]).
Proof.
  split.
  { intros Hfresh. rewrite find_item_None in Hfresh.
    unfold App.addNewCard, App.deleteItem. cbv zeta. rewrite List.filter_app. simpl.
    rewrite bool_decide_eq_true_2 by reflexivity. simpl. rewrite app_nil_r.
    apply (deleteItem_absent id1 prev Hfresh). }
  split.
  { unfold App.deleteItem. induction prev as [|it prev IH]; simpl; [reflexivity |].
    destruct (bool_decide (id it = id2)) eqn:H2, (bool_decide (id it = id1)) eqn:H1;
      simpl; rewrite ?H1, ?H2; simpl; rewrite IH; reflexivity. }
  split.
  { intros Hu Hne. unfold App.deleteItem, App.updateItem.
    induction prev as [|it prev IH]; simpl; [reflexivity |].
    destruct (bool_decide (id it = id2)) eqn:H2.
    - rewrite spread_id by exact Hu.
      apply bool_decide_eq_true_1 in H2.
      rewrite bool_decide_eq_false_2 by congruence. simpl.
      rewrite bool_decide_eq_true_2 by exact H2. rewrite IH. reflexivity.
    - destruct (bool_decide (id it = id1)) eqn:H1; simpl; rewrite ?H2, IH; reflexivity. }
  split.
  { apply updateItem_absent. intros it Hin. apply deleteItem_elem_of in Hin. tauto. }
  split; [| cbv zeta; repeat split; vm_compute; reflexivity].
  intros Hu. unfold App.deleteItem, App.updateItem.
  induction prev as [|it prev IH]; simpl; [reflexivity |].
  destruct (bool_decide (id it = id1)) eqn:H1.
  - rewrite spread_id by exact Hu. rewrite H1. simpl. exact IH.
  - rewrite H1. simpl. rewrite IH. reflexivity.
Qed.

(** Two updates of one card are the update by the merged fields, a later
    key winning; updates of two different cards commute; an update applied
    twice is the update applied once. *)
Theorem updateItem_composes
    (id1 id2 : jsstring) (u1 u2 : PartialItem) (prev : list ReportItem) :
  (u_id u1 = None ->
     App.updateItem id1 u2 (App.updateItem id1 u1 prev)
     = App.updateItem id1 (assign u1 u2) prev)
  /\ (u_id u1 = None -> u_id u2 = None -> id1 <> id2 ->
        App.updateItem id1 u1 (App.updateItem id2 u2 prev)
        = App.updateItem id2 u2 (App.updateItem id1 u1 prev))
  /\ (u_id u1 = None ->
        App.updateItem id1 u1 (App.updateItem id1 u1 prev) = App.updateItem id1 u1 prev).
Proof.
  split.
  { intros Hu. apply updateItem_twice; [exact Hu |]. intros it. apply spread_assign. }
  split.
  { intros Hu1 Hu2 Hne. unfold App.updateItem. rewrite !map_map. apply map_ext.
    intros it.
    destruct (bool_decide (id it = id1)) eqn:H1, (bool_decide (id it = id2)) eqn:H2;
      rewrite ?spread_id by assumption; rewrite ?H1, ?H2; try reflexivity.
    apply bool_decide_eq_true_1 in H1, H2. congruence. }
  intros Hu. apply updateItem_twice; [exact Hu |]. intros it.
  rewrite spread_assign. f_equal.
  destruct u1 as [a b c d e f g h i]. unfold assign. simpl.
  destruct a, b, c, d, e, f, g, h, i; reflexivity.
Qed.

(** ** What [generateReportFromAudio] settles with *)

(** [generateReportFromAudio] never resolves with the empty string and
    never rejects with a value that has no message: it resolves with what
    the remote call returned, or with the placeholder of the language; it
    rejects with an [Error] whose message is not empty.  When the encoding
    fails the remote call has no part in the result. *)
Theorem generateReportFromAudio_never_settles_empty
    (blobToBase64 : Blob -> geminiService.Outcome jsstring)
    (generateContent : geminiService.Request -> geminiService.Outcome (option jsstring))
    (audioBlob : Blob) (mime : jsstring) (lang : TargetLanguage)
    (ct : option jsstring) (cf : option ContextFile) :
  match geminiService.generateReportFromAudio blobToBase64 generateContent
          audioBlob mime lang ct cf with
  | geminiService.resolved t =>
      t <> []
      /\ exists req r,
           geminiService.requestSent blobToBase64 audioBlob mime lang ct cf = Some req
           /\ generateContent req = geminiService.resolved r
           /\ (t = geminiService.emptyFallback lang \/ r = Some t)
  | geminiService.rejected e =>
      exists m, geminiService.message e = Some m /\ m <> []
  end
  /\ (forall e other_remote,
        blobToBase64 audioBlob = geminiService.rejected e ->
        geminiService.requestSent blobToBase64 audioBlob mime lang ct cf = None
        /\ geminiService.generateReportFromAudio blobToBase64 other_remote
             audioBlob mime lang ct cf
           = geminiService.generateReportFromAudio blobToBase64 generateContent
               audioBlob mime lang ct cf).
Proof.
  assert (Hthrown : forall e,
             exists m, geminiService.message (geminiService.rethrow e) = Some m /\ m <> []).
  { intros e. destruct (rethrow_has_message e) as (m & -> & Hm). exists m. auto. }
  unfold geminiService.generateReportFromAudio, geminiService.requestSent. split.
  - destruct (blobToBase64 audioBlob) as [b64|e]; [|apply Hthrown].
    cbv zeta. destruct (generateContent _) as [r|e] eqn:Hg; [|apply Hthrown].
    split; [apply or_else_nonempty, emptyFallback_nonempty |].
    eexists _, r. split; [reflexivity |]. split; [exact Hg |].
    destruct r as [[|c s]|]; simpl; auto.
  - intros e other_remote He. rewrite He. split; reflexivity.
Qed.

(** The target language reaches the request in the system instruction and
    in the last part only: for two languages every part before the last is
    the same, and for two different languages the last parts, the system
    instructions and the placeholders differ. *)
Theorem language_changes_only_the_instructions
    (base64Audio mime : jsstring) (lang1 lang2 : TargetLanguage)
    (ct : option jsstring) (cf : option ContextFile) :
  removelast (geminiService.buildParts base64Audio mime lang1 ct cf)
  = removelast (geminiService.buildParts base64Audio mime lang2 ct cf)
  /\ length (geminiService.buildParts base64Audio mime lang1 ct cf)
     = length (geminiService.buildParts base64Audio mime lang2 ct cf)
  /\ (lang1 = lang2
      \/ (geminiService.finalPrompt lang1 <> geminiService.finalPrompt lang2
          /\ geminiService.getSystemInstruction lang1
             <> geminiService.getSystemInstruction lang2
          /\ geminiService.emptyFallback lang1 <> geminiService.emptyFallback lang2)).
Proof.
  unfold geminiService.buildParts. split; [|split].
  - rewrite !app_assoc, !removelast_last. reflexivity.
  - rewrite !length_app. reflexivity.
  - destruct lang1, lang2; auto; right; repeat split; intros H;
      apply (f_equal (@length N)) in H; vm_compute in H; discriminate H.
Qed.

(** The context marker of the card and the request agree: [hasContext] is
    true exactly when a submission of the same context text and file
    carries a context part, and false exactly when its parts are the audio
    and the closing instruction alone. *)
Theorem hasContext_iff_request_has_context
    (p : ReportCard.Props) (base64Audio mime : jsstring) (lang : TargetLanguage) :
  let ps := geminiService.buildParts base64Audio mime lang
              (contextText (ReportCard.item p)) (contextFile (ReportCard.item p)) in
  (ReportCard.hasContext p = true <-> 2 < length ps)
  /\ (ReportCard.hasContext p = false
      <-> ps = [geminiService.inlineData mime base64Audio; geminiService.finalPrompt lang]).
Proof.
  cbv zeta. unfold ReportCard.hasContext, geminiService.buildParts.
  rewrite contextTextParts_spec.
  assert (Hsame : geminiService.hasContextText (contextText (ReportCard.item p))
                  = match contextText (ReportCard.item p) with
                    | Some s => (0 <? length (trim s))%nat
                    | None => false
                    end).
  { destruct (contextText (ReportCard.item p)) as [[|c s]|]; reflexivity. }
  rewrite <- Hsame.
  destruct (contextFile (ReportCard.item p)) as [f|],
           (contextText (ReportCard.item p)) as [s|];
    try destruct (geminiService.hasContextText (Some s)); simpl;
    (split; split; first [reflexivity | discriminate | lia | idtac]);
    intros H; first [lia | discriminate H | idtac].
Qed.

(** ** The recorded payload *)

(** The blob that a stop event submits is the concatenation, in order of
    arrival, of the chunks delivered since the recorder was made, tagged
    audio/webm; dropping the chunks of size zero changes no byte of it. *)
Theorem recorded_payload_is_concatenation
    (p : ReportCard.Props) (l : ReportCard.Local) (chunks : list Blob) :
  let l' := fold_left (fun l0 chunk => ReportCard.ondataavailable chunk l0) chunks
              (ReportCard.set_chunksRef [] l) in
  ReportCard.awaitingReport (ReportCard.recorder_onstop p l')
  = ReportCard.awaitingReport l
    ++ [(p, mkBlob (concat (map bytes chunks)) (lit "audio/webm"))]
  /\ ReportCard.chunksRef l'
     = List.filter (fun chunk => (0 <? length (bytes chunk))%nat) chunks.
Proof.
  cbv zeta.
  assert (Hfold : forall cs l0,
             let l1 := fold_left (fun l0 chunk => ReportCard.ondataavailable chunk l0) cs l0 in
             ReportCard.chunksRef l1
             = ReportCard.chunksRef l0
               ++ List.filter (fun chunk => (0 <? length (bytes chunk))%nat) cs
             /\ ReportCard.awaitingReport l1 = ReportCard.awaitingReport l0).
  { induction cs as [|c cs IH]; intros l0; simpl.
    - rewrite app_nil_r. split; reflexivity.
    - destruct (IH (ReportCard.ondataavailable c l0)) as [Hc Ha].
      cbv zeta in Hc, Ha. rewrite Hc, Ha. unfold ReportCard.ondataavailable.
      destruct (0 <? length (bytes c))%nat; simpl; [|split; reflexivity].
      rewrite <- app_assoc. split; reflexivity. }
  destruct (Hfold chunks (ReportCard.set_chunksRef [] l)) as [Hc Ha].
  cbv zeta in Hc, Ha.
  cbn [ReportCard.chunksRef ReportCard.awaitingReport ReportCard.set_chunksRef app]
    in Hc, Ha.
  split; [|exact Hc].
  unfold ReportCard.recorder_onstop, ReportCard.handleProcessing. cbv zeta.
  cbn [ReportCard.awaitingReport ReportCard.set_awaitingReport].
  rewrite Hc, Ha.
  assert (Hcat : forall cs : list Blob,
             concat (map bytes
                       (List.filter (fun chunk => (0 <? length (bytes chunk))%nat) cs))
             = concat (map bytes cs)).
  { induction cs as [|c cs IH]; [reflexivity |].
    cbn [List.filter map concat].
    destruct (0 <? length (bytes c))%nat eqn:Hlen; cbn [map concat]; rewrite IH;
      [reflexivity |].
    apply Nat.ltb_ge in Hlen. destruct (bytes c); [reflexivity | simpl in Hlen; lia]. }
  rewrite Hcat. reflexivity.
Qed.

(** ** [formatTime] *)

Lemma lit_inj (s1 s2 : string) : lit s1 = lit s2 -> s1 = s2.
Proof.
  revert s2. induction s1 as [|a1 s1 IH]; intros [|a2 s2]; simpl; intros H;
    try discriminate H; [reflexivity |].
  injection H as Ha Hs. f_equal; [|apply IH; exact Hs].
  rewrite <- (ascii_N_embedding a1), <- (ascii_N_embedding a2), Ha. reflexivity.
Qed.

Lemma number_toString_inj (m n : nat) : number_toString m = number_toString n -> m = n.
Proof.
  unfold number_toString. intros H. apply lit_inj in H.
  assert (Hu : Nat.to_uint m = Nat.to_uint n).
  { pose proof (NilEmpty.usu (Nat.to_uint m)) as Hm.
    pose proof (NilEmpty.usu (Nat.to_uint n)) as Hn.
    rewrite H in Hm. congruence. }
  rewrite <- (DecimalNat.Unsigned.of_to m), <- (DecimalNat.Unsigned.of_to n), Hu.
  reflexivity.
Qed.

(** The seconds field, for each of the sixty values it is computed from:
    two decimal digits that read back as the value. *)
Lemma seconds_field (n : nat) :
  n < 60 ->
  exists d1 d2 : N,
    ReportCard.padStart 2 48%N (number_toString n) = [d1; d2]
    /\ (48 <= d1 <= 53)%N /\ (48 <= d2 <= 57)%N
    /\ N.to_nat ((d1 - 48) * 10 + (d2 - 48)) = n.
Proof.
  intros Hn.
  assert (Hall : forallb
                   (fun n => match ReportCard.padStart 2 48%N (number_toString n) with
                             | [d1; d2] =>
                                 (48 <=? d1)%N && (d1 <=? 53)%N && (48 <=? d2)%N
                                 && (d2 <=? 57)%N
                                 && (N.to_nat ((d1 - 48) * 10 + (d2 - 48)) =? n)%nat
                             | _ => false
                             end) (seq 0 60) = true)
    by (vm_compute; reflexivity).
  rewrite forallb_forall in Hall. specialize (Hall n).
  rewrite in_seq in Hall. specialize (Hall ltac:(lia)).
  destruct (ReportCard.padStart 2 48%N (number_toString n)) as [|d1 [|d2 [|d3 t]]];
    try discriminate Hall.
  rewrite !andb_true_iff in Hall. destruct Hall as ((((H1 & H2) & H3) & H4) & H5).
  apply N.leb_le in H1, H2, H3, H4. apply Nat.eqb_eq in H5.
  exists d1, d2. repeat split; assumption.
Qed.

(** [formatTime] shows two different durations differently.  Its result is
    the decimal of the whole minutes, a colon, and a seconds field of
    exactly two digits that read back as the seconds below sixty; under a
    minute the minutes are "0", and the minutes are not reduced modulo
    sixty, so an hour shows as "60:00". *)
Theorem formatTime_shows_minutes_and_two_digit_seconds (a b : nat) :
  (ReportCard.formatTime a = ReportCard.formatTime b <-> a = b)
  /\ (exists d1 d2 : N,
        ReportCard.formatTime a = number_toString (a / 60) ++ [58%N; d1; d2]
        /\ (48 <= d1 <= 53)%N /\ (48 <= d2 <= 57)%N
        /\ N.to_nat ((d1 - 48) * 10 + (d2 - 48)) = a mod 60)
  /\ ReportCard.formatTime 0 = lit "0:00"
  /\ ReportCard.formatTime 59 = lit "0:59"
  /\ ReportCard.formatTime 60 = lit "1:00"
  /\ ReportCard.formatTime 3600 = lit "60:00".
Proof.
  assert (Hshape : forall s,
             exists d1 d2 : N,
               ReportCard.formatTime s = number_toString (s / 60) ++ [58%N; d1; d2]
               /\ (48 <= d1 <= 53)%N /\ (48 <= d2 <= 57)%N
               /\ N.to_nat ((d1 - 48) * 10 + (d2 - 48)) = s mod 60).
  { intros s.
    destruct (seconds_field (s mod 60)) as (d1 & d2 & Hpad & H1 & H2 & Hdec).
    { apply Nat.mod_upper_bound. discriminate. }
    exists d1, d2. unfold ReportCard.formatTime. cbv zeta. rewrite Hpad.
    repeat split; first [reflexivity | tauto | exact Hdec]. }
  split; [|split; [apply Hshape | repeat split; vm_compute; reflexivity]].
  split; [|intros ->; reflexivity].
  intros Heq.
  destruct (Hshape a) as (a1 & a2 & Ha & _ & _ & Hadec).
  destruct (Hshape b) as (b1 & b2 & Hb & _ & _ & Hbdec).
  rewrite Ha, Hb in Heq.
  apply app_inj_2 in Heq as [Hmin Hsec]; [|reflexivity].
  apply number_toString_inj in Hmin. injection Hsec as -> ->.
  rewrite (Nat.div_mod_eq a 60), (Nat.div_mod_eq b 60). congruence.
Qed.

(** ** What one event writes *)

(** One event does one of four things to the page: it selects a language
    or changes nothing; it appends a card under a fresh key; it deletes the
    card of the Delete button that was clicked; or it makes at most one
    [onUpdate] call, with one of the object literals of the component, on
    the card it belongs to, and replaces the state of that component. *)
Lemma step_shape (w : World) (e : Event) :
  map_Forall closures_ok (cards w) ->
  (exists lang, step w e = mkWorld (items w) lang (cards w)
                /\ (lang = language w \/ e = SetLanguage lang))
  \/ (exists uuid now,
        e = NewSpeaker uuid now /\ cards w !! uuid = None
        /\ find_item uuid (items w) = None
        /\ step w e = mkWorld (App.addNewCard uuid now (items w)) (language w)
                        (<[uuid := ReportCard.mountLocal]> (cards w)))
  \/ (exists cid l it,
        e = Click cid ReportCard.DeleteButton /\ cards w !! cid = Some l
        /\ find_item cid (items w) = Some it
        /\ step w e = mkWorld (App.deleteItem cid (items w)) (language w)
                        (<[cid := ReportCard.unmount_cleanup l]> (cards w)))
  \/ (exists cid l l' u,
        target e = Some cid /\ cards w !! cid = Some l /\ handler_write u
        /\ step w e = mkWorld (App.updateItem cid u (items w)) (language w)
                        (<[cid := l']> (cards w))).
Proof.
  intros Hcl.
  assert (Hnoop : forall w', w' = w ->
            (exists lang, w' = mkWorld (items w) lang (cards w)
                          /\ (lang = language w \/ e = SetLanguage lang))).
  { intros w' ->. exists (language w). split; [apply world_eta | left; reflexivity]. }
  assert (Hlocal : forall cid l l',
            target e = Some cid -> cards w !! cid = Some l ->
            exists cid0 l0 l0' u,
              target e = Some cid0 /\ cards w !! cid0 = Some l0 /\ handler_write u
              /\ mkWorld (items w) (language w) (<[cid := l']> (cards w))
                 = mkWorld (App.updateItem cid0 u (items w)) (language w)
                     (<[cid0 := l0']> (cards w))).
  { intros cid l l' Ht Hl. exists cid, l, l', no_updates.
    rewrite updateItem_no_updates. repeat split; try assumption. constructor. }
  destruct e as [uuid now|lang|cid c|cid c v|cid f|cid k o|cid ch|cid|cid k b r|cid k o|cid h|cid|cid k];
    simpl; unfold user_event, card_event.
  - (* NewSpeaker *)
    destruct (bool_decide (cards w !! uuid = None)) eqn:H1; simpl;
      [|left; apply Hnoop; reflexivity].
    destruct (bool_decide (find_item uuid (items w) = None)) eqn:H2;
      [|left; apply Hnoop; reflexivity].
    apply bool_decide_eq_true_1 in H1, H2. right; left. eauto 10.
  - left. exists lang. split; [reflexivity | right; reflexivity].
  - (* Click *)
    destruct (find_item cid (items w)) as [it|] eqn:Hf; [|left; apply Hnoop; reflexivity].
    destruct (cards w !! cid) as [l|] eqn:Hl; [|left; apply Hnoop; reflexivity].
    destruct (ReportCard.rendered _ l c) eqn:Hr; [|left; apply Hnoop; reflexivity].
    destruct (find_item_Some _ _ _ Hf) as [_ Hid].
    destruct c; simpl;
      unfold ReportCard.removeFile, ReportCard.onClick_reset; simpl; rewrite ?Hid;
      try (right; right; right; apply (Hlocal cid l); [reflexivity | exact Hl]);
      try (right; right; right; exists cid, l; eexists _, _;
           split; [reflexivity |]; split; [exact Hl |];
           split; [|reflexivity]; constructor).
    + right; right; left. eauto 10.
    + unfold ReportCard.stopRecording.
      destruct (ReportCard.ref_is_recording l); simpl; rewrite ?Hid;
        right; right; right;
        [ exists cid, l; eexists _, _; split; [reflexivity |]; split; [exact Hl |];
          split; [|reflexivity]; constructor
        | apply (Hlocal cid l); [reflexivity | exact Hl] ].
  - (* Input *)
    destruct (find_item cid (items w)) as [it|] eqn:Hf; [|left; apply Hnoop; reflexivity].
    destruct (cards w !! cid) as [l|] eqn:Hl; [|left; apply Hnoop; reflexivity].
    destruct (ReportCard.rendered _ l c) eqn:Hr; [|left; apply Hnoop; reflexivity].
    destruct (find_item_Some _ _ _ Hf) as [_ Hid].
    right; right; right.
    destruct c; simpl;
      unfold ReportCard.onChange_speakerName, ReportCard.onChange_contextText,
        ReportCard.onChange_text; simpl; rewrite ?Hid;
      first [ apply (Hlocal cid l); [reflexivity | exact Hl]
            | exists cid, l; eexists _, _; split; [reflexivity |]; split; [exact Hl |];
              split; [|reflexivity]; constructor ].
  - (* FileChosen *)
    destruct (find_item cid (items w)) as [it|] eqn:Hf; [|left; apply Hnoop; reflexivity].
    destruct (cards w !! cid) as [l|] eqn:Hl; [|left; apply Hnoop; reflexivity].
    destruct (ReportCard.rendered _ l _) eqn:Hr; [|left; apply Hnoop; reflexivity].
    right; right; right. apply (Hlocal cid l); [reflexivity | exact Hl].
  - (* MicSettled *)
    destruct (cards w !! cid) as [l|] eqn:Hl; [|left; apply Hnoop; reflexivity].
    destruct (ReportCard.awaitingMic l !! k) as [p|] eqn:Hp; simpl;
      [|left; apply Hnoop; reflexivity].
    assert (Hid : id (ReportCard.item p) = cid).
    { destruct (map_Forall_lookup_1 _ _ _ _ Hcl Hl) as (Hm & _).
      exact (Forall_lookup_1 _ _ _ _ Hm Hp). }
    right; right; right.
    destruct o; simpl; rewrite Hid;
      (exists cid, l; eexists _, _; split; [reflexivity |]; split; [exact Hl |];
       split; [|reflexivity]; constructor).
  - (* DataAvailable *)
    destruct (cards w !! cid) as [l|] eqn:Hl; [|left; apply Hnoop; reflexivity].
    destruct (ReportCard.mediaRecorderRef l); simpl; [|left; apply Hnoop; reflexivity].
    right; right; right. apply (Hlocal cid l); [reflexivity | exact Hl].
  - (* StopDispatched *)
    destruct (cards w !! cid) as [l|] eqn:Hl; [|left; apply Hnoop; reflexivity].
    destruct (ReportCard.pendingStop l); [left; apply Hnoop; reflexivity |].
    right; right; right. apply (Hlocal cid l); [reflexivity | exact Hl].
  - (* ReportSettled *)
    destruct (cards w !! cid) as [l|] eqn:Hl; [|left; apply Hnoop; reflexivity].
    destruct (ReportCard.awaitingReport l !! k) as [[p blob]|] eqn:Hp; simpl;
      [|left; apply Hnoop; reflexivity].
    assert (Hid : id (ReportCard.item p) = cid).
    { destruct (map_Forall_lookup_1 _ _ _ _ Hcl Hl) as (_ & _ & Hm & _).
      exact (Forall_lookup_1 _ _ _ _ Hm Hp). }
    right; right; right.
    pose proof (report_outcome_cases p blob b r) as Hout.
    destruct (ReportCard.handleProcessing_call _ _ _ _) as [t|err];
      [|destruct Hout as (m & -> & Hne)]; simpl; rewrite Hid.
    + exists cid, l. eexists _, _. split; [reflexivity |]. split; [exact Hl |].
      split; [|reflexivity]. constructor. exact Hout.
    + exists cid, l. eexists _, _. split; [reflexivity |]. split; [exact Hl |].
      split; [|reflexivity]. constructor. exact Hne.
  - (* FileSettled *)
    destruct (cards w !! cid) as [l|] eqn:Hl; [|left; apply Hnoop; reflexivity].
    destruct (ReportCard.awaitingFile l !! k) as [[p fname]|] eqn:Hp; simpl;
      [|left; apply Hnoop; reflexivity].
    assert (Hid : id (ReportCard.item p) = cid).
    { destruct (map_Forall_lookup_1 _ _ _ _ Hcl Hl) as (_ & _ & _ & Hm & _).
      exact (Forall_lookup_1 _ _ _ _ Hm Hp). }
    right; right; right.
    destruct o as [[b64 m]|err]; simpl; rewrite ?Hid;
      [ exists cid, l; eexists _, _; split; [reflexivity |]; split; [exact Hl |];
        split; [|reflexivity]; constructor
      | apply (Hlocal cid l); [reflexivity | exact Hl] ].
  - (* Tick *)
    destruct (cards w !! cid) as [l|] eqn:Hl; [|left; apply Hnoop; reflexivity].
    destruct (bool_decide _); [|left; apply Hnoop; reflexivity].
    right; right; right. apply (Hlocal cid l); [reflexivity | exact Hl].
  - (* StreamEnded *)
    destruct (cards w !! cid) as [l|] eqn:Hl; [|left; apply Hnoop; reflexivity].
    destruct (ReportCard.stream_ended l); simpl; [|left; apply Hnoop; reflexivity].
    right; right; right. apply (Hlocal cid l); [reflexivity | exact Hl].
  - (* OrphanStreamEnded *)
    destruct (cards w !! cid) as [l|] eqn:Hl; [|left; apply Hnoop; reflexivity].
    destruct (ReportCard.orphan_stream_ended k l); simpl; [|left; apply Hnoop; reflexivity].
    right; right; right. apply (Hlocal cid l); [reflexivity | exact Hl].
Qed.

Lemma handler_write_keeps (u : PartialItem) :
  handler_write u ->
  u_id u = None /\ u_timestamp u = None
  /\ (u_durationSeconds u = None \/ u_status u = Some PROCESSING).
Proof. intros []; simpl; auto. Qed.

Lemma fmap_id_if (b : bool) (u : PartialItem) (o : option ReportItem) :
  b = false ->
  (fun it => if b then App.spread it u else it) <$> o = o.
Proof. intros ->. destruct o; reflexivity. Qed.

(** ** Cards are independent *)

(** In every reachable state an event of one card leaves every other card
    as it is, the item and the state of the component alike; selecting a
    language touches no item and no component; and only the language
    buttons change the language. *)
Theorem events_touch_one_card
    (uuid : jsstring) (now : Z) (trace : list Event) (e : Event) :
  let w := run (boot uuid now) trace in
  match target e with
  | Some cid =>
      forall cid', cid' <> cid ->
        find_item cid' (items (step w e)) = find_item cid' (items w)
        /\ cards (step w e) !! cid' = cards w !! cid'
  | None => items (step w e) = items w /\ cards (step w e) = cards w
  end
  /\ (language (step w e) = language w \/ e = SetLanguage (language (step w e))).
Proof.
  cbv zeta. pose proof (closures_reachable uuid now trace) as Hcl.
  set (w := run (boot uuid now) trace) in *.
  destruct (step_shape w e Hcl)
    as [(lang & Hstep & Hlang)
       |[(u0 & n0 & He & Hnone & Hfresh & Hstep)
        |[(cid & l & it & He & Hl & Hf & Hstep)
         |(cid & l & l' & u & Ht & Hl & Hu & Hstep)]]];
    rewrite Hstep; simpl.
  - split; [destruct (target e); [intros cid' _; split; reflexivity | split; reflexivity] |].
    destruct Hlang as [-> | ->]; auto.
  - subst e. simpl. split; [|left; reflexivity].
    intros cid' Hne. rewrite find_item_addNewCard by exact Hfresh.
    rewrite bool_decide_eq_false_2 by exact Hne.
    rewrite lookup_insert_ne by congruence. split; reflexivity.
  - subst e. simpl. split; [|left; reflexivity].
    intros cid' Hne. rewrite find_item_deleteItem.
    rewrite bool_decide_eq_false_2 by exact Hne.
    rewrite lookup_insert_ne by congruence. split; reflexivity.
  - rewrite Ht. split; [|left; reflexivity].
    intros cid' Hne. destruct (handler_write_keeps u Hu) as (Hid & _).
    rewrite find_item_updateItem by exact Hid.
    rewrite fmap_id_if by (apply bool_decide_eq_false_2; exact Hne).
    rewrite lookup_insert_ne by congruence. split; reflexivity.
Qed.

(** Once a card is out of the collection, nothing that still belongs to
    it -- a click that was under way, the answer of [getUserMedia], of the
    file reader or of the remote call, a stop event, a tick -- changes any
    item of the collection. *)
Theorem deleted_card_writes_nothing
    (uuid : jsstring) (now : Z) (trace : list Event) (cid : jsstring) (e : Event) :
  status_of (run (boot uuid now) trace) cid = None ->
  target e = Some cid ->
  (forall n, e <> NewSpeaker cid n) ->
  items (step (run (boot uuid now) trace) e) = items (run (boot uuid now) trace).
Proof.
  intros Hs Ht Hnew. pose proof (closures_reachable uuid now trace) as Hcl.
  set (w := run (boot uuid now) trace) in *.
  assert (Hnone : find_item cid (items w) = None).
  { unfold status_of in Hs. destruct (find_item cid (items w)); [discriminate | reflexivity]. }
  destruct (step_shape w e Hcl)
    as [(lang & Hstep & _)
       |[(u0 & n0 & He & _ & _ & Hstep)
        |[(cid0 & l & it & He & Hl & Hf & Hstep)
         |(cid0 & l & l' & u & Ht0 & Hl & Hu & Hstep)]]];
    rewrite Hstep; simpl.
  - reflexivity.
  - subst e. simpl in Ht. injection Ht as ->. exfalso. exact (Hnew n0 eq_refl).
  - subst e. simpl in Ht. injection Ht as ->. congruence.
  - assert (cid0 = cid) by congruence. subst cid0.
    apply updateItem_absent. apply find_item_None. exact Hnone.
Qed.

Lemma deleted_card_writes_nothing_witness :
  items (step (run (boot (lit "c1") 0)
                 [ Click (lit "c1") ReportCard.StartButton;
                   Click (lit "c1") ReportCard.DeleteButton ])
              (MicSettled (lit "c1") 0 ReportCard.granted))
  = [].
Proof.
  rewrite (deleted_card_writes_nothing (lit "c1") 0
             [ Click (lit "c1") ReportCard.StartButton;
               Click (lit "c1") ReportCard.DeleteButton ]
             (lit "c1") (MicSettled (lit "c1") 0 ReportCard.granted)
             eq_refl eq_refl ltac:(discriminate)).
  reflexivity.
Defined.

(** ** What never changes *)

(** In every reachable state an event keeps the id and the creation time
    of every card that stays in the collection, and changes its
    [durationSeconds] only when it sets the card to [PROCESSING]; the ids
    of the collection keep their order: they are the same, or one is
    appended, or the one of the deleted card is removed. *)
Theorem id_and_timestamp_never_change
    (uuid : jsstring) (now : Z) (trace : list Event) (e : Event) :
  let w := run (boot uuid now) trace in
  (forall cid it it',
      find_item cid (items w) = Some it ->
      find_item cid (items (step w e)) = Some it' ->
      id it' = id it /\ timestamp it' = timestamp it
      /\ (durationSeconds it' = durationSeconds it \/ status it' = PROCESSING))
  /\ (map id (items (step w e)) = map id (items w)
      \/ (exists u n, e = NewSpeaker u n /\ map id (items (step w e)) = map id (items w) ++ [u])
      \/ (exists cid, e = Click cid ReportCard.DeleteButton
            /\ map id (items (step w e))
               = List.filter (fun i => negb (bool_decide (i = cid))) (map id (items w)))).
Proof.
  cbv zeta. pose proof (closures_reachable uuid now trace) as Hcl.
  set (w := run (boot uuid now) trace) in *.
  destruct (step_shape w e Hcl)
    as [(lang & Hstep & _)
       |[(u0 & n0 & He & Hnone & Hfresh & Hstep)
        |[(cid0 & l & it0 & He & Hl & Hf & Hstep)
         |(cid0 & l & l' & u & Ht0 & Hl & Hu & Hstep)]]];
    rewrite Hstep; simpl.
  - split; [|left; reflexivity]. intros cid it it' H H'.
    assert (it' = it) by congruence. subst. auto.
  - split.
    + intros cid it it' H. rewrite find_item_addNewCard by exact Hfresh.
      destruct (bool_decide (cid = u0)) eqn:Hb.
      * apply bool_decide_eq_true_1 in Hb. subst cid. congruence.
      * intros H'. assert (it' = it) by congruence. subst. auto.
    + right; left. exists u0, n0. split; [exact He |].
      unfold App.addNewCard. cbv zeta. rewrite map_app. reflexivity.
  - split.
    + intros cid it it' H. rewrite find_item_deleteItem.
      destruct (bool_decide (cid = cid0)); [discriminate |].
      intros H'. assert (it' = it) by congruence. subst. auto.
    + right; right. exists cid0. split; [exact He |].
      unfold App.deleteItem. clear. induction (items w) as [|it its IH]; simpl; [reflexivity |].
      destruct (bool_decide (id it = cid0)); simpl; rewrite IH; reflexivity.
  - destruct (handler_write_keeps u Hu) as (Hid & Hts & Hdur). split.
    + intros cid it it' H. rewrite find_item_updateItem by exact Hid. rewrite H. simpl.
      destruct (bool_decide (cid = cid0)); intros [= <-]; [|auto].
      unfold App.spread. simpl. rewrite Hid, Hts. simpl.
      split; [reflexivity |]. split; [reflexivity |].
      destruct Hdur as [-> | ->]; simpl; auto.
    + left. unfold App.updateItem. rewrite map_map. apply map_ext.
      intros it. destruct (bool_decide _); [apply spread_id; exact Hid | reflexivity].
Qed.

(** ** The error message *)

Lemma error_ok_step (w : World) (e : Event) :
  Inv phase_ok w ->
  reentrant_start w e = false ->
  (forall cid it, find_item cid (items w) = Some it -> error_ok it) ->
  forall cid it', find_item cid (items (step w e)) = Some it' -> error_ok it'.
Proof.
  intros HI Hseq Hok cid it' Hf'. pose proof HI as [Hcl _].
  pose proof (fun s s' => step_sequential_edge w e cid s s' HI Hseq) as Hedge.
  destruct (step_shape w e Hcl)
    as [(lang & Hstep & _)
       |[(u0 & n0 & He & Hnone & Hfresh & Hstep)
        |[(cid0 & l & it0 & He & Hl & Hf & Hstep)
         |(cid0 & l & l' & u & Ht0 & Hl & Hu & Hstep)]]];
    rewrite Hstep in Hf', Hedge; simpl in Hf'.
  - apply (Hok cid). exact Hf'.
  - rewrite find_item_addNewCard in Hf' by exact Hfresh.
    destruct (bool_decide (cid = u0)); [|apply (Hok cid); exact Hf'].
    unfold App.addNewCard in Hf'. cbv zeta in Hf'. rewrite last_snoc in Hf'.
    injection Hf' as <-. split; simpl; [discriminate | reflexivity].
  - rewrite find_item_deleteItem in Hf'.
    destruct (bool_decide (cid = cid0)); [discriminate | apply (Hok cid); exact Hf'].
  - destruct (handler_write_keeps u Hu) as (Hid & _).
    rewrite find_item_updateItem in Hf' by exact Hid.
    destruct (find_item cid (items w)) as [it|] eqn:Hf; [|discriminate].
    simpl in Hf'. pose proof (Hok cid it Hf) as [Herr Hnone].
    destruct (bool_decide (cid = cid0)) eqn:Hb; injection Hf' as <-; [|split; assumption].
    assert (Hleave : forall s', u_status u = Some s' -> s' <> ERROR -> s' <> IDLE ->
                                u_error u = None -> error_ok (App.spread it u)).
    { intros s' Hs' Hne Hni Hue.
      assert (Hnot : status it <> ERROR).
      { intros Hit.
        destruct (Hedge (status it) s') as [Heq | [Hd | (Hd & _)]].
        - unfold status_of. rewrite Hf. reflexivity.
        - rewrite status_of_update by exact Hid. unfold status_of. simpl. rewrite Hf. simpl.
          rewrite Hb, Hs'. reflexivity.
        - congruence.
        - rewrite Hit in Hd. destruct s'; simpl in Hd; congruence.
        - rewrite Hit in Hd. discriminate Hd. }
      split; unfold App.spread; simpl; rewrite Hs', Hue; simpl; [congruence |].
      intros _. apply Hnone. exact Hnot. }
    inversion Hu; subst u;
      try (apply (Hleave _ eq_refl); [discriminate | discriminate | reflexivity]);
      try (split; unfold App.spread; simpl;
           [ intros Hs; apply Herr in Hs; exact Hs | intros Hs; apply Hnone; exact Hs ]).
    + split; unfold App.spread; simpl; [|congruence].
      intros _. eexists. split; [reflexivity | discriminate].
    + split; unfold App.spread; simpl; [|congruence].
      intros _. eexists. split; [reflexivity | assumption].
    + split; unfold App.spread; simpl; [discriminate | reflexivity].
Qed.

(** On a run that never re-enters Start, the [error] of a card is a
    non-empty message while the card is in [ERROR], and is absent in every
    other status: Reset clears it, and no other event leaves [ERROR]. *)
Theorem error_is_present_exactly_in_error
    (uuid : jsstring) (now : Z) (trace : list Event) (cid : jsstring) (it : ReportItem) :
  sequential (boot uuid now) trace = true ->
  find_item cid (items (run (boot uuid now) trace)) = Some it ->
  (status it = ERROR -> exists m, error it = Some m /\ m <> [])
  /\ (status it <> ERROR -> error it = None).
Proof.
  revert cid it. induction trace as [|e trace IH] using rev_ind; intros cid it Hseq Hf.
  - simpl in Hf. unfold find_item in Hf. simpl in Hf.
    destruct (bool_decide (uuid = cid)); [|discriminate].
    injection Hf as <-. split; simpl; [discriminate | reflexivity].
  - apply sequential_snoc in Hseq as [Ht He]. rewrite run_snoc in Hf.
    apply (error_ok_step (run (boot uuid now) trace) e
             (phase_ok_reachable uuid now trace Ht) He
             (fun c i H => IH c i Ht H) cid it Hf).
Qed.

Lemma error_is_present_exactly_in_error_witness :
  exists it,
    find_item (lit "c1")
      (items (run (boot (lit "c1") 0)
                [ Click (lit "c1") ReportCard.StartButton;
                  MicSettled (lit "c1") 0 ReportCard.getUserMedia_rejected;
                  Click (lit "c1") ReportCard.ResetButton ])) = Some it
    /\ status it = IDLE /\ error it = None.
Proof.
  eexists. split; [vm_compute; reflexivity |]. split; [reflexivity |].
  refine (proj2 (error_is_present_exactly_in_error (lit "c1") 0
                   [ Click (lit "c1") ReportCard.StartButton;
                     MicSettled (lit "c1") 0 ReportCard.getUserMedia_rejected;
                     Click (lit "c1") ReportCard.ResetButton ]
                   (lit "c1") _ eq_refl _) _).
  - vm_compute. reflexivity.
  - discriminate.
Defined.

(** ** The cleanup on unmount *)

Lemma unmount_cleanup_fields (l : ReportCard.Local) :
  ReportCard.ref_is_recording (ReportCard.unmount_cleanup l) = false
  /\ ReportCard.pendingStop (ReportCard.unmount_cleanup l)
     = ReportCard.pendingStop l
       ++ match ReportCard.mediaRecorderRef l with
          | Some (ReportCard.mkRecorder ReportCard.recording q) => [q]
          | _ => []
          end
  /\ ReportCard.awaitingMic (ReportCard.unmount_cleanup l) = ReportCard.awaitingMic l
  /\ ReportCard.awaitingReport (ReportCard.unmount_cleanup l)
     = ReportCard.awaitingReport l.
Proof.
  destruct l as [t sc ref ch tref live nxt am ps ar af].
  unfold ReportCard.unmount_cleanup, ReportCard.clearInterval_of_ref,
    ReportCard.ref_is_recording, ReportCard.stop_ref,
    ReportCard.set_pendingStop, ReportCard.set_mediaRecorderRef.
  destruct tref as [h|], ref as [[[] q]|]; cbn; rewrite ?app_nil_r;
    repeat split; reflexivity.
Qed.

Lemma unmount_clears_interval (l : ReportCard.Local) (h : nat) :
  ReportCard.timerIntervalRef l = Some h ->
  h ∉ ReportCard.liveIntervals (ReportCard.unmount_cleanup l).
Proof.
  destruct l as [t sc ref ch tref live nxt am ps ar af].
  unfold ReportCard.unmount_cleanup, ReportCard.clearInterval_of_ref,
    ReportCard.ref_is_recording, ReportCard.stop_ref,
    ReportCard.set_pendingStop, ReportCard.set_mediaRecorderRef.
  cbn. intros ->.
  destruct ref as [[[] q]|]; cbn;
    rewrite list_elem_of_In, filter_In; intros [_ Hb]; rewrite Nat.eqb_refl in Hb;
    discriminate Hb.
Qed.

Lemma filter_all {A : Type} (f : A -> bool) (l : list A) :
  (forall x, In x l -> f x = true) -> List.filter f l = l.
Proof.
  induction l as [|x l IH]; intros H; simpl; [reflexivity |].
  rewrite (H x (or_introl eq_refl)). f_equal. apply IH.
  intros y Hy. apply H. right. exact Hy.
Qed.

(** A component whose recorder is not recording and whose interval is
    cleared is left as it is. *)
Lemma unmount_cleanup_fixed (l : ReportCard.Local) :
  ReportCard.ref_is_recording l = false ->
  (forall h, ReportCard.timerIntervalRef l = Some h -> h ∉ ReportCard.liveIntervals l) ->
  ReportCard.unmount_cleanup l = l.
Proof.
  destruct l as [t sc ref ch tref live nxt am ps ar af].
  unfold ReportCard.unmount_cleanup, ReportCard.clearInterval_of_ref,
    ReportCard.ref_is_recording.
  cbn. intros Hrec Hlive. destruct tref as [h|]; cbn; rewrite Hrec; [|reflexivity].
  f_equal. apply filter_all. intros h' Hin.
  destruct (h' =? h)%nat eqn:Hh; [|reflexivity].
  apply Nat.eqb_eq in Hh. subst h'. exfalso.
  apply (Hlive h eq_refl). apply list_elem_of_In. exact Hin.
Qed.

Lemma unmount_cleanup_keeps_ref (l : ReportCard.Local) :
  ReportCard.timerIntervalRef (ReportCard.unmount_cleanup l)
  = ReportCard.timerIntervalRef l.
Proof.
  destruct l as [t sc ref ch tref live nxt am ps ar af].
  unfold ReportCard.unmount_cleanup, ReportCard.clearInterval_of_ref,
    ReportCard.ref_is_recording, ReportCard.stop_ref,
    ReportCard.set_pendingStop, ReportCard.set_mediaRecorderRef.
  destruct tref as [h|], ref as [[[] q]|]; reflexivity.
Qed.

Lemma unmount_cleanup_idem (l : ReportCard.Local) :
  ReportCard.unmount_cleanup (ReportCard.unmount_cleanup l) = ReportCard.unmount_cleanup l.
Proof.
  apply unmount_cleanup_fixed.
  - exact (proj1 (unmount_cleanup_fields l)).
  - intros h Hh. rewrite unmount_cleanup_keeps_ref in Hh.
    apply unmount_clears_interval. exact Hh.
Qed.

(** The cleanup stops the referenced recorder when it records, and only
    then, queueing one stop event for it; afterwards the recorder is not
    recording, so a second cleanup changes nothing; the interval of the
    ref is cleared; and nothing that is pending is cancelled (an
    acquisition that was awaited is still awaited).  In any page, Delete
    takes the card out of the collection and runs the cleanup on its
    component.  On a run on which no stream has ended by itself, a card
    that shows [RECORDING] has a recorder that records, so deleting it
    stops the recorder this once; a recorder whose stream has ended is
    inactive already, and the cleanup leaves it so. *)
Theorem unmount_stops_the_recorder_once
    (uuid : jsstring) (now : Z) (trace : list Event) (cid : jsstring) :
  (forall l,
      ReportCard.ref_is_recording (ReportCard.unmount_cleanup l) = false
      /\ ReportCard.pendingStop (ReportCard.unmount_cleanup l)
         = ReportCard.pendingStop l
           ++ match ReportCard.mediaRecorderRef l with
              | Some (ReportCard.mkRecorder ReportCard.recording q) => [q]
              | _ => []
              end
      /\ (forall h, ReportCard.timerIntervalRef l = Some h ->
            h ∉ ReportCard.liveIntervals (ReportCard.unmount_cleanup l))
      /\ ReportCard.awaitingMic (ReportCard.unmount_cleanup l) = ReportCard.awaitingMic l
      /\ ReportCard.awaitingReport (ReportCard.unmount_cleanup l)
         = ReportCard.awaitingReport l
      /\ ReportCard.unmount_cleanup (ReportCard.unmount_cleanup l)
         = ReportCard.unmount_cleanup l)
  /\ (forall w it l,
        find_item cid (items w) = Some it -> cards w !! cid = Some l ->
        status_of (step w (Click cid ReportCard.DeleteButton)) cid = None
        /\ cards (step w (Click cid ReportCard.DeleteButton)) !! cid
           = Some (ReportCard.unmount_cleanup l))
  /\ (no_stream_ends trace = true ->
      let w := run (boot uuid now) trace in
      let w' := step w (Click cid ReportCard.DeleteButton) in
      status_of w cid = Some RECORDING ->
      status_of w' cid = None
      /\ exists l q,
           cards w !! cid = Some l
           /\ ReportCard.mediaRecorderRef l
              = Some (ReportCard.mkRecorder ReportCard.recording q)
           /\ cards w' !! cid = Some (ReportCard.unmount_cleanup l)
           /\ ReportCard.pendingStop (ReportCard.unmount_cleanup l)
              = ReportCard.pendingStop l ++ [q])
  /\ (let ended :=
        run (boot (lit "c1") 0)
          [ Click (lit "c1") ReportCard.StartButton;
            MicSettled (lit "c1") 0 ReportCard.granted;
            StreamEnded (lit "c1"); StopDispatched (lit "c1") ] in
      status_of ended (lit "c1") = Some RECORDING
      /\ ReportCard.pendingStop
           <$> cards (step ended (Click (lit "c1") ReportCard.DeleteButton)) !! lit "c1"
         = Some []).
Proof.
  assert (Hfun : forall l,
             ReportCard.pendingStop (ReportCard.unmount_cleanup l)
             = ReportCard.pendingStop l
               ++ match ReportCard.mediaRecorderRef l with
                  | Some (ReportCard.mkRecorder ReportCard.recording q) => [q]
                  | _ => []
                  end).
  { intros l. exact (proj1 (proj2 (unmount_cleanup_fields l))). }
  assert (Hdel : forall w it l,
             find_item cid (items w) = Some it -> cards w !! cid = Some l ->
             step w (Click cid ReportCard.DeleteButton)
             = mkWorld (App.deleteItem cid (items w)) (language w)
                 (<[cid := ReportCard.unmount_cleanup l]> (cards w))).
  { intros w it l Hf Hl. destruct (find_item_Some _ _ _ Hf) as [_ Hid].
    simpl. unfold user_event. rewrite Hf, Hl. simpl. rewrite Hid. reflexivity. }
  assert (Hgone : forall w it l,
             find_item cid (items w) = Some it -> cards w !! cid = Some l ->
             status_of (step w (Click cid ReportCard.DeleteButton)) cid = None
             /\ cards (step w (Click cid ReportCard.DeleteButton)) !! cid
                = Some (ReportCard.unmount_cleanup l)).
  { intros w it l Hf Hl. rewrite (Hdel w it l Hf Hl). split.
    - unfold status_of. simpl. rewrite find_item_deleteItem.
      rewrite bool_decide_eq_true_2 by reflexivity. reflexivity.
    - simpl. apply lookup_insert_eq. }
  split; [|split; [exact Hgone | split]].
  { intros l. destruct (unmount_cleanup_fields l) as (H1 & H2 & H3 & H4).
    split; [exact H1 |]. split; [exact H2 |].
    split; [intros h; apply unmount_clears_interval |].
    split; [exact H3 |]. split; [exact H4 | apply unmount_cleanup_idem]. }
  - intros Hno. cbv zeta. intros Hs.
    destruct (recorder_runs_reachable uuid now trace Hno) as [_ Hit].
    unfold status_of in Hs.
    destruct (find_item cid (items (run (boot uuid now) trace))) as [it|] eqn:Hf;
      [|discriminate].
    injection Hs as Hs. destruct (Hit cid it Hf) as (l & Hl & Hrun). specialize (Hrun Hs).
    destruct (ref_is_recording_Some l Hrun) as (q & Hq).
    destruct (Hgone _ it l Hf Hl) as [Hnone Hl'].
    split; [exact Hnone |].
    exists l, q. split; [exact Hl |]. split; [exact Hq |]. split; [exact Hl' |].
    rewrite Hfun, Hq. reflexivity.
  - cbv zeta. split; vm_compute; reflexivity.
Qed.

(** ** The interval of the elapsed-time counter *)

Lemma intervals_frame (s : CardStatus) (l l' : ReportCard.Local) :
  ReportCard.timerIntervalRef l' = ReportCard.timerIntervalRef l ->
  ReportCard.liveIntervals l' = ReportCard.liveIntervals l ->
  intervals_ok s l -> intervals_ok s l'.
Proof. intros Hr Hi. unfold intervals_ok. rewrite Hr, Hi. auto. Qed.

Ltac card_after Hf Hf' Hl' :=
  rewrite lookup_insert_eq in Hl'; injection Hl' as <-;
  try (rewrite find_item_updateItem in Hf' by reflexivity;
       rewrite Hf in Hf'; cbn [fmap option_fmap option_map] in Hf';
       rewrite bool_decide_eq_true_2 in Hf' by reflexivity);
  try rewrite Hf in Hf';
  injection Hf' as <-.

Lemma intervals_ok_step (w : World) (e : Event) :
  Inv phase_ok w ->
  Inv recorder_runs w ->
  reentrant_start w e = false ->
  stream_end e = false ->
  (forall cid it l, find_item cid (items w) = Some it -> cards w !! cid = Some l ->
     intervals_ok (status it) l) ->
  forall cid it' l',
    find_item cid (items (step w e)) = Some it' -> cards (step w e) !! cid = Some l' ->
    intervals_ok (status it') l'.
Proof.
  intros HI [_ HR] Hseq Hend HK cid it' l' Hf' Hl'. pose proof HI as [Hcl Hit].
  destruct (decide (target e = Some cid)) as [Ht|Ht].
  2: { (* an event of another card, or of none *)
    destruct (step_shape w e Hcl)
      as [(lang & Hstep & _)
         |[(u0 & n0 & He & Hnone & Hfresh & Hstep)
          |[(cid0 & l & it0 & He & Hl & Hf & Hstep)
           |(cid0 & l & l0 & u & Ht0 & Hl & Hu & Hstep)]]];
      rewrite Hstep in Hf', Hl'; simpl in Hf', Hl'.
    - apply (HK cid); assumption.
    - subst e. simpl in Ht. assert (Hne : cid <> u0) by congruence.
      rewrite find_item_addNewCard in Hf' by exact Hfresh.
      rewrite bool_decide_eq_false_2 in Hf' by exact Hne.
      rewrite lookup_insert_ne in Hl' by congruence. apply (HK cid); assumption.
    - subst e. simpl in Ht. assert (Hne : cid <> cid0) by congruence.
      rewrite find_item_deleteItem in Hf'.
      rewrite bool_decide_eq_false_2 in Hf' by exact Hne.
      rewrite lookup_insert_ne in Hl' by congruence. apply (HK cid); assumption.
    - assert (Hne : cid <> cid0) by congruence.
      destruct (handler_write_keeps u Hu) as (Hid & _).
      rewrite find_item_updateItem in Hf' by exact Hid.
      rewrite fmap_id_if in Hf' by (apply bool_decide_eq_false_2; exact Hne).
      rewrite lookup_insert_ne in Hl' by congruence. apply (HK cid); assumption. }
  destruct e as [uuid now|lang|c0 c|c0 c v|c0 f|c0 k o|c0 ch|c0|c0 k b r|c0 k o|c0 h|c0|c0 k];
    simpl in Ht; try discriminate Ht; injection Ht as ->;
    simpl in Hf', Hl'; unfold user_event, card_event in Hf', Hl'.
  - (* NewSpeaker *)
    destruct (bool_decide (cards w !! cid = None)) eqn:H1; simpl in Hf', Hl';
      [|apply (HK cid); assumption].
    destruct (bool_decide (find_item cid (items w) = None)) eqn:H2; simpl in Hf', Hl';
      [|apply (HK cid); assumption].
    rewrite lookup_insert_eq in Hl'. injection Hl' as <-.
    apply bool_decide_eq_true_1 in H2.
    rewrite find_item_addNewCard in Hf' by exact H2.
    rewrite bool_decide_eq_true_2 in Hf' by reflexivity.
    unfold App.addNewCard in Hf'. cbv zeta in Hf'. rewrite last_snoc in Hf'.
    injection Hf' as <-. reflexivity.
  - (* Click *)
    destruct (find_item cid (items w)) as [it|] eqn:Hf; [|simpl in Hf'; congruence].
    destruct (cards w !! cid) as [l|] eqn:Hl; simpl in Hf', Hl';
      [|rewrite Hl in Hl'; discriminate Hl'].
    pose proof (HK cid it l Hf Hl) as Hok.
    destruct (ReportCard.rendered _ l c) eqn:Hr;
      [|rewrite Hf in Hf'; rewrite Hl in Hl'; injection Hf' as <-; injection Hl' as <-;
        exact Hok].
    destruct (find_item_Some _ _ _ Hf) as [_ Hid].
    destruct c; simpl in Hf', Hl', Hr;
      unfold ReportCard.removeFile, ReportCard.onClick_reset in Hf'; simpl in Hf';
      rewrite ?Hid in Hf';
      try (card_after Hf Hf' Hl'; exact Hok).
    + (* Delete *)
      rewrite find_item_deleteItem in Hf'.
      rewrite bool_decide_eq_true_2 in Hf' by reflexivity. discriminate Hf'.
    + (* Stop *)
      apply bool_decide_eq_true_1 in Hr. unfold ReportCard.stopRecording in Hf', Hl'.
      destruct (ReportCard.ref_is_recording l) eqn:Hrec; simpl in Hf', Hl';
        rewrite ?Hid in Hf'; card_after Hf Hf' Hl'; [|exact Hok].
      rewrite Hr in Hok. destruct Hok as (h & Href & Hlive).
      destruct (ref_is_recording_Some l Hrec) as (q & Hq).
      unfold ReportCard.clearInterval_of_ref, ReportCard.stop_ref. rewrite Hq.
      cbn. rewrite Href. cbn. rewrite Hlive. cbn. rewrite Nat.eqb_refl. reflexivity.
    + (* Reset *)
      apply bool_decide_eq_true_1 in Hr. card_after Hf Hf' Hl'.
      rewrite Hr in Hok. exact Hok.
  - (* Input *)
    destruct (find_item cid (items w)) as [it|] eqn:Hf; [|simpl in Hf'; congruence].
    destruct (cards w !! cid) as [l|] eqn:Hl; simpl in Hf', Hl';
      [|rewrite Hl in Hl'; discriminate Hl'].
    pose proof (HK cid it l Hf Hl) as Hok.
    destruct (ReportCard.rendered _ l c) eqn:Hr;
      [|rewrite Hf in Hf'; rewrite Hl in Hl'; injection Hf' as <-; injection Hl' as <-;
        exact Hok].
    destruct (find_item_Some _ _ _ Hf) as [_ Hid].
    destruct c; simpl in Hf', Hl';
      unfold ReportCard.onChange_speakerName, ReportCard.onChange_contextText,
        ReportCard.onChange_text in Hf'; simpl in Hf'; rewrite ?Hid in Hf';
      card_after Hf Hf' Hl'; exact Hok.
  - (* FileChosen *)
    destruct (find_item cid (items w)) as [it|] eqn:Hf; [|simpl in Hf'; congruence].
    destruct (cards w !! cid) as [l|] eqn:Hl; simpl in Hf', Hl';
      [|rewrite Hl in Hl'; discriminate Hl'].
    pose proof (HK cid it l Hf Hl) as Hok.
    destruct (ReportCard.showContext l || ReportCard.hasContext _) eqn:Hr;
      [|rewrite Hf in Hf'; rewrite Hl in Hl'; injection Hf' as <-; injection Hl' as <-;
        exact Hok].
    simpl in Hf', Hl'. card_after Hf Hf' Hl'. destruct f; exact Hok.
  - (* MicSettled *)
    destruct (cards w !! cid) as [l|] eqn:Hl; [|rewrite Hl in Hl'; discriminate Hl'].
    destruct (ReportCard.awaitingMic l !! k) as [p|] eqn:Hp;
      cbn [mbind option_bind] in Hf', Hl';
      [|rewrite Hl in Hl'; injection Hl' as <-; apply (HK cid); assumption].
    assert (Hid : id (ReportCard.item p) = cid).
    { destruct (map_Forall_lookup_1 _ _ _ _ Hcl Hl) as (Hm & _).
      exact (Forall_lookup_1 _ _ _ _ Hm Hp). }
    destruct (ReportCard.startRecording_resume p o _ (items w)) as [l1 its1] eqn:Hres.
    cbn [items cards] in Hf', Hl'.
    rewrite lookup_insert_eq in Hl'. injection Hl' as <-.
    destruct (find_item cid (items w)) as [it|] eqn:Hf.
    2: { exfalso.
         assert (Hnone : find_item cid its1 = None).
         { destruct o; cbn [ReportCard.startRecording_resume] in Hres;
             injection Hres as _ <-; rewrite Hid, find_item_updateItem by reflexivity;
             rewrite Hf; reflexivity. }
         congruence. }
    pose proof (HK cid it l Hf Hl) as Hok. destruct (Hit cid it Hf) as (l0 & Hl0 & Hph).
    assert (l0 = l) by congruence. subst l0.
    destruct (phase_ok_awaitingMic _ l k p Hph Hp) as (Hidle & _ & _ & Hrf & _).
    rewrite Hidle in Hok. simpl in Hok.
    destruct o; cbn [ReportCard.startRecording_resume] in Hres;
      rewrite ?assign_mediaRecorderRef_idle in Hres by exact Hrf;
      injection Hres as <- <-;
      rewrite Hid, find_item_updateItem in Hf' by reflexivity; rewrite Hf in Hf';
      cbn [fmap option_fmap option_map] in Hf';
      rewrite bool_decide_eq_true_2 in Hf' by reflexivity;
      injection Hf' as <-; simpl; try exact Hok.
    eexists. rewrite Hok. split; reflexivity.
  - (* DataAvailable *)
    destruct (cards w !! cid) as [l|] eqn:Hl; [|rewrite Hl in Hl'; discriminate Hl'].
    destruct (ReportCard.mediaRecorderRef l); simpl in Hf', Hl';
      [|rewrite Hl in Hl'; injection Hl' as <-; apply (HK cid); assumption].
    rewrite lookup_insert_eq in Hl'. injection Hl' as <-.
    apply (intervals_frame _ l); [| |apply (HK cid); assumption];
      unfold ReportCard.ondataavailable; destruct (0 <? _)%nat; reflexivity.
  - (* StopDispatched *)
    destruct (cards w !! cid) as [l|] eqn:Hl; [|rewrite Hl in Hl'; discriminate Hl'].
    destruct (ReportCard.pendingStop l); simpl in Hf', Hl';
      [rewrite Hl in Hl'; injection Hl' as <-; apply (HK cid); assumption |].
    rewrite lookup_insert_eq in Hl'. injection Hl' as <-.
    apply (intervals_frame _ l); [reflexivity | reflexivity | apply (HK cid); assumption].
  - (* ReportSettled *)
    destruct (cards w !! cid) as [l|] eqn:Hl; [|rewrite Hl in Hl'; discriminate Hl'].
    destruct (ReportCard.awaitingReport l !! k) as [[p blob]|] eqn:Hp; simpl in Hf', Hl';
      [|rewrite Hl in Hl'; injection Hl' as <-; apply (HK cid); assumption].
    assert (Hid : id (ReportCard.item p) = cid).
    { destruct (map_Forall_lookup_1 _ _ _ _ Hcl Hl) as (_ & _ & Hm & _).
      exact (Forall_lookup_1 _ _ _ _ Hm Hp). }
    rewrite lookup_insert_eq in Hl'. injection Hl' as <-.
    pose proof (report_outcome_cases p blob b r) as Hout.
    destruct (ReportCard.handleProcessing_call _ _ _ _) as [t|err];
      [|destruct Hout as (m & -> & _)];
      cbn [ReportCard.handleProcessing_resume geminiService.read_message] in Hf';
      rewrite Hid in Hf'; rewrite find_item_updateItem in Hf' by reflexivity;
      (destruct (find_item cid (items w)) as [it|] eqn:Hf; [|discriminate Hf']);
      cbn [fmap option_fmap option_map] in Hf';
      rewrite bool_decide_eq_true_2 in Hf' by reflexivity; injection Hf' as <-;
      pose proof (HK cid it l Hf Hl) as Hok; destruct (Hit cid it Hf) as (l0 & Hl0 & Hph);
      (assert (l0 = l) by congruence); subst l0;
      (assert (Hproc : status it = PROCESSING)
         by (destruct (phase_ok_submission _ l Hph) as ([Hs|Hs] & _ & Hrf & _);
             [ right; intros E; rewrite E in Hp; discriminate Hp
             | exact Hs
             | destruct (HR cid it Hf) as (l1 & Hl1 & Hrun);
               (assert (l1 = l) by congruence); subst l1;
               rewrite (Hrun Hs) in Hrf; discriminate Hrf ]));
      rewrite Hproc in Hok; exact Hok.
  - (* FileSettled *)
    destruct (cards w !! cid) as [l|] eqn:Hl; [|rewrite Hl in Hl'; discriminate Hl'].
    destruct (ReportCard.awaitingFile l !! k) as [[p fname]|] eqn:Hp; simpl in Hf', Hl';
      [|rewrite Hl in Hl'; injection Hl' as <-; apply (HK cid); assumption].
    assert (Hid : id (ReportCard.item p) = cid).
    { destruct (map_Forall_lookup_1 _ _ _ _ Hcl Hl) as (_ & _ & _ & Hm & _).
      exact (Forall_lookup_1 _ _ _ _ Hm Hp). }
    rewrite lookup_insert_eq in Hl'. injection Hl' as <-.
    destruct o as [[b64 m]|err]; simpl in Hf'; rewrite ?Hid in Hf';
      try (rewrite find_item_updateItem in Hf' by reflexivity);
      (destruct (find_item cid (items w)) as [it|] eqn:Hf; [|discriminate Hf']);
      simpl in Hf'; rewrite ?bool_decide_eq_true_2 in Hf' by reflexivity;
      injection Hf' as <-; exact (HK cid it l Hf Hl).
  - (* Tick *)
    destruct (cards w !! cid) as [l|] eqn:Hl; [|rewrite Hl in Hl'; discriminate Hl'].
    destruct (bool_decide _); simpl in Hf', Hl';
      [|rewrite Hl in Hl'; injection Hl' as <-; apply (HK cid); assumption].
    rewrite lookup_insert_eq in Hl'. injection Hl' as <-.
    apply (intervals_frame _ l); [reflexivity | reflexivity | apply (HK cid); assumption].
  - (* StreamEnded *)
    discriminate Hend.
  - (* OrphanStreamEnded *)
    destruct (cards w !! cid) as [l|] eqn:Hl; [|rewrite Hl in Hl'; discriminate Hl'].
    destruct (ReportCard.orphan_stream_ended k l) as [l1|] eqn:Ho; simpl in Hf', Hl';
      [|rewrite Hl in Hl'; injection Hl' as <-; apply (HK cid); assumption].
    rewrite lookup_insert_eq in Hl'. injection Hl' as <-.
    unfold ReportCard.orphan_stream_ended in Ho.
    destruct (ReportCard.orphans l !! k); simpl in Ho; [|discriminate Ho].
    injection Ho as <-.
    apply (intervals_frame _ l); [reflexivity | reflexivity | apply (HK cid); assumption].
Qed.

(** On a run that never re-enters Start and on which no stream ends by
    itself, the interval of the counter is live exactly while the card is
    [RECORDING]: a recording card holds one live interval, the one in
    [timerIntervalRef]; a card in any other status holds none, so no tick
    changes anything of it.  The interval is cleared by [stopRecording]
    and by the cleanup only: when the stream of the recorder ends by
    itself the interval goes on ticking on the completed card. *)
Theorem timer_interval_runs_only_while_recording
    (uuid : jsstring) (now : Z) (trace : list Event)
    (cid : jsstring) (it : ReportItem) (l : ReportCard.Local) :
  sequential (boot uuid now) trace = true ->
  no_stream_ends trace = true ->
  find_item cid (items (run (boot uuid now) trace)) = Some it ->
  cards (run (boot uuid now) trace) !! cid = Some l ->
  (status it = RECORDING ->
     exists h, ReportCard.timerIntervalRef l = Some h
               /\ ReportCard.liveIntervals l = [h])
  /\ (status it <> RECORDING ->
        ReportCard.liveIntervals l = []
        /\ forall h, step (run (boot uuid now) trace) (Tick cid h)
                     = run (boot uuid now) trace)
  /\ (let ended :=
        run (boot (lit "c1") 0)
          [ Click (lit "c1") ReportCard.StartButton;
            MicSettled (lit "c1") 0 ReportCard.granted;
            StreamEnded (lit "c1"); StopDispatched (lit "c1");
            ReportSettled (lit "c1") 0 (geminiService.resolved (lit "QUJD"))
              (geminiService.resolved (Some (lit "- Task A done"))) ] in
      status_of ended (lit "c1") = Some COMPLETED
      /\ ReportCard.liveIntervals <$> cards ended !! lit "c1" = Some [1%nat]
      /\ ReportCard.timer <$> cards ended !! lit "c1" = Some 0%nat
      /\ ReportCard.timer <$> cards (step ended (Tick (lit "c1") 1)) !! lit "c1"
         = Some 1%nat).
Proof.
  intros Hseq Hno Hf Hl.
  assert (HK : intervals_ok (status it) l).
  { revert cid it l Hf Hl.
    induction trace as [|e trace IH] using rev_ind; intros cid it l Hf Hl.
    - simpl in Hf, Hl. unfold find_item in Hf. simpl in Hf.
      destruct (bool_decide (uuid = cid)) eqn:Hb; [|discriminate].
      apply bool_decide_eq_true_1 in Hb. subst cid. injection Hf as <-.
      rewrite lookup_singleton_eq in Hl. injection Hl as <-. reflexivity.
    - apply sequential_snoc in Hseq as [Ht He].
      apply no_stream_ends_snoc in Hno as [Hnt Hne].
      rewrite run_snoc in Hf, Hl.
      apply (intervals_ok_step (run (boot uuid now) trace) e
               (phase_ok_reachable uuid now trace Ht)
               (recorder_runs_reachable uuid now trace Hnt) He Hne
               (fun c i l0 H H0 => IH Ht Hnt c i l0 H H0) cid it l Hf Hl). }
  split; [|split].
  - intros Hs. rewrite Hs in HK. exact HK.
  - intros Hs.
    assert (Hlive : ReportCard.liveIntervals l = [])
      by (destruct (status it); simpl in HK; auto; congruence).
    split; [exact Hlive |].
    intros h. simpl. unfold card_event. rewrite Hl, Hlive.
    rewrite bool_decide_eq_false_2 by (intros Hin; inversion Hin). reflexivity.
  - cbv zeta. repeat split; vm_compute; reflexivity.
Qed.

Lemma timer_interval_runs_only_while_recording_witness :
  step (run (boot (lit "c1") 0)
          [ Click (lit "c1") ReportCard.StartButton;
            MicSettled (lit "c1") 0 ReportCard.granted;
            Tick (lit "c1") 1;
            Click (lit "c1") ReportCard.StopButton ])
       (Tick (lit "c1") 1)
  = run (boot (lit "c1") 0)
      [ Click (lit "c1") ReportCard.StartButton;
        MicSettled (lit "c1") 0 ReportCard.granted;
        Tick (lit "c1") 1;
        Click (lit "c1") ReportCard.StopButton ].
Proof.
  refine (proj2 (proj1 (proj2 (timer_interval_runs_only_while_recording (lit "c1") 0
                          [ Click (lit "c1") ReportCard.StartButton;
                            MicSettled (lit "c1") 0 ReportCard.granted;
                            Tick (lit "c1") 1;
                            Click (lit "c1") ReportCard.StopButton ]
                          (lit "c1") _ _ eq_refl eq_refl _ _)) _) 1%nat).
  - vm_compute. reflexivity.
  - vm_compute. reflexivity.
  - discriminate.
Defined.

(** ** What the selected language can reach *)

Lemma forget_language_of_idem (pf : ReportCard.Props * jsstring) :
  forget_language_of (forget_language_of pf) = forget_language_of pf.
Proof. reflexivity. Qed.

Lemma forget_local_idem (l : ReportCard.Local) : forget_local (forget_local l) = forget_local l.
Proof.
  unfold forget_local. destruct l. simpl. rewrite map_map. reflexivity.
Qed.

Lemma forget_language_idem (w : World) : forget_language (forget_language w) = forget_language w.
Proof.
  unfold forget_language. simpl. f_equal. rewrite <- map_fmap_compose.
  apply map_fmap_ext. intros cid l _. apply forget_local_idem.
Qed.

Lemma forget_insert (its : list ReportItem) (lang1 lang2 : TargetLanguage)
    (cid : jsstring) (l1 l2 : ReportCard.Local) (m : gmap jsstring ReportCard.Local) :
  forget_local l1 = forget_local l2 ->
  forget_language (mkWorld its lang1 (<[cid := l1]> (forget_local <$> m)))
  = forget_language (mkWorld its lang2 (<[cid := l2]> m)).
Proof.
  intros H. unfold forget_language. simpl. f_equal.
  rewrite !fmap_insert, H. f_equal. rewrite <- map_fmap_compose.
  apply map_fmap_ext. intros c l _. apply forget_local_idem.
Qed.

Lemma rendered_forget (it : ReportItem) (lang1 lang2 : TargetLanguage)
    (l : ReportCard.Local) (c : ReportCard.Control) :
  ReportCard.rendered (ReportCard.mkProps it lang1) (forget_local l) c
  = ReportCard.rendered (ReportCard.mkProps it lang2) l c.
Proof. destruct c; reflexivity. Qed.

Lemma user_event_forget (w : World) (cid : jsstring) (c : ReportCard.Control) h :
  blind h ->
  forget_language (user_event (forget_language w) cid c h)
  = forget_language (user_event w cid c h).
Proof.
  intros Hh. unfold user_event. cbn [items cards language forget_language].
  rewrite lookup_fmap.
  destruct (find_item cid (items w)) as [it|]; [|apply forget_language_idem].
  destruct (cards w !! cid) as [l|]; cbn [fmap option_fmap option_map];
    [|apply forget_language_idem].
  rewrite (rendered_forget it en (language w)).
  destruct (ReportCard.rendered _ l c); [|apply forget_language_idem].
  destruct (Hh it (language w) l (items w)) as [H1 H2].
  destruct (h (ReportCard.mkProps it en) (forget_local l) (items w)) as [l1 its1].
  destruct (h (ReportCard.mkProps it (language w)) l (items w)) as [l2 its2].
  simpl in H1, H2. subst its2. apply forget_insert. exact H1.
Qed.

Lemma card_event_forget (w : World) (cid : jsstring) h :
  blind_event h ->
  forget_language (card_event (forget_language w) cid h)
  = forget_language (card_event w cid h).
Proof.
  intros Hh. unfold card_event. cbn [items cards language forget_language].
  rewrite lookup_fmap.
  destruct (cards w !! cid) as [l|]; cbn [fmap option_fmap option_map];
    [|apply forget_language_idem].
  specialize (Hh l (items w)).
  destruct (h (forget_local l) (items w)) as [[l1 its1]|],
           (h l (items w)) as [[l2 its2]|]; simpl in Hh; try discriminate Hh.
  - assert (H1 := f_equal (fun x => match x with Some y => fst y | None => l end) Hh).
    assert (H2 := f_equal (fun x => match x with Some y => snd y | None => [] end) Hh).
    simpl in H1, H2. subst its2. apply forget_insert. exact H1.
  - apply forget_language_idem.
Qed.

Ltac local_fields :=
  cbv [ReportCard.set_timer ReportCard.set_showContext ReportCard.set_mediaRecorderRef
       ReportCard.set_chunksRef ReportCard.set_awaitingMic ReportCard.set_pendingStop
       ReportCard.set_awaitingReport ReportCard.set_awaitingFile ReportCard.set_orphans
       ReportCard.setInterval_into_ref
       ReportCard.timer ReportCard.showContext ReportCard.mediaRecorderRef
       ReportCard.chunksRef ReportCard.timerIntervalRef ReportCard.liveIntervals
       ReportCard.nextInterval ReportCard.awaitingMic ReportCard.pendingStop
       ReportCard.awaitingReport ReportCard.awaitingFile ReportCard.orphans
       ReportCard.onstop ReportCard.state fst snd].

Ltac by_fields l :=
  destruct l as [t sc ref chs tref live nxt am ps ar af orph];
  cbv [forget_local ReportCard.unmount_cleanup ReportCard.stopRecording
       ReportCard.clearInterval_of_ref ReportCard.stop_ref ReportCard.ref_is_recording
       ReportCard.stream_ended ReportCard.orphan_stream_ended ReportCard.ondataavailable
       ReportCard.handleFileUpload ReportCard.recorder_onstop ReportCard.handleProcessing
       ReportCard.assign_mediaRecorderRef
       ReportCard.set_timer ReportCard.set_showContext ReportCard.set_mediaRecorderRef
       ReportCard.set_chunksRef ReportCard.set_awaitingMic ReportCard.set_pendingStop
       ReportCard.set_awaitingReport ReportCard.set_awaitingFile ReportCard.set_orphans
       ReportCard.setInterval_into_ref
       ReportCard.timer ReportCard.showContext ReportCard.mediaRecorderRef
       ReportCard.chunksRef ReportCard.timerIntervalRef ReportCard.liveIntervals
       ReportCard.nextInterval ReportCard.awaitingMic ReportCard.pendingStop
       ReportCard.awaitingReport ReportCard.awaitingFile ReportCard.orphans
       ReportCard.onstop ReportCard.state fst snd].

Lemma step_forget (w : World) (e : Event) :
  start_click e = false ->
  forget_language (step (forget_language w) e) = forget_language (step w e).
Proof.
  intros He.
  destruct e as [uuid now|lang|cid c|cid c v|cid f|cid k o|cid ch|cid|cid k b r|cid k o|cid h|cid|cid k];
    cbn [step].
  - (* NewSpeaker *)
    cbn [items cards language forget_language]. rewrite lookup_fmap.
    destruct (cards w !! uuid) as [l|] eqn:Hl; simpl.
    + apply forget_language_idem.
    + destruct (bool_decide (find_item uuid (items w) = None)).
      * apply (forget_insert _ en (language w)). reflexivity.
      * apply forget_language_idem.
  - (* SetLanguage *)
    unfold forget_language. simpl. f_equal. rewrite <- map_fmap_compose.
    apply map_fmap_ext. intros c l _. apply forget_local_idem.
  - (* Click *)
    apply user_event_forget. intros it lang l its.
    destruct c; try discriminate He; cbn [onClick fst snd];
      try (split; [first [apply forget_local_idem | idtac] | reflexivity]).
    + by_fields l. rewrite map_map. reflexivity.
    + by_fields l. destruct tref, ref as [[[] q]|]; local_fields; rewrite map_map; reflexivity.
    + by_fields l. rewrite map_map. reflexivity.
    + by_fields l. destruct tref, ref as [[[] q]|]; local_fields; rewrite ?map_map; split; reflexivity.
  - (* Input *)
    apply user_event_forget. intros it lang l its. cbn [fst snd].
    split; [apply forget_local_idem |]. destruct c; reflexivity.
  - (* FileChosen *)
    apply user_event_forget. intros it lang l its. cbn [fst snd].
    split; [|reflexivity]. by_fields l.
    destruct f; local_fields; rewrite ?map_app, ?map_map; reflexivity.
  - (* MicSettled *)
    apply card_event_forget. intros l its.
    change (ReportCard.awaitingMic (forget_local l)) with (ReportCard.awaitingMic l).
    destruct (ReportCard.awaitingMic l !! k) as [p|]; [|reflexivity].
    cbn [mbind option_bind fmap option_fmap option_map]. f_equal.
    generalize (delete k (ReportCard.awaitingMic l)). intros mic.
    destruct o; cbn [ReportCard.startRecording_resume fst snd]; f_equal;
      by_fields l; try destruct ref as [[[] q]|]; rewrite ?map_map; reflexivity.
  - (* DataAvailable *)
    apply card_event_forget. intros l its.
    change (ReportCard.mediaRecorderRef (forget_local l)) with (ReportCard.mediaRecorderRef l).
    destruct (ReportCard.mediaRecorderRef l); [|reflexivity].
    cbn [mbind option_bind fmap option_fmap option_map]. do 2 f_equal.
    by_fields l. destruct (0 <? _)%nat; local_fields; rewrite map_map; reflexivity.
  - (* StopDispatched *)
    apply card_event_forget. intros l its.
    change (ReportCard.pendingStop (forget_local l)) with (ReportCard.pendingStop l).
    destruct (ReportCard.pendingStop l) as [|p rest]; [reflexivity |].
    cbn [fmap option_fmap option_map fst snd]. do 2 f_equal.
    by_fields l. rewrite map_map. reflexivity.
  - (* ReportSettled *)
    apply card_event_forget. intros l its.
    change (ReportCard.awaitingReport (forget_local l)) with (ReportCard.awaitingReport l).
    destruct (ReportCard.awaitingReport l !! k) as [[p blob]|]; [|reflexivity].
    cbn [mbind option_bind fmap option_fmap option_map fst snd]. do 2 f_equal.
    by_fields l. rewrite map_map. reflexivity.
  - (* FileSettled *)
    apply card_event_forget. intros l its.
    change (ReportCard.awaitingFile (forget_local l))
      with (map forget_language_of (ReportCard.awaitingFile l)).
    rewrite list_lookup_fmap.
    destruct (ReportCard.awaitingFile l !! k) as [[p fname]|]; [|reflexivity].
    cbn [mbind option_bind fmap option_fmap option_map fst snd forget_language_of]. f_equal.
    f_equal; [| destruct o as [[b64 m]|err]; reflexivity ..].
    by_fields l. f_equal.
    change (map forget_language_of (delete k (forget_language_of <$> af))
            = map forget_language_of (delete k af)).
    rewrite <- (list_fmap_delete forget_language_of af k).
    change (map forget_language_of (map forget_language_of (delete k af))
            = map forget_language_of (delete k af)).
    rewrite map_map. reflexivity.
  - (* Tick *)
    apply card_event_forget. intros l its.
    change (ReportCard.liveIntervals (forget_local l)) with (ReportCard.liveIntervals l).
    destruct (bool_decide _); [|reflexivity].
    cbn [fmap option_fmap option_map fst snd]. do 2 f_equal.
    by_fields l. rewrite map_map. reflexivity.
  - (* StreamEnded *)
    apply card_event_forget. intros l its.
    by_fields l. destruct ref as [[[] q]|]; local_fields; cbn [mbind option_bind fmap option_fmap option_map fst snd]; local_fields; rewrite ?map_map; reflexivity.
  - (* OrphanStreamEnded *)
    apply card_event_forget. intros l its.
    by_fields l. destruct (orph !! k); cbn [mbind option_bind fmap option_fmap option_map fst snd]; local_fields; rewrite ?map_map; reflexivity.
Qed.

Lemma run_forget (w : World) (trace : list Event) :
  no_start trace = true ->
  forget_language (run (forget_language w) trace) = forget_language (run w trace).
Proof.
  revert w. induction trace as [|e trace IH]; intros w Hno; simpl.
  - apply forget_language_idem.
  - simpl in Hno. apply andb_prop in Hno as [He Ht].
    assert (He' : start_click e = false) by (destruct (start_click e); [discriminate He | reflexivity]).
    rewrite <- (IH (step (forget_language w) e) Ht), (step_forget w e He').
    apply IH. exact Ht.
Qed.

(** Selecting a language changes nothing that an acquisition, a recording
    or a submission already under way will do.  From any page, whatever
    happens next short of a click on Start -- stops, answers of
    [getUserMedia] and of the remote call, edits, other selections -- the
    collection is the same whether or not the language was selected first,
    and so are the recorder and the calls in flight of every card, with
    the language they closed over.  The selection reaches the recordings
    that are started after it: a card started after German was selected
    gets the German placeholder. *)
Theorem language_reaches_later_starts_only
    (w : World) (lang : TargetLanguage) (trace : list Event) :
  no_start trace = true ->
  let selected := run (step w (SetLanguage lang)) trace in
  let unselected := run w trace in
  items selected = items unselected
  /\ (forall cid,
        ReportCard.awaitingMic <$> cards selected !! cid
        = ReportCard.awaitingMic <$> cards unselected !! cid
        /\ ReportCard.mediaRecorderRef <$> cards selected !! cid
           = ReportCard.mediaRecorderRef <$> cards unselected !! cid
        /\ ReportCard.pendingStop <$> cards selected !! cid
           = ReportCard.pendingStop <$> cards unselected !! cid
        /\ ReportCard.awaitingReport <$> cards selected !! cid
           = ReportCard.awaitingReport <$> cards unselected !! cid)
  /\ (let c1 := lit "c1" in
      let recording :=
        [ Click c1 ReportCard.StartButton; MicSettled c1 0 ReportCard.granted;
          Click c1 ReportCard.StopButton; StopDispatched c1;
          ReportSettled c1 0 (geminiService.resolved (lit "QUJD"))
            (geminiService.resolved None) ] in
      text <$> find_item c1 (items (run (step (boot c1 0) (SetLanguage de)) recording))
      = Some (lit "Keine neuen Updates erkannt.")
      /\ text <$> find_item c1 (items (run (boot c1 0) recording))
         = Some (lit "No new updates detected.")).
Proof.
  intros Hno. cbv zeta.
  assert (Hsame : forget_language (run (step w (SetLanguage lang)) trace)
                  = forget_language (run w trace)).
  { rewrite <- (run_forget (step w (SetLanguage lang)) trace Hno).
    rewrite <- (run_forget w trace Hno). reflexivity. }
  split; [|split].
  - exact (f_equal items Hsame).
  - intros cid.
    assert (Hc := f_equal (fun w0 => cards w0 !! cid) Hsame).
    cbn [cards forget_language] in Hc. rewrite !lookup_fmap in Hc.
    destruct (cards (run (step w (SetLanguage lang)) trace) !! cid) as [l1|],
             (cards (run w trace) !! cid) as [l2|];
      cbn [fmap option_fmap option_map] in Hc; try discriminate Hc;
      [|repeat split; reflexivity].
    assert (Hl : forget_local l1 = forget_local l2) by congruence.
    cbn [fmap option_fmap option_map].
    repeat split; f_equal.
    + exact (f_equal ReportCard.awaitingMic Hl).
    + exact (f_equal ReportCard.mediaRecorderRef Hl).
    + exact (f_equal ReportCard.pendingStop Hl).
    + exact (f_equal ReportCard.awaitingReport Hl).
  - split; vm_compute; reflexivity.
Qed.

Lemma language_reaches_later_starts_only_witness :
  let c1 := lit "c1" in
  let recording :=
    run (boot c1 0) [ Click c1 ReportCard.StartButton; MicSettled c1 0 ReportCard.granted ] in
  let answer :=
    [ Click c1 ReportCard.StopButton; StopDispatched c1;
      ReportSettled c1 0 (geminiService.resolved (lit "QUJD"))
        (geminiService.resolved None) ] in
  text <$> find_item c1 (items (run (step recording (SetLanguage de)) answer))
  = Some (lit "No new updates detected.").
Proof.
  cbv zeta.
  rewrite (proj1 (language_reaches_later_starts_only
                    (run (boot (lit "c1") 0)
                       [ Click (lit "c1") ReportCard.StartButton;
                         MicSettled (lit "c1") 0 ReportCard.granted ])
                    de
                    [ Click (lit "c1") ReportCard.StopButton; StopDispatched (lit "c1");
                      ReportSettled (lit "c1") 0 (geminiService.resolved (lit "QUJD"))
                        (geminiService.resolved None) ]
                    eq_refl)).
  vm_compute. reflexivity.
Defined.

